(** * create_dunedaq_package.py: a shallow embedding and its properties

    The script scaffolds a new DUNE DAQ package inside a freshly cloned
    repository.  This development embeds the part of the script that runs
    once the clone has succeeded (source lines 96 to 342): the two helper
    functions [cleanup] and [make_package_dir], the post-clone emptiness
    check, the five feature blocks, the documentation and configuration
    steps, the writer of [CMakeLists.txt] and the [.gitkeep] sweep.

    Modelling conventions.
    - A Python [str] is a list of 8-bit characters; [upper] and [lower] act
      on the ASCII letters only, as Python does on ASCII text.
    - The file system is a tree of directories and regular files without
      symbolic links.  A directory keeps its entries in the order in which
      [os.listdir] reports them.
    - Path strings are resolved component by component the way POSIX does
      it ([""] and ["."] stay, [".."] goes up, every crossed component must
      be a directory).
    - The template directory is a read-only store outside the cloned tree,
      given as a function from template file names to their text.
    - [subprocess.Popen(..., shell=True)] is an oracle: it receives the
      command line and the current tree and returns an exit status and a
      new tree.
    - [error] of [dbt_setup_tools] ends the process with exit status 1; an
      uncaught Python exception other than [AssertionError] ends it with a
      traceback, after which the model keeps no state. *)

From Stdlib Require Import List Ascii String Bool Arith ZArith Lia Permutation.
Import ListNotations.

Set Implicit Arguments.

(** ** Strings *)

Definition str := list ascii.

(** A string literal of the source. *)
Definition lit (s : string) : str := list_ascii_of_string s.

Definition str_eqb (a b : str) : bool :=
  if list_eq_dec ascii_dec a b then true else false.

Definition strs_eqb (a b : list str) : bool :=
  if list_eq_dec (list_eq_dec ascii_dec) a b then true else false.

Definition char_between (lo hi : nat) (c : ascii) : bool :=
  (lo <=? nat_of_ascii c) && (nat_of_ascii c <=? hi).

(** [str.upper()] and [str.lower()], character by character. *)
Definition upper_char (c : ascii) : ascii :=
  if char_between 97 122 c then ascii_of_nat (nat_of_ascii c - 32) else c.

Definition lower_char (c : ascii) : ascii :=
  if char_between 65 90 c then ascii_of_nat (nat_of_ascii c + 32) else c.

Definition upper (s : str) : str := map upper_char s.
Definition lower (s : str) : str := map lower_char s.

(** [s.startswith(p)]. *)
Fixpoint starts_with (p s : str) : bool :=
  match p, s with
  | [], _ => true
  | _ :: _, [] => false
  | a :: p', b :: s' => Ascii.eqb a b && starts_with p' s'
  end.

(** [p in s] for strings: [p] occurs in [s] as a contiguous block. *)
Fixpoint contains (p s : str) : bool :=
  starts_with p s ||
  match s with
  | [] => false
  | _ :: s' => contains p s'
  end.

(** [p] occurs in [s], as a proposition. *)
Definition occurs (p s : str) : Prop := exists a b, s = a ++ p ++ b.

(** The scan of [str.replace(old, new)] for a non-empty [old]: left to
    right, every occurrence found is replaced and the scan resumes after it
    ([skip] counts the characters of the occurrence still to be passed). *)
Fixpoint replace_from (old new : str) (skip : nat) (s : str) : str :=
  match s with
  | [] => []
  | c :: s' =>
      match skip with
      | S k => replace_from old new k s'
      | O =>
          if starts_with old s
          then new ++ replace_from old new (List.length old - 1) s'
          else c :: replace_from old new 0 s'
      end
  end.

(** [s.replace(old, new)].  With an empty [old] Python inserts [new] before
    every character and at the end. *)
Definition replace (old new s : str) : str :=
  match old with
  | [] => new ++ flat_map (fun c => c :: new) s
  | _ :: _ => replace_from old new 0 s
  end.

(** [sorted] on a list of strings: insertion sort by code points. *)
Fixpoint str_leb (a b : str) : bool :=
  match a, b with
  | [], _ => true
  | _ :: _, [] => false
  | x :: a', y :: b' =>
      if Nat.ltb (nat_of_ascii x) (nat_of_ascii y) then true
      else if Nat.ltb (nat_of_ascii y) (nat_of_ascii x) then false
      else str_leb a' b'
  end.

Fixpoint insert_sorted (x : str) (l : list str) : list str :=
  match l with
  | [] => [x]
  | y :: l' => if str_leb x y then x :: l else y :: insert_sorted x l'
  end.

Definition sorted (l : list str) : list str := fold_right insert_sorted [] l.

(** ** The regular expressions of the script

    The three patterns the script hands to [re.search] are sequences of
    one-character classes, the last of which may carry a [+]; the first may
    be anchored by [^]. *)

Inductive quantifier := One | Plus.

Record item := Item { item_class : ascii -> bool; item_quant : quantifier }.

Record regex := Regex { anchored : bool; items : list item }.

(** Some prefix of the subject matches the items. *)
Fixpoint match_here (its : list item) : str -> bool :=
  match its with
  | [] => fun _ => true
  | Item cls One :: rest =>
      fun s =>
        match s with
        | [] => false
        | c :: s' => cls c && match_here rest s'
        end
  | Item cls Plus :: rest =>
      fix plus (s : str) : bool :=
        match s with
        | [] => false
        | c :: s' => cls c && (match_here rest s' || plus s')
        end
  end.

Fixpoint match_anywhere (its : list item) (s : str) : bool :=
  match_here its s ||
  match s with
  | [] => false
  | _ :: s' => match_anywhere its s'
  end.

(** [re.search(pattern, s)] as a truth value. *)
Definition re_search (r : regex) (s : str) : bool :=
  if anchored r then match_here (items r) s else match_anywhere (items r) s.

Definition underscore : ascii := "_"%char.
Definition slash : ascii := "/"%char.

(** r"^[A-Z][^_]+" *)
Definition module_name_re : regex :=
  Regex true [ Item (char_between 65 90) One;
               Item (fun c => negb (Ascii.eqb c underscore)) Plus ].

(** r"[A-Z]" *)
Definition uppercase_re : regex :=
  Regex false [ Item (char_between 65 90) One ].

(** Characters with a special meaning in a Python pattern. *)
Definition regex_special (c : ascii) : bool :=
  existsb (Ascii.eqb c) (lit ".^$*+?{}[]\|()").

(** A string every character of which stands for itself in a pattern. *)
Definition regex_plain (s : str) : bool := forallb (fun c => negb (regex_special c)) s.

(** The pattern f"/{package}".  The package name is spliced into the pattern
    unescaped; this is the pattern Python compiles when the name is
    [regex_plain]. *)
Definition cleanup_re (package : str) : regex :=
  Regex false (map (fun c => Item (Ascii.eqb c) One) (slash :: package)).

(** ** The file system *)

Local Unset Elimination Schemes.

Inductive node : Type :=
| File (content : str)
| Dir (entries : list (str * node)).

Local Set Elimination Schemes.

(** [os.listdir]: the names of a directory, in the order the system lists them. *)
Definition names (es : list (str * node)) : list str := map fst es.

Fixpoint assoc (k : str) (es : list (str * node)) : option node :=
  match es with
  | [] => None
  | (k', v) :: es' => if str_eqb k k' then Some v else assoc k es'
  end.

Fixpoint set_entry (k : str) (v : node) (es : list (str * node)) : list (str * node) :=
  match es with
  | [] => [(k, v)]
  | (k', v') :: es' =>
      if str_eqb k k' then (k, v) :: es' else (k', v') :: set_entry k v es'
  end.

Definition del_entry (k : str) (es : list (str * node)) : list (str * node) :=
  filter (fun e => negb (str_eqb k (fst e))) es.

(** The node at a canonical location (a list of names from the root). *)
Fixpoint lookup (p : list str) (n : node) : option node :=
  match p with
  | [] => Some n
  | k :: p' =>
      match n with
      | File _ => None
      | Dir es =>
          match assoc k es with
          | Some c => lookup p' c
          | None => None
          end
      end
  end.

Definition is_dir (p : list str) (root : node) : bool :=
  match lookup p root with
  | Some (Dir _) => true
  | _ => false
  end.

(** Store [v] at a location whose parent is an existing directory. *)
Fixpoint put (p : list str) (v : node) (n : node) : option node :=
  match p with
  | [] => Some v
  | k :: p' =>
      match n with
      | File _ => None
      | Dir es =>
          match p' with
          | [] => Some (Dir (set_entry k v es))
          | _ :: _ =>
              match assoc k es with
              | Some c =>
                  match put p' v c with
                  | Some c' => Some (Dir (set_entry k c' es))
                  | None => None
                  end
              | None => None
              end
          end
      end
  end.

(** Detach the node at an existing location below the root. *)
Fixpoint remove (p : list str) (n : node) : option node :=
  match p with
  | [] => None
  | k :: p' =>
      match n with
      | File _ => None
      | Dir es =>
          match assoc k es with
          | None => None
          | Some c =>
              match p' with
              | [] => Some (Dir (del_entry k es))
              | _ :: _ =>
                  match remove p' c with
                  | Some c' => Some (Dir (set_entry k c' es))
                  | None => None
                  end
              end
          end
      end
  end.

(** The components of a path string. *)
Fixpoint split_on (sep : ascii) (s : str) : list str :=
  match s with
  | [] => [[]]
  | c :: s' =>
      if Ascii.eqb c sep then [] :: split_on sep s'
      else
        match split_on sep s' with
        | [] => [[c]]
        | seg :: segs => (c :: seg) :: segs
        end
  end.

Definition dot : str := lit ".".
Definition dotdot : str := lit "..".

(** Path resolution from the canonical location [cur]: every component is
    looked up in a directory; the last one need not exist. *)
Fixpoint walk_path (root : node) (cur : list str) (segs : list str) : option (list str) :=
  match segs with
  | [] => Some cur
  | s :: rest =>
      if is_dir cur root then
        if str_eqb s [] || str_eqb s dot then walk_path root cur rest
        else if str_eqb s dotdot then walk_path root (removelast cur) rest
        else walk_path root (cur ++ [s]) rest
      else None
  end.

(** Where the resolution of a path string starts: at the root for a path
    with a leading slash, at the working directory otherwise. *)
Definition origin (cwd : list str) (path : str) : list str :=
  match path with
  | c :: _ => if Ascii.eqb c slash then [] else cwd
  | [] => cwd
  end.

Definition resolve (root : node) (cwd : list str) (path : str) : option (list str) :=
  match path with
  | [] => None
  | _ :: _ => walk_path root (origin cwd path) (split_on slash path)
  end.

(** The node a path string names, if any. *)
Definition stat (root : node) (cwd : list str) (path : str) : option node :=
  match resolve root cwd path with
  | Some p => lookup p root
  | None => None
  end.

(** [os.makedirs(path, exist_ok=True)] along the components of the path:
    missing directories are created, existing ones are entered, and a
    component that is not a directory makes the call raise. *)
Fixpoint makedirs_from (root : node) (cur : list str) (segs : list str) : option node :=
  match segs with
  | [] => if is_dir cur root then Some root else None
  | s :: rest =>
      if is_dir cur root then
        if str_eqb s [] || str_eqb s dot then makedirs_from root cur rest
        else if str_eqb s dotdot then makedirs_from root (removelast cur) rest
        else
          match lookup (cur ++ [s]) root with
          | Some _ => makedirs_from root (cur ++ [s]) rest
          | None =>
              match put (cur ++ [s]) (Dir []) root with
              | Some root' => makedirs_from root' (cur ++ [s]) rest
              | None => None
              end
          end
      else None
  end.

Definition gitkeep : str := lit ".gitkeep".

(** The descent of [os.walk] into the entries a directory had when it was
    listed: the entry the loop body unlinked is gone, every other one is
    walked in turn. *)
Fixpoint sweep_entries (walk : node -> option node) (unlinked : bool)
         (l : list (str * node)) : option (list (str * node)) :=
  match l with
  | [] => Some []
  | (k, c) :: l' =>
      if unlinked && str_eqb k gitkeep then sweep_entries walk unlinked l'
      else
        match walk c, sweep_entries walk unlinked l' with
        | Some c', Some l'' => Some ((k, c') :: l'')
        | _, _ => None
        end
  end.

(** Lines 321 and 322: the listing is not exactly [[".gitkeep"]] and the
    name [.gitkeep] exists in the directory. *)
Definition unlinks_marker (es : list (str * node)) : bool :=
  negb (strs_eqb (names es) [gitkeep]) &&
  match assoc gitkeep es with Some _ => true | None => false end.

(** The loop over [os.walk(repodir)] of source lines 320 to 323, on the
    subtree it walks.  [os.walk] lists a directory, hands it to the loop
    body, and then descends into the subdirectories it listed.  The body
    unlinks [.gitkeep] under the condition [unlinks_marker]; [os.unlink]
    raises on a directory. *)
Fixpoint sweep_node (n : node) : option node :=
  match n with
  | File c => Some (File c)
  | Dir es =>
      match (if unlinks_marker es then assoc gitkeep es else None) with
      | Some (Dir _) => None
      | _ => option_map Dir (sweep_entries sweep_node (unlinks_marker es) es)
      end
  end.

(** ** The state of a run *)

(** The files written and the trees removed by the calls of the script,
    oldest first.  This is a record kept by the model, not by the script;
    the markers unlinked by the sweep and the effects of shell commands are
    not entered. *)
Inductive event :=
| Wrote (p : list str)
| Removed (p : list str).

Record state := State {
  fs : node;
  cwd : list str;
  find_package_calls : list str;
  daq_codegen_calls : list str;
  daq_add_library_calls : list str;
  daq_add_python_bindings_calls : list str;
  daq_add_plugin_calls : list str;
  daq_add_application_calls : list str;
  daq_add_unit_test_calls : list str;
  history : list event
}.

Definition with_fs (f : node) (st : state) : state :=
  State f (cwd st) (find_package_calls st) (daq_codegen_calls st)
    (daq_add_library_calls st) (daq_add_python_bindings_calls st)
    (daq_add_plugin_calls st) (daq_add_application_calls st)
    (daq_add_unit_test_calls st) (history st).

Definition with_cwd (c : list str) (st : state) : state :=
  State (fs st) c (find_package_calls st) (daq_codegen_calls st)
    (daq_add_library_calls st) (daq_add_python_bindings_calls st)
    (daq_add_plugin_calls st) (daq_add_application_calls st)
    (daq_add_unit_test_calls st) (history st).

Definition record (e : event) (st : state) : state :=
  State (fs st) (cwd st) (find_package_calls st) (daq_codegen_calls st)
    (daq_add_library_calls st) (daq_add_python_bindings_calls st)
    (daq_add_plugin_calls st) (daq_add_application_calls st)
    (daq_add_unit_test_calls st) (history st ++ [e]).

(** The calls of [error] in the script, by the message they print. *)
Inductive fatal :=
| RepoNotEmpty
| ModuleNotPascalCase (module : str)
| UserAppNotSnakeCase (user_app : str)
| TestAppNotSnakeCase (test_app : str)
| GitMvFailed
| DownloadFailed
| GitAddFailed
| GitCommitFailed.

Inductive result (A : Type) : Type :=
| Continue (a : A) (st : state)        (* the statement completed *)
| Exited (e : fatal) (st : state)      (* error(...): message and exit status 1 *)
| AssertionFailed (st : state)         (* assert False *)
| Raised.                              (* any other uncaught exception *)

Arguments Exited {A} e st.
Arguments AssertionFailed {A} st.
Arguments Raised {A}.

Definition M (A : Type) : Type := state -> result A.

Definition ret {A} (a : A) : M A := fun st => Continue a st.

Definition bind {A B} (m : M A) (k : A -> M B) : M B :=
  fun st =>
    match m st with
    | Continue a st' => k a st'
    | Exited e st' => Exited e st'
    | AssertionFailed st' => AssertionFailed st'
    | Raised => Raised
    end.

Notation "x <- m ;; k" := (bind m (fun x => k))
  (at level 61, m at next level, right associativity).
Notation "m ;; k" := (bind m (fun _ => k))
  (at level 61, right associativity).

Definition error {A} (e : fatal) : M A := fun st => Exited e st.
Definition assert_false {A} : M A := fun st => AssertionFailed st.
Definition raise {A} : M A := fun _ => Raised.

(** [for x in l: body]. *)
Fixpoint for_each {A} (l : list A) (body : A -> M unit) : M unit :=
  match l with
  | [] => ret tt
  | x :: l' => body x ;; for_each l' body
  end.

(** *** System calls *)

Definition os_path_exists (path : str) : M bool :=
  fun st =>
    Continue (match stat (fs st) (cwd st) path with Some _ => true | None => false end) st.

Definition os_listdir (path : str) : M (list str) :=
  fun st =>
    match stat (fs st) (cwd st) path with
    | Some (Dir es) => Continue (names es) st
    | _ => Raised
    end.

Definition os_chdir (path : str) : M unit :=
  fun st =>
    match resolve (fs st) (cwd st) path with
    | Some p => if is_dir p (fs st) then Continue tt (with_cwd p st) else Raised
    | None => Raised
    end.

Definition os_makedirs (path : str) : M unit :=
  fun st =>
    match path with
    | [] => Raised
    | _ :: _ =>
        match makedirs_from (fs st) (origin (cwd st) path) (split_on slash path) with
        | Some root => Continue tt (with_fs root st)
        | None => Raised
        end
    end.

(** [open(path, "w")] followed by the write of [content] and the close:
    the file is created or truncated; a directory cannot be opened. *)
Definition write_file (path : str) (content : str) : M unit :=
  fun st =>
    match resolve (fs st) (cwd st) path with
    | Some p =>
        match lookup p (fs st) with
        | Some (Dir _) => Raised
        | _ =>
            match put p (File content) (fs st) with
            | Some root => Continue tt (record (Wrote p) (with_fs root st))
            | None => Raised
            end
        end
    | None => Raised
    end.

(** [shutil.rmtree(path)]: the path must name a directory other than the root. *)
Definition shutil_rmtree (path : str) : M unit :=
  fun st =>
    match resolve (fs st) (cwd st) path with
    | Some p =>
        if is_dir p (fs st) then
          match remove p (fs st) with
          | Some root => Continue tt (record (Removed p) (with_fs root st))
          | None => Raised
          end
        else Raised
    | None => Raised
    end.

(** The sweep of lines 320 to 323 applied to the tree below [path];
    [os.walk] yields nothing for a path that is not a directory. *)
Definition sweep_gitkeep (path : str) : M unit :=
  fun st =>
    match resolve (fs st) (cwd st) path with
    | Some p =>
        match lookup p (fs st) with
        | Some (Dir es) =>
            match sweep_node (Dir es) with
            | Some n =>
                match put p n (fs st) with
                | Some root => Continue tt (with_fs root st)
                | None => Raised
                end
            | None => Raised
            end
        | _ => Continue tt st
        end
    | None => Continue tt st
    end.

Definition append_find_package_call (line : str) : M unit :=
  fun st =>
    Continue tt
      (State (fs st) (cwd st) (find_package_calls st ++ [line]) (daq_codegen_calls st)
         (daq_add_library_calls st) (daq_add_python_bindings_calls st)
         (daq_add_plugin_calls st) (daq_add_application_calls st)
         (daq_add_unit_test_calls st) (history st)).

Definition append_daq_codegen_call (line : str) : M unit :=
  fun st =>
    Continue tt
      (State (fs st) (cwd st) (find_package_calls st) (daq_codegen_calls st ++ [line])
         (daq_add_library_calls st) (daq_add_python_bindings_calls st)
         (daq_add_plugin_calls st) (daq_add_application_calls st)
         (daq_add_unit_test_calls st) (history st)).

Definition append_daq_add_library_call (line : str) : M unit :=
  fun st =>
    Continue tt
      (State (fs st) (cwd st) (find_package_calls st) (daq_codegen_calls st)
         (daq_add_library_calls st ++ [line]) (daq_add_python_bindings_calls st)
         (daq_add_plugin_calls st) (daq_add_application_calls st)
         (daq_add_unit_test_calls st) (history st)).

Definition append_daq_add_python_bindings_call (line : str) : M unit :=
  fun st =>
    Continue tt
      (State (fs st) (cwd st) (find_package_calls st) (daq_codegen_calls st)
         (daq_add_library_calls st) (daq_add_python_bindings_calls st ++ [line])
         (daq_add_plugin_calls st) (daq_add_application_calls st)
         (daq_add_unit_test_calls st) (history st)).

Definition append_daq_add_plugin_call (line : str) : M unit :=
  fun st =>
    Continue tt
      (State (fs st) (cwd st) (find_package_calls st) (daq_codegen_calls st)
         (daq_add_library_calls st) (daq_add_python_bindings_calls st)
         (daq_add_plugin_calls st ++ [line]) (daq_add_application_calls st)
         (daq_add_unit_test_calls st) (history st)).

Definition append_daq_add_application_call (line : str) : M unit :=
  fun st =>
    Continue tt
      (State (fs st) (cwd st) (find_package_calls st) (daq_codegen_calls st)
         (daq_add_library_calls st) (daq_add_python_bindings_calls st)
         (daq_add_plugin_calls st) (daq_add_application_calls st ++ [line])
         (daq_add_unit_test_calls st) (history st)).

Definition append_daq_add_unit_test_call (line : str) : M unit :=
  fun st =>
    Continue tt
      (State (fs st) (cwd st) (find_package_calls st) (daq_codegen_calls st)
         (daq_add_library_calls st) (daq_add_python_bindings_calls st)
         (daq_add_plugin_calls st) (daq_add_application_calls st)
         (daq_add_unit_test_calls st ++ [line]) (history st)).

(** ** The command line *)

Inductive flag :=
| MainLibrary                 (* --main-library *)
| PythonBindings              (* --python-bindings *)
| DaqModule (name : str)      (* --daq-module <name> *)
| UserApp (name : str)        (* --user-app <name> *)
| TestApp (name : str).       (* --test-app <name> *)

Record arguments := Args {
  contains_main_library : bool;
  contains_python_bindings : bool;
  daq_modules : option (list str);
  user_apps : option (list str);
  test_apps : option (list str);
  package : str
}.

(** The [append] action of [argparse]: the attribute is [None] until the
    flag is first seen. *)
Definition append_arg (o : option (list str)) (x : str) : option (list str) :=
  match o with
  | None => Some [x]
  | Some l => Some (l ++ [x])
  end.

Definition parse_flag (a : arguments) (f : flag) : arguments :=
  match f with
  | MainLibrary =>
      Args true (contains_python_bindings a) (daq_modules a) (user_apps a) (test_apps a) (package a)
  | PythonBindings =>
      Args (contains_main_library a) true (daq_modules a) (user_apps a) (test_apps a) (package a)
  | DaqModule m =>
      Args (contains_main_library a) (contains_python_bindings a)
        (append_arg (daq_modules a) m) (user_apps a) (test_apps a) (package a)
  | UserApp u =>
      Args (contains_main_library a) (contains_python_bindings a)
        (daq_modules a) (append_arg (user_apps a) u) (test_apps a) (package a)
  | TestApp t =>
      Args (contains_main_library a) (contains_python_bindings a)
        (daq_modules a) (user_apps a) (append_arg (test_apps a) t) (package a)
  end.

(** [parser.parse_args()] on the flags in the order they were typed. *)
Definition parse_args (pkg : str) (argv : list flag) : arguments :=
  fold_left parse_flag argv (Args false false None None None pkg).

(** The truth value of an [append] attribute, and the names it holds. *)
Definition given (o : option (list str)) : bool :=
  match o with
  | Some (_ :: _) => true
  | _ => false
  end.

Definition elements (o : option (list str)) : list str :=
  match o with
  | Some l => l
  | None => []
  end.

(** ** Text helpers *)

Definition nl : ascii := ascii_of_nat 10.
Definition dquote : ascii := ascii_of_nat 34.

(** One line of a multi-line literal, with its newline. *)
Definition line (s : string) : str := lit s ++ [nl].

(** [pathlib.Path(name).suffix] for a name without directory part: the
    text from the last dot on, unless that dot is the first or the last
    character. *)
Fixpoint last_dot (s : str) : option nat :=
  match s with
  | [] => None
  | c :: s' =>
      match last_dot s' with
      | Some i => Some (S i)
      | None => if Ascii.eqb c "."%char then Some 0 else None
      end
  end.

Definition path_suffix (name : str) : str :=
  match last_dot name with
  | Some i => if (0 <? i) && (i <? List.length name - 1) then skipn i name else []
  | None => []
  end.

Definition str_in (s : str) (l : list str) : bool := existsb (str_eqb s) l.

(** ** The script *)

Section Script.

(** [args], as returned by the parser. *)
Variable args : arguments.
(** os.environ["DBT_AREA_ROOT"] + "/sourcecode" *)
Variable sourcedir : str.
(** The files of the template directory. *)
Variable template : str -> option str.
(** The two values [get_time("as_date")] returns. *)
Variable readme_time : str.
Variable cmakelists_time : str.
(** " ".join(sys.argv) *)
Variable command : str.
(** The shell: command line, working directory and tree to exit status
    and tree. *)
Variable shell : str -> list str -> node -> Z * node.

Definition repodir : str := sourcedir ++ lit "/" ++ package args.

(** [subprocess.Popen(cmd, shell=True, ...)], [communicate()] and
    [returncode]. *)
Definition popen (cmd : str) : M Z :=
  fun st =>
    let (retval, root) := shell cmd (cwd st) (fs st) in
    Continue retval (with_fs root st).

(** [open(f"{templatedir}/{name}", "r").read()]. *)
Definition read_template (name : str) : M str :=
  match template name with
  | Some text => ret text
  | None => raise
  end.

(** [shutil.copyfile(f"{templatedir}/{name}", dest)]. *)
Definition shutil_copyfile (name dest : str) : M unit :=
  text <- read_template name ;; write_file dest text.

(** Lines 96 to 105. *)
Definition cleanup (repodir : str) : M unit :=
  present <- os_path_exists repodir ;;
  if present then
    if re_search (cleanup_re (package args)) repodir
    then shutil_rmtree repodir
    else assert_false
  else assert_false.

(** Lines 107 to 110. *)
Definition make_package_dir (dirname : str) : M unit :=
  os_makedirs dirname ;;
  present <- os_path_exists (dirname ++ lit "/.gitkeep") ;;
  if negb present then write_file (dirname ++ lit "/.gitkeep") [] else ret tt.

(** The condition of line 114, evaluated left to right. *)
Definition repo_not_empty : M bool :=
  l1 <- os_listdir repodir ;;
  if negb (strs_eqb l1 [lit ".git"]) then
    l2 <- os_listdir repodir ;;
    if negb (strs_eqb (sorted l2) [lit ".git"; lit "README.md"]) then
      l3 <- os_listdir repodir ;;
      ret (negb (strs_eqb (sorted l3) [lit ".git"; lit "docs"]))
    else ret false
  else ret false.

(** Lines 112 to 120. *)
Definition post_clone_check : M unit :=
  os_chdir repodir ;;
  bad <- repo_not_empty ;;
  if bad then cleanup repodir ;; error RepoNotEmpty else ret tt.

(** Lines 132 to 135. *)
Definition main_library_block : M unit :=
  if contains_main_library args then
    make_package_dir (repodir ++ lit "/src") ;;
    make_package_dir (repodir ++ lit "/include") ;;
    append_daq_add_library_call
      (lit "daq_add_library( LINK_LIBRARIES ) # Any source files and/or dependent libraries to link in not yet determined")
  else ret tt.

(** Lines 137 to 142. *)
Definition python_bindings_block : M unit :=
  if contains_python_bindings args then
    make_package_dir (repodir ++ lit "/pybindsrc") ;;
    append_daq_add_python_bindings_call
      ([nl] ++ lit "daq_add_python_bindings(*.cpp LINK_LIBRARIES ${PROJECT_NAME} ) # Any additional libraries to link in beyond the main library not yet determined" ++ [nl]) ;;
    for_each [lit "module.cpp"; lit "renameme.cpp"]
      (fun src_filename =>
         shutil_copyfile src_filename (repodir ++ lit "/pybindsrc/" ++ src_filename))
  else ret tt.

(** Lines 185 to 195: what becomes of the text of a template. *)
Definition substitute (module : str) (sourcecode : str) : str :=
  let sourcecode := replace (lit "RenameMe") module sourcecode in
  let sourcecode := replace (lit "PACKAGE") (upper (package args)) sourcecode in
  let sourcecode := replace (lit "RENAMEME") (upper module) sourcecode in
  let sourcecode := replace (lit "package") (lower (package args)) sourcecode in
  let sourcecode := replace (lit "renameme") (lower module) sourcecode in
  sourcecode.

(** Lines 171 to 178. *)
Definition dest_filename_of (module src_filename : str) : M str :=
  if str_in (path_suffix src_filename) [lit ".hpp"; lit ".cpp"] then
    ret (repodir ++ lit "/plugins/" ++ replace (lit "RenameMe") module src_filename)
  else if str_in (path_suffix src_filename) [lit ".jsonnet"] then
    ret (repodir ++ lit "/schema/" ++ package args ++ lit "/"
           ++ replace (lit "renameme") (lower module) src_filename)
  else assert_false.

(** Lines 169 to 198: one template of one module. *)
Definition instantiate (module src_filename : str) : M unit :=
  dest_filename <- dest_filename_of module src_filename ;;
  shutil_copyfile src_filename dest_filename ;;
  sourcecode <- read_template src_filename ;;
  write_file dest_filename (substitute module sourcecode).

Definition module_templates : list str :=
  [lit "RenameMe.hpp"; lit "RenameMe.cpp"; lit "renameme.jsonnet"; lit "renamemeinfo.jsonnet"].

(** Lines 157 to 198: the body of the loop over the module names. *)
Definition daq_module (module : str) : M unit :=
  (if negb (re_search module_name_re module)
   then cleanup repodir ;; error (ModuleNotPascalCase module)
   else ret tt) ;;
  append_daq_add_plugin_call
    (lit "daq_add_plugin(" ++ module ++ lit " duneDAQModule LINK_LIBRARIES appfwk::appfwk) # Replace appfwk library with a more specific library when appropriate") ;;
  append_daq_codegen_call
    (lit "daq_codegen(" ++ lower module ++ lit ".jsonnet TEMPLATES Structs.hpp.j2 Nljs.hpp.j2)") ;;
  append_daq_codegen_call
    (lit "daq_codegen(" ++ lower module ++ lit "info.jsonnet DEP_PKGS opmonlib TEMPLATES opmonlib/InfoStructs.hpp.j2 opmonlib/InfoNljs.hpp.j2)") ;;
  for_each module_templates (instantiate module).

(** Lines 144 to 198. *)
Definition daq_modules_block : M unit :=
  if given (daq_modules args) then
    for_each [lit "RenameMe.hpp"; lit "RenameMe.cpp"]
      (fun filename =>
         match template filename with
         | Some _ => ret tt
         | None => assert_false
         end) ;;
    for_each [lit "appfwk"; lit "opmonlib"]
      (fun pkg => append_find_package_call (lit "find_package(" ++ pkg ++ lit " REQUIRED)")) ;;
    make_package_dir (repodir ++ lit "/src") ;;
    make_package_dir (repodir ++ lit "/plugins") ;;
    make_package_dir (repodir ++ lit "/schema/" ++ package args) ;;
    for_each (elements (daq_modules args)) daq_module
  else ret tt.

(** Lines 204 to 220 and 227 to 243: the body of the two application
    loops, which differ in the directory, the message and the [TEST]
    keyword. *)
Definition application (subdir : str) (e : str -> fatal) (keyword : str) (app : str) : M unit :=
  (if re_search uppercase_re app
   then cleanup repodir ;; error (e app)
   else ret tt) ;;
  let dest_filename := repodir ++ subdir ++ app ++ lit ".cxx" in
  sourcecode <- read_template (lit "renameme.cxx") ;;
  let sourcecode := replace (lit "renameme") app sourcecode in
  write_file dest_filename sourcecode ;;
  append_daq_add_application_call
    (lit "daq_add_application(" ++ app ++ lit " " ++ app ++ lit ".cxx " ++ keyword
       ++ lit "LINK_LIBRARIES ) # Any libraries to link in not yet determined").

(** Lines 200 to 220. *)
Definition user_apps_block : M unit :=
  if given (user_apps args) then
    make_package_dir (repodir ++ lit "/apps") ;;
    for_each (elements (user_apps args))
      (application (lit "/apps/") UserAppNotSnakeCase [])
  else ret tt.

(** Lines 223 to 243. *)
Definition test_apps_block : M unit :=
  if given (test_apps args) then
    make_package_dir (repodir ++ lit "/test/apps") ;;
    for_each (elements (test_apps args))
      (application (lit "/test/apps/") TestAppNotSnakeCase (lit "TEST "))
  else ret tt.

(** Lines 245 to 248. *)
Definition unittest_block : M unit :=
  make_package_dir (repodir ++ lit "/unittest") ;;
  shutil_copyfile (lit "Placeholder_test.cxx") (repodir ++ lit "/unittest/Placeholder_test.cxx") ;;
  append_daq_add_unit_test_call
    (lit "daq_add_unit_test(Placeholder_test LINK_LIBRARIES)  # Any libraries to link in not yet determined") ;;
  append_find_package_call (lit "find_package(Boost COMPONENTS unit_test_framework REQUIRED)").

(** Lines 250 to 262. *)
Definition docs_block : M unit :=
  make_package_dir (repodir ++ lit "/docs") ;;
  present <- os_path_exists (repodir ++ lit "/README.md") ;;
  if negb present then
    write_file (repodir ++ lit "/docs/README.md")
      (lit "# No Official User Documentation Has Been Written Yet (" ++ readme_time ++ lit ")" ++ [nl])
  else
    os_chdir repodir ;;
    retval <- popen (lit "pwd; git mv README.md docs/README.md") ;;
    if negb (Z.eqb retval 0) then cleanup repodir ;; error GitMvFailed else ret tt.

Definition config_template_html : str :=
  lit "https://raw.githubusercontent.com/DUNE-DAQ/daq-cmake/dunedaq-v2.6.0/configs/Config.cmake.in".

(** Lines 264 to 272. *)
Definition cmake_config_block : M unit :=
  make_package_dir (repodir ++ lit "/cmake") ;;
  retval <- popen (lit "curl -o " ++ repodir ++ lit "/cmake/" ++ package args
                     ++ lit "Config.cmake.in -O " ++ config_template_html) ;;
  if negb (Z.eqb retval 0) then cleanup repodir ;; error DownloadFailed else ret tt.

Definition divider : str :=
  [nl; nl]
  ++ lit "##############################################################################"
  ++ [nl; nl].

(** Lines 275 to 278: what the loop of [print_cmakelists_section] writes
    from index [i] on. *)
Fixpoint section_lines (i : nat) (list_of_calls : list str)
         (section_of_webpage : option str) : str :=
  match list_of_calls with
  | [] => []
  | call :: rest =>
      match i, section_of_webpage with
      | O, Some section =>
          [nl] ++ lit "# See https://dune-daq-sw.readthedocs.io/en/latest/packages/daq-cmake/#"
          ++ section ++ [nl]
      | _, _ => []
      end
      ++ [nl] ++ call
      ++ section_lines (S i) rest section_of_webpage
  end.

(** Lines 274 to 285: the text [print_cmakelists_section] writes. *)
Definition print_cmakelists_section (list_of_calls : list str)
           (section_of_webpage : option str) : str :=
  section_lines 0 list_of_calls section_of_webpage
  ++ (if 0 <? List.length list_of_calls then divider else []).

(** Lines 289 to 305. *)
Definition preamble : str :=
  [nl; nl]
  ++ lit "# This is a skeleton CMakeLists.txt file, auto-generated on "
  ++ cmakelists_time ++ line ". "
  ++ line "# The developer(s) of this package should delete this comment as well"
  ++ line "# as adding dependent targets, packages, etc.  which the"
  ++ line "# auto-generator can't know about. For details on how to write a"
  ++ line "# package, please see"
  ++ line "# https://dune-daq-sw.readthedocs.io/en/latest/packages/daq-cmake/"
  ++ [nl]
  ++ line "cmake_minimum_required(VERSION 3.12)"
  ++ lit "project(" ++ package args ++ line " VERSION 0.0.0)"
  ++ [nl]
  ++ line "find_package(daq-cmake REQUIRED)"
  ++ [nl]
  ++ line "daq_setup_environment()"
  ++ [nl].

(** Lines 287 to 315: everything written to [CMakeLists.txt]. *)
Definition cmakelists_text (st : state) : str :=
  preamble
  ++ print_cmakelists_section (find_package_calls st) None
  ++ print_cmakelists_section (daq_codegen_calls st) (Some (lit "daq_codegen"))
  ++ print_cmakelists_section (daq_add_library_calls st) (Some (lit "daq_add_library"))
  ++ print_cmakelists_section (daq_add_python_bindings_calls st) (Some (lit "daq_add_python_bindings"))
  ++ print_cmakelists_section (daq_add_plugin_calls st) (Some (lit "daq_add_plugin"))
  ++ print_cmakelists_section (daq_add_application_calls st) (Some (lit "daq_add_application"))
  ++ print_cmakelists_section (daq_add_unit_test_calls st) (Some (lit "daq_add_unit_test"))
  ++ line "daq_install()" ++ [nl].

Definition write_cmakelists : M unit :=
  fun st => write_file (lit "CMakeLists.txt") (cmakelists_text st) st.

(** Lines 317 to 323. *)
Definition sweep : M unit :=
  os_chdir repodir ;; sweep_gitkeep repodir.

(** Lines 325 to 342. *)
Definition commit : M unit :=
  retval <- popen (lit "git add -A") ;;
  (if negb (Z.eqb retval 0) then error GitAddFailed else ret tt) ;;
  retval <- popen
    (lit "git commit -m " ++ [dquote]
       ++ lit "This create_dunedaq_package.py-generated boilerplate for the "
       ++ package args ++ lit " package was created by this command: " ++ command
       ++ [dquote]) ;;
  if negb (Z.eqb retval 0) then error GitCommitFailed else ret tt.

(** Lines 132 to 272: the scaffold, with its calls accumulated. *)
Definition scaffold : M unit :=
  main_library_block ;;
  python_bindings_block ;;
  daq_modules_block ;;
  user_apps_block ;;
  test_apps_block ;;
  unittest_block ;;
  docs_block ;;
  cmake_config_block.

(** The script from line 112 on. *)
Definition main : M unit :=
  post_clone_check ;;
  scaffold ;;
  write_cmakelists ;;
  sweep ;;
  commit.

End Script.

(** A run starts in the source directory, with empty call lists. *)
Definition initial_state (root : node) (dir : list str) : state :=
  State root dir [] [] [] [] [] [] [] [].

(** ** Notions used in the statements *)

(** The five placeholder tokens of the module templates. *)
Definition placeholders : list str :=
  [lit "RenameMe"; lit "PACKAGE"; lit "RENAMEME"; lit "package"; lit "renameme"].

(** The substitution as the specification words it: five literal
    replacements, applied one after the other in this order. *)
Definition replacement_steps (module package : str) : list (str * str) :=
  [ (lit "RenameMe", module);
    (lit "PACKAGE", upper package);
    (lit "RENAMEME", upper module);
    (lit "package", lower package);
    (lit "renameme", lower module) ].

Definition apply_steps (steps : list (str * str)) (text : str) : str :=
  fold_left (fun t step => replace (fst step) (snd step) t) steps text.

(** The name forms the five steps insert. *)
Definition inserted_forms (module package : str) : list str :=
  map snd (replacement_steps module package).

(** One of the two strings is a prefix of the other. *)
Definition comparable (a b : str) : bool := starts_with a b || starts_with b a.

(** A copy of [a] can begin at some position of [v]: it occurs there, or
    runs over the end of [v], or [v] ends inside it. *)
Fixpoint starts_inside (a v : str) : bool :=
  match v with
  | [] => false
  | _ :: v' => comparable a v || starts_inside a v'
  end.

(** Neither string can begin inside the other. *)
Definition overlap_free (a b : str) : bool :=
  negb (starts_inside a b) && negb (starts_inside b a).

(** No placeholder token can overlap an inserted name form. *)
Definition names_clear_of_placeholders (module package : str) : bool :=
  forallb (fun v => forallb (fun tok => overlap_free tok v) placeholders)
    (inserted_forms module package).

(** The last component of a path string. *)
Definition last_segment (path : str) : str := last (split_on slash path) [].

(** A path string that starts at the root. *)
Definition absolute (path : str) : bool :=
  match path with
  | c :: _ => Ascii.eqb c slash
  | [] => false
  end.

(** A name that can stand for one entry of a directory. *)
Definition plain_name (name : str) : bool :=
  negb (str_eqb name []) && negb (str_eqb name dot) && negb (str_eqb name dotdot)
  && negb (existsb (Ascii.eqb slash) name).

(** No directory lists a name twice. *)
Fixpoint nodup_names (l : list str) : bool :=
  match l with
  | [] => true
  | x :: l' => negb (str_in x l') && nodup_names l'
  end.

Fixpoint well_formed (n : node) : bool :=
  match n with
  | File _ => true
  | Dir es =>
      nodup_names (names es) &&
      (fix all (l : list (str * node)) : bool :=
         match l with
         | [] => true
         | (_, c) :: l' => well_formed c && all l'
         end) es
  end.

(** Nowhere in the tree does a directory named [.gitkeep] sit next to other
    entries. *)
Fixpoint no_marker_directory (n : node) : bool :=
  match n with
  | File _ => true
  | Dir es =>
      negb (unlinks_marker es && is_dir [gitkeep] (Dir es)) &&
      (fix all (l : list (str * node)) : bool :=
         match l with
         | [] => true
         | (_, c) :: l' => no_marker_directory c && all l'
         end) es
  end.

(** Every component of [segs], walked from [cur], is an existing directory. *)
Fixpoint dirs_along (root : node) (cur : list str) (segs : list str) : bool :=
  match segs with
  | [] => is_dir cur root
  | s :: rest =>
      is_dir cur root &&
      (if str_eqb s [] || str_eqb s dot then dirs_along root cur rest
       else if str_eqb s dotdot then dirs_along root (removelast cur) rest
       else dirs_along root (cur ++ [s]) rest)
  end.

(** The three top-level listings of a repository nobody has worked on. *)
Definition freshly_cloned (listing : list str) : Prop :=
  Permutation listing [lit ".git"]
  \/ Permutation listing [lit ".git"; lit "README.md"]
  \/ Permutation listing [lit ".git"; lit "docs"].

(** ** The build descriptor as the specification describes it *)

(** The seven sections, each a list of calls in insertion order. *)
Record call_lists := Calls {
  lookups : list str;
  codegens : list str;
  libraries : list str;
  bindings : list str;
  plugins : list str;
  applications : list str;
  unit_tests : list str
}.

Definition calls_of (st : state) : call_lists :=
  Calls (find_package_calls st) (daq_codegen_calls st) (daq_add_library_calls st)
    (daq_add_python_bindings_calls st) (daq_add_plugin_calls st)
    (daq_add_application_calls st) (daq_add_unit_test_calls st).

Definition no_calls : call_lists := Calls [] [] [] [] [] [] [].

Definition calls_app (a b : call_lists) : call_lists :=
  Calls (lookups a ++ lookups b) (codegens a ++ codegens b) (libraries a ++ libraries b)
    (bindings a ++ bindings b) (plugins a ++ plugins b)
    (applications a ++ applications b) (unit_tests a ++ unit_tests b).

(** A statement that, when it completes, has appended the calls [d]. *)
Definition adds {A} (d : call_lists) (m : M A) : Prop :=
  forall st a st', m st = Continue a st' -> calls_of st' = calls_app (calls_of st) d.

(** The flags of one kind, in the order they were typed. *)
Definition modules_of (argv : list flag) : list str :=
  flat_map (fun f => match f with DaqModule m => [m] | _ => [] end) argv.

Definition user_apps_of (argv : list flag) : list str :=
  flat_map (fun f => match f with UserApp u => [u] | _ => [] end) argv.

Definition test_apps_of (argv : list flag) : list str :=
  flat_map (fun f => match f with TestApp t => [t] | _ => [] end) argv.

Definition has_main_library (argv : list flag) : bool :=
  existsb (fun f => match f with MainLibrary => true | _ => false end) argv.

Definition has_python_bindings (argv : list flag) : bool :=
  existsb (fun f => match f with PythonBindings => true | _ => false end) argv.

Definition plugin_call (module : str) : str :=
  lit "daq_add_plugin(" ++ module ++ lit " duneDAQModule LINK_LIBRARIES appfwk::appfwk) # Replace appfwk library with a more specific library when appropriate".

Definition codegen_calls (module : str) : list str :=
  [ lit "daq_codegen(" ++ lower module ++ lit ".jsonnet TEMPLATES Structs.hpp.j2 Nljs.hpp.j2)";
    lit "daq_codegen(" ++ lower module ++ lit "info.jsonnet DEP_PKGS opmonlib TEMPLATES opmonlib/InfoStructs.hpp.j2 opmonlib/InfoNljs.hpp.j2)" ].

Definition application_call (keyword app : str) : str :=
  lit "daq_add_application(" ++ app ++ lit " " ++ app ++ lit ".cxx " ++ keyword
  ++ lit "LINK_LIBRARIES ) # Any libraries to link in not yet determined".

(** What each section holds for a command line, whatever the order of its
    flags of different kinds. *)
Definition expected_sections (argv : list flag) : call_lists :=
  Calls
    ((match modules_of argv with
      | [] => []
      | _ :: _ => [lit "find_package(appfwk REQUIRED)"; lit "find_package(opmonlib REQUIRED)"]
      end)
     ++ [lit "find_package(Boost COMPONENTS unit_test_framework REQUIRED)"])
    (flat_map codegen_calls (modules_of argv))
    (if has_main_library argv
     then [lit "daq_add_library( LINK_LIBRARIES ) # Any source files and/or dependent libraries to link in not yet determined"]
     else [])
    (if has_python_bindings argv
     then [[nl] ++ lit "daq_add_python_bindings(*.cpp LINK_LIBRARIES ${PROJECT_NAME} ) # Any additional libraries to link in beyond the main library not yet determined" ++ [nl]]
     else [])
    (map plugin_call (modules_of argv))
    (map (application_call []) (user_apps_of argv)
     ++ map (application_call (lit "TEST ")) (test_apps_of argv))
    [lit "daq_add_unit_test(Placeholder_test LINK_LIBRARIES)  # Any libraries to link in not yet determined"].

(** The descriptor: preamble, the seven sections in their fixed order, and
    the installation line. *)
Definition descriptor (args : arguments) (time : str) (c : call_lists) : str :=
  preamble args time
  ++ print_cmakelists_section (lookups c) None
  ++ print_cmakelists_section (codegens c) (Some (lit "daq_codegen"))
  ++ print_cmakelists_section (libraries c) (Some (lit "daq_add_library"))
  ++ print_cmakelists_section (bindings c) (Some (lit "daq_add_python_bindings"))
  ++ print_cmakelists_section (plugins c) (Some (lit "daq_add_plugin"))
  ++ print_cmakelists_section (applications c) (Some (lit "daq_add_application"))
  ++ print_cmakelists_section (unit_tests c) (Some (lit "daq_add_unit_test"))
  ++ line "daq_install()" ++ [nl].

(** Every call of a section is a call of the section's command. *)
Definition calls_are (command : str) (l : list str) : bool :=
  forallb (fun call => starts_with command call || starts_with (nl :: command) call) l.

Definition sections_hold_their_calls (c : call_lists) : bool :=
  calls_are (lit "find_package(") (lookups c)
  && calls_are (lit "daq_codegen(") (codegens c)
  && calls_are (lit "daq_add_library(") (libraries c)
  && calls_are (lit "daq_add_python_bindings(") (bindings c)
  && calls_are (lit "daq_add_plugin(") (plugins c)
  && calls_are (lit "daq_add_application(") (applications c)
  && calls_are (lit "daq_add_unit_test(") (unit_tests c).

(** ** The files of a module *)

(** Where the four files of a module go, given the locations of the
    [plugins] and [schema/<package>] directories. *)
Definition module_destinations (plugins_dir schema_dir : list str) (module : str)
  : list (list str) :=
  [ plugins_dir ++ [module ++ lit ".hpp"];
    plugins_dir ++ [module ++ lit ".cpp"];
    schema_dir ++ [lower module ++ lit ".jsonnet"];
    schema_dir ++ [lower module ++ lit "info.jsonnet"] ].

(** One template to instantiate: its name, its text, the destination path
    string and the location it resolves to (a directory and a name). *)
Record job := Job {
  job_src : str;
  job_text : str;
  job_dest : str;
  job_dir : list str;
  job_name : str
}.

Definition job_location (j : job) : list str := job_dir j ++ [job_name j].

(** ** Data for the examples *)

Module Example.

(** A template directory with short texts. *)
Definition template (name : str) : option str :=
  if str_eqb name (lit "RenameMe.hpp") then
    Some (lit "#ifndef PACKAGE_RENAMEME_HPP_ namespace package { class RenameMe; } // renameme")
  else if str_eqb name (lit "RenameMe.cpp") then
    Some (lit "#include <package/RenameMe.hpp> // PACKAGE RENAMEME renameme")
  else if str_eqb name (lit "renameme.jsonnet") then
    Some (lit "RenameMe PACKAGE RENAMEME package.renameme")
  else if str_eqb name (lit "renamemeinfo.jsonnet") then
    Some (lit "RenameMe PACKAGE RENAMEME package.renamemeinfo")
  else if str_eqb name (lit "renameme.cxx") then Some (lit "int main() {} // renameme")
  else if str_eqb name (lit "Placeholder_test.cxx") then Some (lit "BOOST_AUTO_TEST_CASE")
  else if str_eqb name (lit "module.cpp") then Some (lit "PYBIND11_MODULE")
  else if str_eqb name (lit "renameme.cpp") then Some (lit "register_renameme")
  else None.

(** A shell in which every command succeeds and changes nothing. *)
Definition shell (cmd : str) (dir : list str) (root : node) : Z * node := (0%Z, root).

Definition sourcedir : str := lit "/work/sourcecode".

(** The tree right after [git clone] of an empty repository [dune]. *)
Definition cloned : node :=
  Dir [(lit "work",
        Dir [(lit "sourcecode",
              Dir [(lit "dune", Dir [(lit ".git", Dir [(lit "HEAD", File [])])])])])].

Definition start : state := initial_state cloned [lit "work"; lit "sourcecode"].

Definition args_of (argv : list flag) : arguments := parse_args (lit "dune") argv.

(** The state in which the loop over the module names starts: the
    directories of lines 152 to 154 are in place. *)
Definition before_modules : state :=
  match (os_chdir (repodir (args_of []) sourcedir) ;;
         make_package_dir (repodir (args_of []) sourcedir ++ lit "/src") ;;
         make_package_dir (repodir (args_of []) sourcedir ++ lit "/plugins") ;;
         make_package_dir (repodir (args_of []) sourcedir ++ lit "/schema/dune")) start with
  | Continue _ st => st
  | _ => start
  end.

Definition repo : list str := [lit "work"; lit "sourcecode"; lit "dune"].

(** The state after the first [make_package_dir] of a run. *)
Definition with_src : state :=
  match make_package_dir (lit "/work/sourcecode/dune/src") start with
  | Continue _ st => st
  | _ => start
  end.

(** The state after the module [Foo] has been generated. *)
Definition after_module : state :=
  match daq_module (args_of [DaqModule (lit "Foo")]) sourcedir template (lit "Foo")
          before_modules with
  | Continue _ st => st
  | _ => before_modules
  end.

Definition entries_at (p : list str) (st : state) : list (str * node) :=
  match lookup p (fs st) with
  | Some (Dir es) => es
  | _ => []
  end.

(** A command line with its flags in no particular order. *)
Definition argv : list flag :=
  [UserApp (lit "my_app"); DaqModule (lit "Foo"); MainLibrary; TestApp (lit "my_test");
   DaqModule (lit "Bar"); PythonBindings].

(** The state at the end of the run on that command line. *)
Definition finished : state :=
  match main (args_of argv) sourcedir template (lit "2021-06-01") (lit "2021-06-01")
          (lit "create_dunedaq_package.py dune") shell start with
  | Continue _ st => st
  | _ => start
  end.

(** A tree in which a directory next to the repository contains its name. *)
Definition nested : node :=
  Dir [(lit "work", Dir [(lit "dune", Dir [(lit "notes", Dir [(lit "todo.txt", File [])])])])].

End Example.

(** ** Notions used in the further statements *)

(** What an [append] attribute of the parser holds once the names [l] have
    been given. *)
Definition collected (l : list str) : option (list str) :=
  match l with
  | [] => None
  | _ :: _ => Some l
  end.

(** The two errors of the last stage (lines 329 to 342), after which the
    script attempts no cleanup. *)
Definition final_stage_error (e : fatal) : bool :=
  match e with
  | GitAddFailed | GitCommitFailed => true
  | _ => false
  end.

(** A run that ended with a fatal error did so right after removing a tree,
    unless the error is one of the last stage. *)
Definition cleaned_up {A} (r : result A) : Prop :=
  match r with
  | Exited e st =>
      final_stage_error e = true
      \/ exists earlier p, history st = earlier ++ [Removed p] /\ lookup p (fs st) = None
  | _ => True
  end.

(** [q] lies at or below [p]. *)
Definition below (p q : list str) : Prop := exists r, q = p ++ r.

(** An [append] attribute after further names [l] have been given. *)
Definition grown (o : option (list str)) (l : list str) : option (list str) :=
  match l with
  | [] => o
  | _ :: _ => Some (elements o ++ l)
  end.

(** The state after the directory of the user applications has been made
    in the fresh clone of [Example]. *)
Definition with_apps : state :=
  match make_package_dir (lit "/work/sourcecode/dune/apps") Example.start with
  | Continue _ st => st
  | _ => Example.start
  end.

(** A statement that never ends in a fatal error of its own. *)
Definition never_exits {A} (m : M A) : Prop :=
  forall st, match m st with Exited _ _ => False | _ => True end.

(** A statement whose fatal errors all come right after a removal, or
    belong to the last stage. *)
Definition exits_clean {A} (m : M A) : Prop := forall st, cleaned_up (m st).

(** A statement that either completes or raises an exception. *)
Definition completes_or_raises {A} (m : M A) : Prop :=
  forall st, match m st with Continue _ _ | Raised => True | _ => False end.

(** A template directory without the schema templates. *)
Definition plugins_only (name : str) : option str :=
  if str_eqb name (lit "RenameMe.hpp") || str_eqb name (lit "RenameMe.cpp")
  then Example.template name
  else None.

(** An empty template directory. *)
Definition no_templates (name : str) : option str := None.

(** A statement that, when it completes, has left the working directory
    where it was and every directory in place. *)
Definition grows {A} (m : M A) : Prop :=
  forall st a st', m st = Continue a st' ->
    cwd st' = cwd st /\ forall q, is_dir q (fs st) = true -> is_dir q (fs st') = true.

(** A statement that, when it completes, has added only writes to the
    record of the run. *)
Definition only_writes {A} (m : M A) : Prop :=
  forall st a st', m st = Continue a st' ->
    exists written, history st' = history st ++ map Wrote written.

(** The path string of the directory names [names] below some directory. *)
Definition path_of (names : list str) : str := flat_map (fun n => slash :: n) names.

(** [pre] is a non-empty leading part of [names]. *)
Definition leading (pre names : list str) : Prop :=
  pre <> [] /\ exists suf, names = pre ++ suf.

(** The directories the scaffold makes with [make_package_dir], as
    locations below the repository directory. *)
Definition leaves (pkg : str) : list (list str) :=
  [[lit "src"]; [lit "include"]; [lit "pybindsrc"]; [lit "plugins"]; [lit "schema"; pkg];
   [lit "apps"]; [lit "test"; lit "apps"]; [lit "unittest"]; [lit "docs"]; [lit "cmake"]].

(** All the directories the scaffold makes. *)
Definition scaffold_dirs (pkg : str) : list (list str) :=
  [lit "schema"] :: [lit "test"] :: leaves pkg.

(** The tree [root] of a run that started from [root0], as far as the
    directories below the repository directory [p] go: the tree lists no
    name twice, the directories of [root0] are still there, and the other
    directories below [p] are among those of the scaffold. *)
Definition tidy (pkg : str) (p : list str) (root0 root : node) : Prop :=
  well_formed root = true
  /\ (forall q, is_dir q root0 = true -> is_dir q root = true)
  /\ (forall r, is_dir (p ++ r) root = true ->
                r = [] \/ In r (scaffold_dirs pkg) \/ is_dir (p ++ r) root0 = true).

(** The files below [p] are those of [root0] and files in the directories
    of [leaves]. *)
Definition filed (pkg : str) (p : list str) (root0 root : node) : Prop :=
  forall r c, lookup (p ++ r) root = Some (File c) ->
    lookup (p ++ r) root0 = Some (File c)
    \/ exists leaf name, In leaf (leaves pkg) /\ r = leaf ++ [name].

(** The state of a run on its way through the scaffold. *)
Definition on_track (pkg : str) (p : list str) (root0 : node) (st : state) : Prop :=
  cwd st = p /\ tidy pkg p root0 (fs st) /\ filed pkg p root0 (fs st).

(** The directories [dirs] below [p] are in place. *)
Definition standing (p : list str) (dirs : list (list str)) (st : state) : Prop :=
  forall d, In d dirs -> is_dir (p ++ d) (fs st) = true.

(** On track, with the directories [dirs] in place. *)
Definition ready (pkg : str) (p : list str) (root0 : node) (dirs : list (list str))
           (st : state) : Prop :=
  on_track pkg p root0 st /\ standing p dirs st.

(** A statement that completes from every state in which [I] holds, and
    leaves a state in which [J] holds. *)
Definition leads (I J : state -> Prop) (m : M unit) : Prop :=
  forall st, I st -> exists st', m st = Continue tt st' /\ J st'.

(** The files of the template directory the script reads. *)
Definition all_templates : list str :=
  module_templates
  ++ [lit "renameme.cxx"; lit "Placeholder_test.cxx"; lit "module.cpp"; lit "renameme.cpp"].

(** A module name that passes the check and holds no slash. *)
Definition good_module_name (module : str) : bool :=
  re_search module_name_re module && negb (existsb (Ascii.eqb slash) module).

(** An application name that passes the check and holds no slash. *)
Definition good_application_name (app : str) : bool :=
  negb (re_search uppercase_re app) && negb (existsb (Ascii.eqb slash) app).

(** The state of a run once the scaffold is done: the files no longer
    matter. *)
Definition on_dirs (pkg : str) (p : list str) (root0 : node) (st : state) : Prop :=
  cwd st = p /\ tidy pkg p root0 (fs st).

(** The clone right after [git clone] of an empty repository: the
    repository directory lists [.git] only; no directory of the tree lists
    a name twice or is named [.gitkeep]. *)
Definition fresh_clone (args : arguments) (sourcedir : str) (p : list str) (st : state)
  : Prop :=
  resolve (fs st) (cwd st) (repodir args sourcedir) = Some p
  /\ (exists es, lookup p (fs st) = Some (Dir es) /\ names es = [lit ".git"])
  /\ well_formed (fs st) = true
  /\ (forall r, is_dir ((p ++ r) ++ [gitkeep]) (fs st) = false).

(** A command line the checks of the script let through, with names that
    are names of single files. *)
Definition well_named (args : arguments) : Prop :=
  plain_name (package args) = true
  /\ package args <> gitkeep
  /\ forallb good_module_name (elements (daq_modules args)) = true
  /\ forallb good_application_name (elements (user_apps args)) = true
  /\ forallb good_application_name (elements (test_apps args)) = true.

(** A shell in which every command succeeds and [curl] neither makes nor
    removes a directory. *)
Definition obliging (shell : str -> list str -> node -> Z * node) : Prop :=
  (forall cmd dir root, fst (shell cmd dir root) = 0%Z)
  /\ (forall cmd dir root,
        starts_with (lit "curl") cmd = true ->
        (forall q, is_dir q (snd (shell cmd dir root)) = is_dir q root)
        /\ (well_formed root = true -> well_formed (snd (shell cmd dir root)) = true)).

(** * Properties *)

Unset Implicit Arguments.

(** ** Strings *)

Lemma str_eqb_eq (a b : str) : str_eqb a b = true <-> a = b.
Proof.
  unfold str_eqb. destruct (list_eq_dec ascii_dec a b); split; intros; congruence.
Qed.

Lemma str_eqb_refl (a : str) : str_eqb a a = true.
Proof. now apply str_eqb_eq. Qed.

Lemma str_eqb_neq (a b : str) : str_eqb a b = false <-> a <> b.
Proof.
  unfold str_eqb. destruct (list_eq_dec ascii_dec a b); split; intros; congruence.
Qed.

Lemma strs_eqb_eq (a b : list str) : strs_eqb a b = true <-> a = b.
Proof.
  unfold strs_eqb.
  destruct (list_eq_dec (list_eq_dec ascii_dec) a b); split; intros; congruence.
Qed.

Lemma starts_with_spec (p s : str) :
  starts_with p s = true <-> exists r, s = p ++ r.
Proof.
  revert s. induction p as [|a p IH]; intros s; simpl.
  - split; [intros _; now exists s | reflexivity].
  - destruct s as [|b s].
    + split; [discriminate | intros [r H]; discriminate].
    + rewrite andb_true_iff, Ascii.eqb_eq, IH. split.
      * intros [-> [r ->]]. now exists r.
      * intros [r H]. injection H as -> ->. split; [reflexivity | now exists r].
Qed.

Lemma starts_with_app (p r : str) : starts_with p (p ++ r) = true.
Proof. apply starts_with_spec. now exists r. Qed.

Lemma contains_spec (p s : str) : contains p s = true <-> occurs p s.
Proof.
  unfold occurs. induction s as [|c s IH]; simpl.
  - rewrite orb_false_r, starts_with_spec. split.
    + intros [r H]. now exists [], r.
    + intros [a [b H]]. destruct a; [now exists b | discriminate].
  - rewrite orb_true_iff, starts_with_spec, IH. split.
    + intros [[r H] | [a [b H]]].
      * now exists [], r.
      * exists (c :: a), b. simpl. now rewrite H.
    + intros [a [b H]]. destruct a as [|x a].
      * left. now exists b.
      * right. injection H as _ H. now exists a, b.
Qed.

Lemma contains_false (p s : str) : contains p s = false <-> ~ occurs p s.
Proof.
  rewrite <- contains_spec. destruct (contains p s); split; intros; congruence.
Qed.

Lemma occurs_cons (p : str) (c : ascii) (s : str) :
  occurs p (c :: s) <-> starts_with p (c :: s) = true \/ occurs p s.
Proof.
  rewrite <- !contains_spec. simpl. now rewrite orb_true_iff.
Qed.

Lemma occurs_app_r (p a s : str) : occurs p s -> occurs p (a ++ s).
Proof.
  intros [x [y ->]]. exists (a ++ x), y. now rewrite app_assoc.
Qed.

Lemma occurs_app_l (p s b : str) : occurs p s -> occurs p (s ++ b).
Proof.
  intros [x [y ->]]. exists x, (y ++ b). now rewrite <- !app_assoc.
Qed.

Lemma occurs_refl (p : str) : occurs p p.
Proof. exists [], []. now rewrite app_nil_r. Qed.

(** *** The equations of [replace] *)

Lemma replace_from_skip (old new a s : str) :
  replace_from old new (List.length a) (a ++ s) = replace_from old new 0 s.
Proof.
  induction a as [|c a IH]; simpl; [reflexivity | exact IH].
Qed.

Lemma replace_nil (old new : str) : old <> [] -> replace old new [] = [].
Proof. destruct old; [congruence | reflexivity]. Qed.

Lemma replace_match (old new s : str) :
  old <> [] -> replace old new (old ++ s) = new ++ replace old new s.
Proof.
  destruct old as [|c old]; [congruence | intros _].
  unfold replace. change ((c :: old) ++ s) with (c :: (old ++ s)).
  cbn [replace_from].
  change (c :: old ++ s) with ((c :: old) ++ s).
  rewrite starts_with_app. f_equal.
  replace (List.length (c :: old) - 1) with (List.length old) by (simpl; lia).
  apply replace_from_skip.
Qed.

Lemma replace_step (old new : str) (c : ascii) (s : str) :
  old <> [] -> starts_with old (c :: s) = false ->
  replace old new (c :: s) = c :: replace old new s.
Proof.
  destruct old as [|o old]; [congruence | intros _ H].
  unfold replace. cbn [replace_from]. now rewrite H.
Qed.

(** Induction along the scan of [replace]. *)
Lemma replace_scan_ind (old : str) (P : str -> Prop) :
  old <> [] ->
  P [] ->
  (forall s, P s -> P (old ++ s)) ->
  (forall c s, starts_with old (c :: s) = false -> P s -> P (c :: s)) ->
  forall s, P s.
Proof.
  intros Hold Hnil Hmatch Hstep s.
  remember (List.length s) as n eqn:Hn.
  revert s Hn. induction n as [n IH] using lt_wf_ind. intros s Hn.
  destruct s as [|c s]; [exact Hnil|].
  destruct (starts_with old (c :: s)) eqn:E.
  - apply starts_with_spec in E. destruct E as [r E]. rewrite E.
    apply Hmatch. apply (IH (List.length r)); [|reflexivity].
    subst n. rewrite E, length_app.
    destruct old; [congruence | simpl; lia].
  - apply Hstep; [exact E|]. apply (IH (List.length s)); [|reflexivity].
    subst n. simpl. lia.
Qed.

Lemma occurs_nil_inv (p : str) : occurs p [] -> p = [].
Proof.
  intros [a [b H]]. symmetry in H.
  apply app_eq_nil in H as [_ H]. now apply app_eq_nil in H as [H _].
Qed.

Lemma occurs_nil (s : str) : occurs [] s.
Proof. now exists [], s. Qed.

Lemma starts_with_nil_r (p : str) : starts_with p [] = true -> p = [].
Proof. destruct p; [reflexivity | discriminate]. Qed.

(** Two prefixes of one string are comparable. *)
Lemma prefixes_comparable (a b s : str) :
  starts_with a s = true -> starts_with b s = true -> comparable a b = true.
Proof.
  unfold comparable. revert b s. induction a as [|x a IH]; intros b s Ha Hb.
  - reflexivity.
  - destruct b as [|y b]; [now rewrite orb_true_r|].
    destruct s as [|z s]; [discriminate|]. simpl in *.
    apply andb_true_iff in Ha as [Hx Ha]. apply andb_true_iff in Hb as [Hy Hb].
    apply Ascii.eqb_eq in Hx, Hy. subst y z. rewrite Ascii.eqb_refl. simpl.
    exact (IH b s Ha Hb).
Qed.

Lemma comparable_sym (a b : str) : comparable a b = comparable b a.
Proof. unfold comparable. apply orb_comm. Qed.

(** A string that cannot begin inside [a] and occurs in [a ++ r] occurs in [r]. *)
Lemma occurs_past (v a r : str) :
  v <> [] -> starts_inside v a = false -> occurs v (a ++ r) -> occurs v r.
Proof.
  intros Hv. induction a as [|x a IH]; intros Hin Hocc; [exact Hocc|].
  simpl in Hin. apply orb_false_iff in Hin as [Hc Hin].
  change ((x :: a) ++ r) with (x :: (a ++ r)) in Hocc.
  apply occurs_cons in Hocc as [Hpre | Hocc]; [|now apply IH].
  exfalso.
  assert (comparable v (x :: a) = true); [|congruence].
  apply prefixes_comparable with (s := x :: a ++ r); [exact Hpre|].
  change (x :: a ++ r) with ((x :: a) ++ r). apply starts_with_app.
Qed.

Section Replace.

Variables old new : str.
Hypothesis old_nonempty : old <> [].

(** An occurrence of [old] in the subject puts [new] into the result. *)
Lemma replace_inserts (s : str) :
  occurs old s -> occurs new (replace old new s).
Proof.
  pattern s. apply (@replace_scan_ind old _ old_nonempty); clear s.
  - intros H. apply occurs_nil_inv in H. contradiction.
  - intros s _ _. rewrite replace_match by assumption.
    apply occurs_app_l, occurs_refl.
  - intros c s Hno IH H. rewrite replace_step by assumption.
    apply occurs_cons in H as [H | H]; [congruence|].
    apply (occurs_app_r _ [c]). now apply IH.
Qed.

(** Without an occurrence of [old] the subject is returned as it is. *)
Lemma replace_absent (s : str) :
  ~ occurs old s -> replace old new s = s.
Proof.
  pattern s. apply (@replace_scan_ind old _ old_nonempty); clear s.
  - intros _. now apply replace_nil.
  - intros s _ H. exfalso. apply H. apply occurs_app_l, occurs_refl.
  - intros c s Hno IH H. rewrite replace_step by assumption. f_equal.
    apply IH. intros Hs. apply H. now apply (occurs_app_r _ [c]).
Qed.

(** The scan passes over a block inside which [old] cannot begin. *)
Lemma replace_through (v rest : str) :
  starts_inside old v = false ->
  replace old new (v ++ rest) = v ++ replace old new rest.
Proof.
  induction v as [|x v IH]; intros H; [reflexivity|].
  simpl in H. apply orb_false_iff in H as [Hc H].
  change ((x :: v) ++ rest) with (x :: (v ++ rest)).
  rewrite replace_step; [now rewrite IH | assumption |].
  destruct (starts_with old (x :: v ++ rest)) eqn:E; [|reflexivity].
  exfalso. assert (comparable old (x :: v) = true); [|congruence].
  apply prefixes_comparable with (s := x :: v ++ rest); [exact E|].
  change (x :: v ++ rest) with ((x :: v) ++ rest). apply starts_with_app.
Qed.

(** A block that [old] cannot overlap survives the replacement. *)
Lemma replace_preserves (v s : str) :
  overlap_free old v = true -> occurs v s -> occurs v (replace old new s).
Proof.
  unfold overlap_free. rewrite andb_true_iff, !negb_true_iff. intros [Hov Hvo].
  destruct v as [|v0 v]; [intros _; apply occurs_nil|].
  pattern s. apply (@replace_scan_ind old _ old_nonempty); clear s.
  - intros H. apply occurs_nil_inv in H. discriminate.
  - intros s IH H. rewrite replace_match by assumption.
    apply occurs_app_r, IH. apply occurs_past with (a := old); [discriminate | assumption | exact H].
  - intros c s Hno IH H.
    apply occurs_cons in H as [H | H].
    + apply starts_with_spec in H as [rest H]. rewrite H.
      rewrite replace_through by assumption.
      apply occurs_app_l, occurs_refl.
    + rewrite replace_step by assumption. apply (occurs_app_r _ [c]). now apply IH.
Qed.

(** A prefix of the result inside which [new] cannot begin is a prefix of
    the subject. *)
Lemma replace_prefix_inv (t s : str) :
  starts_inside new t = false ->
  starts_with t (replace old new s) = true -> starts_with t s = true.
Proof.
  revert t. pattern s. apply (@replace_scan_ind old _ old_nonempty); clear s.
  - intros t _. now rewrite replace_nil.
  - intros s _ t Hin H. rewrite replace_match in H by assumption.
    destruct t as [|t0 t]; [reflexivity|]. exfalso.
    simpl in Hin. apply orb_false_iff in Hin as [Hc _].
    assert (comparable new (t0 :: t) = true); [|congruence].
    apply prefixes_comparable with (s := new ++ replace old new s);
      [apply starts_with_app | exact H].
  - intros c s Hno IH t Hin H. rewrite replace_step in H by assumption.
    destruct t as [|t0 t]; [reflexivity|].
    simpl in Hin. apply orb_false_iff in Hin as [_ Hin].
    simpl in *. apply andb_true_iff in H as [H0 H]. rewrite H0. simpl.
    now apply IH.
Qed.

(** What occurs in the result and cannot overlap [new] occurred in the subject. *)
Lemma replace_occurs_inv (tok s : str) :
  overlap_free tok new = true ->
  occurs tok (replace old new s) -> occurs tok s.
Proof.
  unfold overlap_free. rewrite andb_true_iff, !negb_true_iff. intros [Htn Hnt].
  destruct tok as [|t0 tok]; [intros _; apply occurs_nil|].
  pattern s. apply (@replace_scan_ind old _ old_nonempty); clear s.
  - now rewrite replace_nil.
  - intros s IH H. rewrite replace_match in H by assumption.
    apply occurs_app_r, IH.
    apply occurs_past with (a := new); [discriminate | assumption | exact H].
  - intros c s Hno IH H. rewrite replace_step in H by assumption.
    apply occurs_cons in H as [H | H].
    + apply contains_spec. simpl. apply orb_true_iff. left.
      rewrite <- (@replace_step old new c s old_nonempty Hno) in H.
      now apply replace_prefix_inv in H.
    + apply (occurs_app_r _ [c]). now apply IH.
Qed.

(** The result is free of [old] when [old] and [new] cannot overlap. *)
Lemma replace_removes (s : str) :
  overlap_free old new = true -> ~ occurs old (replace old new s).
Proof.
  intros Hfree.
  assert (Hfree' := Hfree). unfold overlap_free in Hfree'.
  rewrite andb_true_iff, !negb_true_iff in Hfree'. destruct Hfree' as [Hon Hno'].
  pattern s. apply (@replace_scan_ind old _ old_nonempty); clear s.
  - rewrite replace_nil by assumption. intros H. now apply occurs_nil_inv in H.
  - intros s IH H. rewrite replace_match in H by assumption.
    apply IH. apply occurs_past with (a := new); assumption.
  - intros c s Hno IH H. rewrite replace_step in H by assumption.
    apply occurs_cons in H as [H | H]; [|now apply IH].
    rewrite <- (@replace_step old new c s old_nonempty Hno) in H.
    apply replace_prefix_inv in H; [congruence | assumption].
Qed.

End Replace.

(** ** The five-step substitution *)

Lemma substitute_steps (args : arguments) (module text : str) :
  substitute args module text
  = apply_steps (replacement_steps module (package args)) text.
Proof. reflexivity. Qed.

(** ** The module-name pattern *)

Lemma module_name_re_second (m : str) :
  re_search module_name_re m = true <->
  exists c1 c2 rest,
    m = c1 :: c2 :: rest /\ char_between 65 90 c1 = true /\ c2 <> underscore.
Proof.
  unfold re_search, module_name_re. simpl.
  destruct m as [|c1 [|c2 rest]].
  - split; [discriminate | intros (? & ? & ? & H & _); discriminate].
  - rewrite andb_false_r. split; [discriminate | intros (? & ? & ? & H & _); discriminate].
  - rewrite andb_true_r, andb_true_iff, negb_true_iff. split.
    + intros [H1 H2]. exists c1, c2, rest. repeat split; [assumption|].
      intros ->. unfold underscore in H2. now rewrite Ascii.eqb_refl in H2.
    + intros (x & y & r & H & H1 & H2). injection H as -> -> ->. split; [assumption|].
      now apply Ascii.eqb_neq.
Qed.

(** ** The file system *)

(** Induction on trees, with the hypothesis for every entry of a directory. *)
Lemma node_induction (P : node -> Prop) :
  (forall c, P (File c)) ->
  (forall es, Forall (fun e => P (snd e)) es -> P (Dir es)) ->
  forall n, P n.
Proof.
  intros HF HD.
  fix IH 1. intros [c | es]; [apply HF|].
  apply HD. induction es as [|[k c] es IHes]; constructor; [apply IH | exact IHes].
Qed.

Lemma assoc_set_same (k : str) (v : node) (es : list (str * node)) :
  assoc k (set_entry k v es) = Some v.
Proof.
  induction es as [|[k' v'] es IH]; simpl.
  - now rewrite str_eqb_refl.
  - destruct (str_eqb k k') eqn:E; simpl; [now rewrite str_eqb_refl | now rewrite E].
Qed.

Lemma assoc_set_other (k k' : str) (v : node) (es : list (str * node)) :
  k <> k' -> assoc k' (set_entry k v es) = assoc k' es.
Proof.
  intros Hne. induction es as [|[k2 v2] es IH]; simpl.
  - apply str_eqb_neq in Hne. destruct (str_eqb k' k) eqn:E; [|reflexivity].
    apply str_eqb_eq in E. apply str_eqb_neq in Hne. congruence.
  - destruct (str_eqb k k2) eqn:E; simpl.
    + apply str_eqb_eq in E. subst k2.
      destruct (str_eqb k' k) eqn:E'; [|reflexivity].
      apply str_eqb_eq in E'. congruence.
    + destruct (str_eqb k' k2); [reflexivity | exact IH].
Qed.

Lemma assoc_del_same (k : str) (es : list (str * node)) :
  assoc k (del_entry k es) = None.
Proof.
  unfold del_entry. induction es as [|[k' v'] es IH]; simpl; [reflexivity|].
  destruct (str_eqb k k') eqn:E; simpl; [exact IH | now rewrite E].
Qed.

Lemma assoc_in_names (k : str) (es : list (str * node)) :
  (exists v, assoc k es = Some v) <-> In k (names es).
Proof.
  induction es as [|[k' v'] es IH]; simpl.
  - split; [intros [v H]; discriminate | contradiction].
  - destruct (str_eqb k k') eqn:E.
    + apply str_eqb_eq in E. split; [now left | intros _; now exists v'].
    + apply str_eqb_neq in E. rewrite IH. split; [now right | intros [H | H]; congruence].
Qed.

Lemma names_set_entry (k : str) (v : node) (es : list (str * node)) :
  names (set_entry k v es) = if str_in k (names es) then names es else names es ++ [k].
Proof.
  unfold str_in. induction es as [|[k' v'] es IH]; simpl; [reflexivity|].
  destruct (str_eqb k k') eqn:E; simpl.
  - apply str_eqb_eq in E. now subst.
  - rewrite IH. now destruct (existsb (str_eqb k) (names es)).
Qed.

Lemma str_in_spec (k : str) (l : list str) : str_in k l = true <-> In k l.
Proof.
  unfold str_in. rewrite existsb_exists. split.
  - intros [x [Hin Hx]]. apply str_eqb_eq in Hx. now subst.
  - intros H. exists k. split; [assumption | apply str_eqb_refl].
Qed.

Lemma nodup_names_spec (l : list str) : nodup_names l = true <-> NoDup l.
Proof.
  induction l as [|x l IH]; simpl.
  - split; [constructor | reflexivity].
  - rewrite andb_true_iff, negb_true_iff, IH. split.
    + intros [H1 H2]. constructor; [|assumption].
      intros Hin. apply str_in_spec in Hin. congruence.
    + intros H. inversion H; subst. split; [|assumption].
      destruct (str_in x l) eqn:E; [|reflexivity]. apply str_in_spec in E. contradiction.
Qed.

Lemma lookup_app (p q : list str) (n : node) :
  lookup (p ++ q) n = match lookup p n with Some c => lookup q c | None => None end.
Proof.
  revert n. induction p as [|k p IH]; intros n; simpl; [reflexivity|].
  destruct n as [c | es]; [reflexivity|].
  destruct (assoc k es); [apply IH | reflexivity].
Qed.

Lemma lookup_put_same (p : list str) (v n n' : node) :
  put p v n = Some n' -> lookup p n' = Some v.
Proof.
  revert n n'. induction p as [|k p IH]; intros n n'; simpl.
  - congruence.
  - destruct n as [c | es]; [discriminate|].
    destruct p as [|k2 p].
    + intros [= <-]. simpl. now rewrite assoc_set_same.
    + destruct (assoc k es) as [c|]; [|discriminate].
      destruct (put (k2 :: p) v c) as [c'|] eqn:E; [|discriminate].
      intros [= <-]. cbn [lookup]. rewrite assoc_set_same. now apply IH with (n := c).
Qed.

(** Storing a node where no directory stood keeps every directory. *)
Lemma is_dir_put (p : list str) (v n n' : node) (q : list str) :
  put p v n = Some n' -> is_dir p n = false ->
  is_dir q n = true -> is_dir q n' = true.
Proof.
  unfold is_dir. revert n n' q. induction p as [|k p IH]; intros n n' q; simpl.
  - intros _ Hp Hq. destruct n as [c | es]; [|discriminate].
    destruct q; simpl in Hq; discriminate.
  - destruct n as [c | es]; [discriminate|].
    destruct p as [|k2 p].
    + intros [= <-] Hp Hq. destruct q as [|k' q]; [reflexivity|].
      cbn [lookup] in *.
      destruct (list_eq_dec ascii_dec k k') as [<- | Hne].
      * rewrite assoc_set_same. destruct (assoc k es) as [c|]; [|discriminate].
        destruct c; [|discriminate]. destruct q; simpl in Hq; discriminate.
      * now rewrite assoc_set_other.
    + destruct (assoc k es) as [c|] eqn:Ek; [|discriminate].
      destruct (put (k2 :: p) v c) as [c'|] eqn:E; [|discriminate].
      intros [= <-] Hp Hq. destruct q as [|k' q]; [reflexivity|].
      cbn [lookup] in *.
      destruct (list_eq_dec ascii_dec k k') as [<- | Hne].
      * rewrite assoc_set_same. rewrite Ek in Hq.
        now apply (IH c c' q).
      * now rewrite assoc_set_other.
Qed.

Lemma put_exists (p : list str) (v n : node) :
  lookup p n <> None -> exists n', put p v n = Some n'.
Proof.
  revert n. induction p as [|k p IH]; intros n; simpl.
  - intros _. now exists v.
  - destruct n as [c | es]; [congruence|].
    destruct (assoc k es) as [c|]; [|congruence].
    intros H. destruct p as [|k2 p]; [eexists; reflexivity|].
    destruct (IH c H) as [c' ->]. eexists; reflexivity.
Qed.

(** A new entry can be stored in an existing directory. *)
Lemma put_child (p : list str) (k : str) (v n : node) :
  is_dir p n = true -> exists n', put (p ++ [k]) v n = Some n'.
Proof.
  unfold is_dir. revert n. induction p as [|k' p IH]; intros n; simpl.
  - destruct n as [c | es]; [discriminate|]. intros _. eexists; reflexivity.
  - destruct n as [c | es]; [discriminate|].
    destruct (assoc k' es) as [c|]; [|discriminate].
    intros H. destruct (IH c H) as [c' Hc'].
    destruct (p ++ [k]) eqn:E; [destruct p; discriminate|].
    rewrite Hc'. eexists; reflexivity.
Qed.

Lemma remove_exists (p : list str) (n : node) :
  p <> [] -> lookup p n <> None ->
  exists n', remove p n = Some n' /\ lookup p n' = None.
Proof.
  revert n. induction p as [|k p IH]; intros n Hp; [congruence|]. cbn [lookup remove].
  destruct n as [c | es]; [congruence|].
  destruct (assoc k es) as [c|]; [|congruence].
  intros H. destruct p as [|k2 p].
  - eexists. split; [reflexivity|]. cbn [lookup]. now rewrite assoc_del_same.
  - destruct (IH c ltac:(discriminate) H) as [c' [-> Hc']].
    eexists. split; [reflexivity|]. cbn [lookup]. now rewrite assoc_set_same.
Qed.

(** *** Path strings *)

Lemma split_on_nonempty (sep : ascii) (s : str) : split_on sep s <> [].
Proof.
  destruct s as [|c s]; simpl; [discriminate|].
  destruct (Ascii.eqb c sep); [discriminate|].
  destruct (split_on sep s); discriminate.
Qed.

Lemma split_on_app (sep : ascii) (a b : str) :
  split_on sep (a ++ sep :: b) = split_on sep a ++ split_on sep b.
Proof.
  induction a as [|c a IH]; simpl.
  - now rewrite Ascii.eqb_refl.
  - destruct (Ascii.eqb c sep); [now rewrite IH|].
    rewrite IH. destruct (split_on sep a) eqn:E; [|reflexivity].
    now apply split_on_nonempty in E.
Qed.

Lemma split_on_plain (sep : ascii) (name : str) :
  existsb (Ascii.eqb sep) name = false -> split_on sep name = [name].
Proof.
  induction name as [|c name IH]; simpl; [reflexivity|].
  intros H. apply orb_false_iff in H as [Hc H].
  rewrite Ascii.eqb_sym, Hc. now rewrite IH.
Qed.

Lemma walk_path_app (root : node) (cur l1 l2 : list str) :
  walk_path root cur (l1 ++ l2)
  = match walk_path root cur l1 with
    | Some c => walk_path root c l2
    | None => None
    end.
Proof.
  revert cur. induction l1 as [|s l1 IH]; intros cur; simpl; [reflexivity|].
  destruct (is_dir cur root); [|reflexivity].
  destruct (str_eqb s [] || str_eqb s dot); [apply IH|].
  destruct (str_eqb s dotdot); apply IH.
Qed.

Lemma plain_name_spec (name : str) :
  plain_name name = true ->
  str_eqb name [] || str_eqb name dot = false /\ str_eqb name dotdot = false
  /\ existsb (Ascii.eqb slash) name = false.
Proof.
  unfold plain_name. rewrite !andb_true_iff, !negb_true_iff.
  intros [[[H1 H2] H3] H4]. now rewrite H1, H2, H3, H4.
Qed.

(** The path of an entry of a directory. *)
Lemma resolve_child (root : node) (cwd : list str) (dir name : str) (p : list str) :
  resolve root cwd dir = Some p -> is_dir p root = true -> plain_name name = true ->
  resolve root cwd (dir ++ slash :: name) = Some (p ++ [name]).
Proof.
  intros Hres Hdir Hname.
  apply plain_name_spec in Hname as (H1 & H2 & H3).
  unfold resolve in *. destruct dir as [|c dir]; [discriminate|].
  change ((c :: dir) ++ slash :: name) with (c :: (dir ++ slash :: name)).
  cbv iota. change (origin cwd (c :: dir ++ slash :: name)) with (origin cwd (c :: dir)).
  change (c :: (dir ++ slash :: name)) with ((c :: dir) ++ slash :: name).
  rewrite split_on_app, walk_path_app, Hres, split_on_plain by assumption.
  simpl. now rewrite Hdir, H1, H2.
Qed.

Lemma walk_path_mono (root root' : node) (cur segs p : list str) :
  (forall q, is_dir q root = true -> is_dir q root' = true) ->
  walk_path root cur segs = Some p -> walk_path root' cur segs = Some p.
Proof.
  intros Hmono. revert cur. induction segs as [|s segs IH]; intros cur; simpl; [trivial|].
  destruct (is_dir cur root) eqn:E; [|discriminate].
  rewrite (Hmono _ E).
  destruct (str_eqb s [] || str_eqb s dot); [apply IH|].
  destruct (str_eqb s dotdot); apply IH.
Qed.

Lemma resolve_mono (root root' : node) (cwd : list str) (path : str) (p : list str) :
  (forall q, is_dir q root = true -> is_dir q root' = true) ->
  resolve root cwd path = Some p -> resolve root' cwd path = Some p.
Proof.
  unfold resolve. destruct path; [discriminate|]. apply walk_path_mono.
Qed.

Lemma resolve_absolute (root : node) (cwd cwd' : list str) (path : str) :
  absolute path = true -> resolve root cwd path = resolve root cwd' path.
Proof.
  unfold resolve, absolute, origin. destruct path as [|c path]; [reflexivity|].
  now intros ->.
Qed.

(** *** Making directories *)

Lemma makedirs_from_mono (root root' : node) (cur segs : list str) :
  makedirs_from root cur segs = Some root' ->
  forall q, is_dir q root = true -> is_dir q root' = true.
Proof.
  revert root cur. induction segs as [|s segs IH]; intros root cur; simpl.
  - destruct (is_dir cur root); [|discriminate]. now intros [= <-].
  - destruct (is_dir cur root) eqn:Ecur; [|discriminate].
    destruct (str_eqb s [] || str_eqb s dot); [apply IH|].
    destruct (str_eqb s dotdot); [apply IH|].
    destruct (lookup (cur ++ [s]) root) eqn:El; [apply IH|].
    destruct (put (cur ++ [s]) (Dir []) root) as [root1|] eqn:Ep; [|discriminate].
    intros H q Hq. apply (IH _ _ H).
    apply (is_dir_put _ _ _ _ q Ep); [|exact Hq].
    unfold is_dir. now rewrite El.
Qed.

(** After [os.makedirs] every component of the path is a directory. *)
Lemma makedirs_from_dirs (root root' : node) (cur segs : list str) :
  makedirs_from root cur segs = Some root' -> dirs_along root' cur segs = true.
Proof.
  revert root cur. induction segs as [|s segs IH]; intros root cur; simpl.
  - destruct (is_dir cur root) eqn:E; [|discriminate]. now intros [= <-].
  - destruct (is_dir cur root) eqn:Ecur; [|discriminate].
    intros H.
    assert (Hcur : is_dir cur root' = true).
    { destruct (str_eqb s [] || str_eqb s dot);
        [exact (makedirs_from_mono _ _ _ _ H _ Ecur)|].
      destruct (str_eqb s dotdot); [exact (makedirs_from_mono _ _ _ _ H _ Ecur)|].
      destruct (lookup (cur ++ [s]) root) eqn:El;
        [exact (makedirs_from_mono _ _ _ _ H _ Ecur)|].
      destruct (put (cur ++ [s]) (Dir []) root) as [root1|] eqn:Ep; [|discriminate].
      apply (makedirs_from_mono _ _ _ _ H).
      apply (is_dir_put _ _ _ _ cur Ep); [|exact Ecur].
      unfold is_dir. now rewrite El. }
    rewrite Hcur. simpl.
    destruct (str_eqb s [] || str_eqb s dot); [now apply IH with (root := root)|].
    destruct (str_eqb s dotdot); [now apply IH with (root := root)|].
    destruct (lookup (cur ++ [s]) root) eqn:El; [now apply IH with (root := root)|].
    destruct (put (cur ++ [s]) (Dir []) root) as [root1|] eqn:Ep; [|discriminate].
    now apply IH with (root := root1).
Qed.

(** Along existing directories [os.makedirs] changes nothing. *)
Lemma makedirs_from_existing (root : node) (cur segs : list str) :
  dirs_along root cur segs = true -> makedirs_from root cur segs = Some root.
Proof.
  revert cur. induction segs as [|s segs IH]; intros cur; simpl.
  - now intros ->.
  - destruct (is_dir cur root); [|discriminate]. simpl.
    destruct (str_eqb s [] || str_eqb s dot); [apply IH|].
    destruct (str_eqb s dotdot); [apply IH|].
    intros H. destruct (lookup (cur ++ [s]) root) eqn:El; [now apply IH|].
    exfalso. clear IH. destruct segs as [|s' segs]; simpl in H.
    + unfold is_dir in H. now rewrite El in H.
    + unfold is_dir in H. now rewrite El in H.
Qed.

Lemma dirs_along_mono (root root' : node) (cur segs : list str) :
  (forall q, is_dir q root = true -> is_dir q root' = true) ->
  dirs_along root cur segs = true -> dirs_along root' cur segs = true.
Proof.
  intros Hmono. revert cur. induction segs as [|s segs IH]; intros cur; simpl.
  - apply Hmono.
  - destruct (is_dir cur root) eqn:E; [|discriminate]. rewrite (Hmono _ E). simpl.
    destruct (str_eqb s [] || str_eqb s dot); [apply IH|].
    destruct (str_eqb s dotdot); apply IH.
Qed.

Lemma dirs_along_walk (root : node) (cur segs : list str) :
  dirs_along root cur segs = true ->
  exists p, walk_path root cur segs = Some p /\ is_dir p root = true.
Proof.
  revert cur. induction segs as [|s segs IH]; intros cur; simpl.
  - intros H. now exists cur.
  - destruct (is_dir cur root); [|discriminate]. simpl.
    destruct (str_eqb s [] || str_eqb s dot); [apply IH|].
    destruct (str_eqb s dotdot); apply IH.
Qed.

(** *** Well-formed trees *)

Lemma well_formed_dir (es : list (str * node)) :
  well_formed (Dir es)
  = nodup_names (names es) && forallb (fun e => well_formed (snd e)) es.
Proof.
  cbn [well_formed]. f_equal.
  induction es as [|[k c] es IH]; [reflexivity|]. cbn [forallb snd]. now rewrite IH.
Qed.

Lemma assoc_in (k : str) (c : node) (es : list (str * node)) :
  assoc k es = Some c -> In (k, c) es.
Proof.
  induction es as [|[k' v'] es IH]; simpl; [discriminate|].
  destruct (str_eqb k k') eqn:E.
  - apply str_eqb_eq in E. intros [= ->]. left. now subst.
  - intros H. right. now apply IH.
Qed.

Lemma well_formed_lookup (p : list str) (n c : node) :
  well_formed n = true -> lookup p n = Some c -> well_formed c = true.
Proof.
  revert n. induction p as [|k p IH]; intros n Hwf; simpl.
  - now intros [= <-].
  - destruct n as [x | es]; [discriminate|].
    destruct (assoc k es) as [c'|] eqn:E; [|discriminate].
    apply IH. rewrite well_formed_dir in Hwf. apply andb_true_iff in Hwf as [_ Hall].
    rewrite forallb_forall in Hall. exact (Hall _ (assoc_in _ _ _ E)).
Qed.

Lemma well_formed_set_entry (k : str) (v : node) (es : list (str * node)) :
  well_formed (Dir es) = true -> well_formed v = true ->
  well_formed (Dir (set_entry k v es)) = true.
Proof.
  rewrite !well_formed_dir, !andb_true_iff, !nodup_names_spec.
  intros [Hnd Hall] Hv. split.
  - rewrite names_set_entry. destruct (str_in k (names es)) eqn:E; [assumption|].
    apply NoDup_app; [assumption | repeat constructor; intros [] | ].
    intros x Hx [<- | []]. apply str_in_spec in Hx. congruence.
  - clear Hnd. induction es as [|[k' v'] es IH]; simpl.
    + now rewrite Hv.
    + simpl in Hall. apply andb_true_iff in Hall as [H1 H2].
      destruct (str_eqb k k'); simpl.
      * now rewrite Hv, H2.
      * now rewrite H1, IH.
Qed.

Lemma well_formed_put (p : list str) (v n n' : node) :
  well_formed n = true -> well_formed v = true ->
  put p v n = Some n' -> well_formed n' = true.
Proof.
  revert n n'. induction p as [|k p IH]; intros n n' Hn Hv; simpl.
  - now intros [= <-].
  - destruct n as [c | es]; [discriminate|].
    destruct p as [|k2 p].
    + intros [= <-]. now apply well_formed_set_entry.
    + destruct (assoc k es) as [c|] eqn:E; [|discriminate].
      destruct (put (k2 :: p) v c) as [c'|] eqn:Ep; [|discriminate].
      intros [= <-]. apply well_formed_set_entry; [assumption|].
      apply (IH c c'); [|assumption|assumption].
      apply (well_formed_lookup [k] (Dir es) c Hn). simpl. now rewrite E.
Qed.

Lemma well_formed_makedirs (root root' : node) (cur segs : list str) :
  well_formed root = true ->
  makedirs_from root cur segs = Some root' -> well_formed root' = true.
Proof.
  revert root cur. induction segs as [|s segs IH]; intros root cur Hwf; simpl.
  - destruct (is_dir cur root); [|discriminate]. now intros [= <-].
  - destruct (is_dir cur root); [|discriminate].
    destruct (str_eqb s [] || str_eqb s dot); [now apply IH|].
    destruct (str_eqb s dotdot); [now apply IH|].
    destruct (lookup (cur ++ [s]) root); [now apply IH|].
    destruct (put (cur ++ [s]) (Dir []) root) as [root1|] eqn:Ep; [|discriminate].
    apply IH. now apply (well_formed_put _ _ _ _ Hwf (eq_refl : well_formed (Dir []) = true) Ep).
Qed.

Lemma repodir_absolute (args : arguments) (sourcedir : str) :
  absolute sourcedir = true -> absolute (repodir args sourcedir) = true.
Proof. unfold repodir. destruct sourcedir; [discriminate | trivial]. Qed.

Lemma repodir_names_package (args : arguments) (sourcedir : str) :
  occurs (slash :: package args) (repodir args sourcedir).
Proof. exists sourcedir, []. unfold repodir. now rewrite app_nil_r. Qed.

(** ** Statements of the script, one at a time *)

Lemma bind_continue {A B} (m : M A) (k : A -> M B) (st st' : state) (b : B) :
  bind m k st = Continue b st' ->
  exists a st1, m st = Continue a st1 /\ k a st1 = Continue b st'.
Proof.
  unfold bind. destruct (m st) as [a st1 | | |]; try discriminate.
  intros H. now exists a, st1.
Qed.

Lemma bind_step {A B} (m : M A) (k : A -> M B) (st st1 : state) (a : A) :
  m st = Continue a st1 -> bind m k st = k a st1.
Proof. unfold bind. now intros ->. Qed.

Lemma bind_assoc {A B C} (m : M A) (k : A -> M B) (h : B -> M C) (st : state) :
  bind (bind m k) h st = bind m (fun a => bind (k a) h) st.
Proof. unfold bind. now destruct (m st). Qed.

Ltac bind_inv H :=
  let a := fresh "a" in
  let st := fresh "st" in
  let H1 := fresh H in
  apply bind_continue in H; destruct H as (a & st & H1 & H).

Lemma os_path_exists_eq (path : str) (st : state) :
  os_path_exists path st
  = Continue (match stat (fs st) (cwd st) path with Some _ => true | None => false end) st.
Proof. reflexivity. Qed.

Lemma os_makedirs_continue (path : str) (st st' : state) (u : unit) :
  os_makedirs path st = Continue u st' ->
  path <> [] /\
  exists root',
    makedirs_from (fs st) (origin (cwd st) path) (split_on slash path) = Some root'
    /\ st' = with_fs root' st.
Proof.
  unfold os_makedirs. destruct path as [|c path]; [discriminate|].
  destruct (makedirs_from _ _ _) as [root'|]; [|discriminate].
  intros [= <-]. split; [discriminate | now exists root'].
Qed.

Lemma write_file_continue (path content : str) (st st' : state) (u : unit) :
  write_file path content st = Continue u st' ->
  exists p root',
    resolve (fs st) (cwd st) path = Some p
    /\ is_dir p (fs st) = false
    /\ put p (File content) (fs st) = Some root'
    /\ st' = record (Wrote p) (with_fs root' st).
Proof.
  unfold write_file.
  destruct (resolve _ _ _) as [p|] eqn:Er; [|discriminate].
  intros H. exists p.
  destruct (lookup p (fs st)) as [[c | es]|] eqn:E;
    try discriminate;
    (destruct (put p (File content) (fs st)) as [root'|] eqn:Ep; [|discriminate]);
    injection H as <-; exists root'; unfold is_dir; rewrite E; auto.
Qed.

(** A second write to the same path string reaches the same file. *)
Lemma write_file_again (path content content' : str) (st st' : state) :
  write_file path content st = Continue tt st' ->
  exists p root' root'',
    resolve (fs st) (cwd st) path = Some p
    /\ put p (File content) (fs st) = Some root'
    /\ st' = record (Wrote p) (with_fs root' st)
    /\ put p (File content') root' = Some root''
    /\ write_file path content' st' = Continue tt (record (Wrote p) (with_fs root'' st')).
Proof.
  intros H. apply write_file_continue in H as (p & root' & Hres & Hnd & Hput & ->).
  assert (Hl : lookup p root' = Some (File content)) by exact (lookup_put_same _ _ _ _ Hput).
  destruct (put_exists p (File content') root') as [root'' Hput']; [congruence|].
  exists p, root', root''. repeat split; try assumption.
  unfold write_file. cbn [fs cwd record with_fs].
  rewrite (resolve_mono (fs st) root' (cwd st) path p); [| | assumption].
  - now rewrite Hl, Hput'.
  - intros q. now apply (is_dir_put p (File content) (fs st) root').
Qed.

(** ** Directory creation *)

(** C9. Directory creation is idempotent: after a first [make_package_dir]
    on a path, a second one on the same path raises nothing and leaves the
    state as it is, and the directory lists [.gitkeep] exactly once. *)
Theorem make_package_dir_idempotent (dirname : str) (st st1 : state) :
  well_formed (fs st) = true ->
  make_package_dir dirname st = Continue tt st1 ->
  make_package_dir dirname st1 = Continue tt st1
  /\ exists p es,
       resolve (fs st1) (cwd st1) dirname = Some p
       /\ lookup p (fs st1) = Some (Dir es)
       /\ count_occ (list_eq_dec ascii_dec) (names es) gitkeep = 1.
Proof.
  intros Hwf H. unfold make_package_dir in H.
  bind_inv H. destruct a.
  apply os_makedirs_continue in H0 as (Hne & root1 & Hmk & ->).
  rewrite (bind_step _ _ _ _ _ (os_path_exists_eq _ _)) in H.
  cbn [fs cwd with_fs] in H.
  assert (Hdirs := makedirs_from_dirs _ _ _ _ Hmk).
  destruct (dirs_along_walk _ _ _ Hdirs) as (p & Hwalk & Hp).
  assert (Hres : resolve root1 (cwd st) dirname = Some p).
  { unfold resolve. destruct dirname; [congruence | exact Hwalk]. }
  assert (Hkeep : resolve root1 (cwd st) (dirname ++ lit "/.gitkeep") = Some (p ++ [gitkeep])).
  { exact (resolve_child root1 (cwd st) dirname gitkeep p Hres Hp eq_refl). }
  assert (Hwf1 : well_formed root1 = true) by exact (well_formed_makedirs _ _ _ _ Hwf Hmk).
  (* the state reached, the tree it holds and the marker in it *)
  assert (Hfinal : exists root2,
             st1 = (if match lookup (p ++ [gitkeep]) root1 with Some _ => true | None => false end
                    then with_fs root1 st
                    else record (Wrote (p ++ [gitkeep])) (with_fs root2 (with_fs root1 st)))
             /\ fs st1 = root2 /\ cwd st1 = cwd st
             /\ well_formed root2 = true
             /\ (forall q, is_dir q root1 = true -> is_dir q root2 = true)
             /\ lookup (p ++ [gitkeep]) root2 <> None).
  { unfold stat in H. rewrite Hkeep in H.
    destruct (lookup (p ++ [gitkeep]) root1) as [x|] eqn:El; cbn [negb] in H.
    - injection H as <-. exists root1. repeat split; try assumption; try reflexivity.
      + trivial.
      + congruence.
    - apply write_file_continue in H as (q & root2 & Hq & Hnd & Hput & ->).
      cbn [fs cwd with_fs] in Hq, Hnd, Hput. rewrite Hkeep in Hq. injection Hq as <-.
      exists root2. repeat split; try reflexivity.
      + exact (well_formed_put _ (File []) _ _ Hwf1 eq_refl Hput).
      + intros q. now apply (is_dir_put _ _ _ _ q Hput).
      + rewrite (lookup_put_same _ _ _ _ Hput). discriminate. }
  destruct Hfinal as (root2 & Hst1 & Hfs & Hcwd & Hwf2 & Hmono & Hmark).
  assert (Hres2 : resolve root2 (cwd st) dirname = Some p)
    by exact (resolve_mono _ _ _ _ _ Hmono Hres).
  assert (Hp2 : is_dir p root2 = true) by exact (Hmono _ Hp).
  split.
  - unfold make_package_dir.
    assert (Hmk2 : os_makedirs dirname st1 = Continue tt st1).
    { unfold os_makedirs. destruct dirname as [|c dirname]; [congruence|].
      rewrite Hfs, Hcwd.
      rewrite (makedirs_from_existing root2 _ _ (dirs_along_mono _ _ _ _ Hmono Hdirs)).
      f_equal. rewrite <- Hfs. destruct st1; reflexivity. }
    rewrite (bind_step _ _ _ _ _ Hmk2).
    unfold bind, os_path_exists, stat. rewrite Hfs, Hcwd.
    assert (Hkeep2 : resolve root2 (cwd st) (dirname ++ lit "/.gitkeep")
                     = Some (p ++ [gitkeep]))
      by exact (resolve_child root2 (cwd st) dirname gitkeep p Hres2 Hp2 eq_refl).
    rewrite Hkeep2.
    destruct (lookup (p ++ [gitkeep]) root2); [reflexivity | congruence].
  - unfold is_dir in Hp2. destruct (lookup p root2) as [[c | es]|] eqn:El; try discriminate.
    exists p, es. rewrite Hfs, Hcwd. repeat split; try assumption.
    apply NoDup_count_occ'.
    + apply nodup_names_spec.
      assert (Hd := well_formed_lookup p root2 (Dir es) Hwf2 El).
      rewrite well_formed_dir in Hd. now apply andb_true_iff in Hd as [Hd _].
    + apply assoc_in_names. rewrite lookup_app, El in Hmark. cbn [lookup] in Hmark.
      destruct (assoc gitkeep es) as [v|]; [now exists v | congruence].
Qed.

Lemma walk_dirs_along (root : node) (cur segs p : list str) :
  walk_path root cur segs = Some p -> is_dir p root = true ->
  dirs_along root cur segs = true.
Proof.
  revert cur. induction segs as [|s segs IH]; intros cur; simpl.
  - now intros [= ->].
  - destruct (is_dir cur root); [|discriminate]. simpl.
    destruct (str_eqb s [] || str_eqb s dot); [apply IH|].
    destruct (str_eqb s dotdot); apply IH.
Qed.

Lemma dirs_along_start (root : node) (cur segs : list str) :
  dirs_along root cur segs = true -> is_dir cur root = true.
Proof.
  destruct segs; simpl; [trivial|]. now destruct (is_dir cur root).
Qed.

Lemma makedirs_from_app (root : node) (cur l1 l2 p : list str) :
  dirs_along root cur l1 = true -> walk_path root cur l1 = Some p ->
  makedirs_from root cur (l1 ++ l2) = makedirs_from root p l2.
Proof.
  revert cur. induction l1 as [|s l1 IH]; intros cur; simpl.
  - now intros _ [= ->].
  - destruct (is_dir cur root); [|discriminate]. simpl.
    destruct (str_eqb s [] || str_eqb s dot); [apply IH|].
    destruct (str_eqb s dotdot); [apply IH|].
    intros Hd Hw. assert (Hs := dirs_along_start _ _ _ Hd). unfold is_dir in Hs.
    destruct (lookup (cur ++ [s]) root); [now apply IH | discriminate].
Qed.

(** In an existing directory, [make_package_dir] completes for a plain name
    that is free or names a directory. *)
Lemma make_package_dir_completes (parent name : str) (st : state) (p : list str) :
  resolve (fs st) (cwd st) parent = Some p ->
  is_dir p (fs st) = true ->
  plain_name name = true ->
  lookup (p ++ [name]) (fs st) = None \/ is_dir (p ++ [name]) (fs st) = true ->
  exists st1, make_package_dir (parent ++ slash :: name) st = Continue tt st1.
Proof.
  intros Hres Hp Hname Hchild.
  assert (Hmk : exists root1,
             makedirs_from (fs st) p [name] = Some root1
             /\ is_dir (p ++ [name]) root1 = true
             /\ (forall q, is_dir q (fs st) = true -> is_dir q root1 = true)).
  { destruct (plain_name_spec name Hname) as (H1 & H2 & _).
    cbn [makedirs_from]. rewrite Hp, H1, H2.
    destruct Hchild as [Hnone | Hdir].
    - rewrite Hnone. destruct (put_child p name (Dir []) (fs st) Hp) as [root1 Hput].
      rewrite Hput.
      assert (Hd : is_dir (p ++ [name]) root1 = true).
      { unfold is_dir. now rewrite (lookup_put_same _ _ _ _ Hput). }
      rewrite Hd. exists root1. repeat split; try assumption.
      intros q. apply (is_dir_put _ _ _ _ q Hput). unfold is_dir. now rewrite Hnone.
    - assert (Hd := Hdir). unfold is_dir in Hd.
      destruct (lookup (p ++ [name]) (fs st)); [|discriminate].
      rewrite Hdir. exists (fs st). auto. }
  destruct Hmk as (root1 & Hmk & Hdir1 & Hmono).
  assert (Hne : parent <> []) by (intros ->; discriminate).
  destruct parent as [|c parent]; [congruence|].
  assert (Hmakedirs : os_makedirs ((c :: parent) ++ slash :: name) st
                      = Continue tt (with_fs root1 st)).
  { unfold os_makedirs.
    change ((c :: parent) ++ slash :: name) with (c :: (parent ++ slash :: name)).
    cbv iota. change (origin (cwd st) (c :: parent ++ slash :: name))
      with (origin (cwd st) (c :: parent)).
    change (c :: (parent ++ slash :: name)) with ((c :: parent) ++ slash :: name).
    destruct (plain_name_spec name Hname) as (_ & _ & H3).
    rewrite split_on_app, (split_on_plain slash name H3).
    unfold resolve in Hres.
    rewrite (makedirs_from_app _ _ _ [name] p (walk_dirs_along _ _ _ _ Hres Hp) Hres).
    now rewrite Hmk. }
  unfold make_package_dir. rewrite (bind_step _ _ _ _ _ Hmakedirs).
  rewrite (bind_step _ _ _ _ _ (os_path_exists_eq _ _)). cbn [fs cwd with_fs].
  assert (Hres1 : resolve root1 (cwd st) ((c :: parent) ++ slash :: name)
                  = Some (p ++ [name])).
  { apply resolve_child; [|now apply Hmono | assumption].
    exact (resolve_mono _ _ _ _ _ Hmono Hres). }
  assert (Hkeep : resolve root1 (cwd st) (((c :: parent) ++ slash :: name) ++ lit "/.gitkeep")
                  = Some ((p ++ [name]) ++ [gitkeep]))
    by exact (resolve_child root1 (cwd st) _ gitkeep _ Hres1 Hdir1 eq_refl).
  unfold stat. rewrite Hkeep.
  destruct (lookup ((p ++ [name]) ++ [gitkeep]) root1) eqn:El; cbn [negb].
  - eexists. reflexivity.
  - destruct (put_child (p ++ [name]) gitkeep (File []) root1 Hdir1) as [root2 Hput].
    eexists. unfold write_file. cbn [fs cwd with_fs]. now rewrite Hkeep, El, Hput.
Qed.

(** ** The sweep of the placeholder markers *)

Lemma sweep_entries_spec (walk : node -> option node) (u : bool)
      (es es' : list (str * node)) :
  sweep_entries walk u es = Some es' ->
  names es' = filter (fun k => negb (u && str_eqb k gitkeep)) (names es)
  /\ (forall k,
        assoc k es' =
        if u && str_eqb k gitkeep then None
        else match assoc k es with Some c => walk c | None => None end)
  /\ (forall k c, assoc k es = Some c -> u && str_eqb k gitkeep = false ->
                  walk c <> None).
Proof.
  revert es'. induction es as [|[k0 c0] es IH]; intros es'; cbn [sweep_entries].
  - intros [= <-]. repeat split; try reflexivity.
    + intros k. now destruct (u && str_eqb k gitkeep).
    + intros k c H. discriminate.
  - destruct (u && str_eqb k0 gitkeep) eqn:E0.
    + intros H. destruct (IH _ H) as (Hn & Ha & Hw). repeat split.
      * cbn [names map fst filter]. rewrite E0. exact Hn.
      * intros k. rewrite Ha. destruct (u && str_eqb k gitkeep) eqn:Ek; [reflexivity|].
        cbn [assoc]. destruct (str_eqb k k0) eqn:Ekk; [|reflexivity].
        apply str_eqb_eq in Ekk. congruence.
      * intros k c. cbn [assoc]. destruct (str_eqb k k0) eqn:Ekk.
        -- apply str_eqb_eq in Ekk. congruence.
        -- apply Hw.
    + destruct (walk c0) as [c'|] eqn:Ew; [|discriminate].
      destruct (sweep_entries walk u es) as [l''|] eqn:Er; [|discriminate].
      intros [= <-]. destruct (IH _ eq_refl) as (Hn & Ha & Hw). repeat split.
      * cbn [names map fst filter]. rewrite E0. cbn [negb]. f_equal. exact Hn.
      * intros k. cbn [assoc]. destruct (str_eqb k k0) eqn:Ekk.
        -- apply str_eqb_eq in Ekk. subst k0. now rewrite E0.
        -- apply Ha.
      * intros k c. cbn [assoc]. destruct (str_eqb k k0) eqn:Ekk.
        -- intros [= <-] _. congruence.
        -- apply Hw.
Qed.

Lemma sweep_node_dir (es : list (str * node)) (n' : node) :
  sweep_node (Dir es) = Some n' ->
  exists es',
    n' = Dir es'
    /\ sweep_entries sweep_node (unlinks_marker es) es = Some es'
    /\ (unlinks_marker es = true -> is_dir [gitkeep] (Dir es) = false).
Proof.
  cbn [sweep_node]. unfold is_dir. cbn [lookup].
  destruct (unlinks_marker es) eqn:Eu.
  - destruct (assoc gitkeep es) as [[c | d]|] eqn:Ea; try discriminate;
      (destruct (sweep_entries sweep_node true es) as [es'|]; [|discriminate]);
      intros [= <-]; exists es'; auto.
  - destruct (sweep_entries sweep_node false es) as [es'|]; [|discriminate].
    intros [= <-]. exists es'. repeat split. discriminate.
Qed.

Lemma filter_all {A} (f : A -> bool) (l : list A) :
  (forall x, f x = true) -> filter f l = l.
Proof.
  intros H. induction l as [|x l IH]; simpl; [reflexivity|]. now rewrite H, IH.
Qed.

(** The listing of a swept directory. *)
Lemma sweep_listing (es es' : list (str * node)) :
  sweep_entries sweep_node (unlinks_marker es) es = Some es' ->
  (names es' <> [gitkeep] -> ~ In gitkeep (names es'))
  /\ (names es = [gitkeep] -> names es' = [gitkeep])
  /\ (names es <> [gitkeep] -> ~ In gitkeep (names es')).
Proof.
  intros H. apply sweep_entries_spec in H as (Hn & _ & _).
  destruct (unlinks_marker es) eqn:Eu.
  - assert (Hnone : ~ In gitkeep (names es')).
    { intros Hin. rewrite Hn in Hin. apply filter_In in Hin as [_ Hin].
      now rewrite str_eqb_refl in Hin. }
    split; [auto|]. split; [|auto].
    intros Hes. unfold unlinks_marker in Eu. rewrite Hes in Eu.
    assert (E : strs_eqb [gitkeep] [gitkeep] = true) by now apply strs_eqb_eq.
    now rewrite E in Eu.
  - rewrite filter_all in Hn by reflexivity. rewrite Hn.
    assert (Hnone : names es <> [gitkeep] -> ~ In gitkeep (names es)).
    { intros Hne Hin. unfold unlinks_marker in Eu.
      apply andb_false_iff in Eu as [Eu | Eu].
      - apply negb_false_iff, strs_eqb_eq in Eu. contradiction.
      - apply assoc_in_names in Hin as [v Hv]. now rewrite Hv in Eu. }
    auto.
Qed.

Lemma sweep_lookup (q : list str) (n n' : node) :
  sweep_node n = Some n' ->
  (forall es', lookup q n' = Some (Dir es') ->
     (names es' <> [gitkeep] -> ~ In gitkeep (names es'))
     /\ exists es, lookup q n = Some (Dir es)
                   /\ (names es = [gitkeep] -> names es' = [gitkeep])
                   /\ (names es <> [gitkeep] -> ~ In gitkeep (names es')))
  /\ (forall es, lookup q n = Some (Dir es) -> exists es', lookup q n' = Some (Dir es')).
Proof.
  revert n n'. induction q as [|k q IH]; intros n n' H.
  - destruct n as [c | es].
    + injection H as <-. split; intros ? ?; discriminate.
    + apply sweep_node_dir in H as (es' & -> & H & _). cbn [lookup]. split.
      * intros ? [= <-]. destruct (sweep_listing _ _ H) as (H1 & H2 & H3).
        split; [assumption|]. now exists es.
      * intros ? _. now exists es'.
  - destruct n as [c | es].
    + injection H as <-. split; intros ? ?; discriminate.
    + apply sweep_node_dir in H as (es' & -> & H & Hfile). cbn [lookup].
      apply sweep_entries_spec in H as (_ & Ha & Hw).
      rewrite (Ha k). destruct (unlinks_marker es && str_eqb k gitkeep) eqn:E.
      * split; [intros ? ?; discriminate|].
        apply andb_true_iff in E as [Eu Ek]. apply str_eqb_eq in Ek. subst k.
        specialize (Hfile Eu). unfold is_dir in Hfile. cbn [lookup] in Hfile.
        intros es0. destruct (assoc gitkeep es) as [[c | d]|]; try discriminate.
        destruct q; discriminate.
      * destruct (assoc k es) as [c|] eqn:Ec; [|split; intros ? ?; discriminate].
        destruct (sweep_node c) as [c'|] eqn:Es.
        -- exact (IH c c' Es).
        -- exfalso. exact (Hw k c Ec E Es).
Qed.

Lemma no_marker_directory_dir (es : list (str * node)) :
  no_marker_directory (Dir es)
  = negb (unlinks_marker es && is_dir [gitkeep] (Dir es))
    && forallb (fun e => no_marker_directory (snd e)) es.
Proof.
  cbn [no_marker_directory]. f_equal.
  induction es as [|[k c] es IH]; [reflexivity|]. cbn [forallb snd]. now rewrite IH.
Qed.

Lemma sweep_node_total (n : node) :
  no_marker_directory n = true -> exists n', sweep_node n = Some n'.
Proof.
  induction n as [c | es IH] using node_induction; intros H.
  - now exists (File c).
  - rewrite no_marker_directory_dir in H. apply andb_true_iff in H as [Hm Hall].
    apply negb_true_iff in Hm.
    assert (Hentries : forall u, exists es', sweep_entries sweep_node u es = Some es').
    { intros u. clear Hm. induction es as [|[k c] es IHes]; [now exists []|].
      cbn [forallb snd] in Hall. apply andb_true_iff in Hall as [Hc Hall].
      inversion IH as [|? ? Hhead Htail]; subst.
      destruct (IHes Htail Hall) as [l' Hl'].
      cbn [sweep_entries]. destruct (u && str_eqb k gitkeep); [now exists l'|].
      destruct (Hhead Hc) as [c' Hc']. cbn [snd] in Hc'. rewrite Hc', Hl'.
      now eexists. }
    destruct (Hentries (unlinks_marker es)) as [es' Hes'].
    exists (Dir es'). cbn [sweep_node]. rewrite Hes'.
    unfold is_dir in Hm. cbn [lookup] in Hm.
    destruct (unlinks_marker es); [|reflexivity].
    destruct (assoc gitkeep es) as [[c | d]|]; try reflexivity. discriminate.
Qed.

Lemma sweep_node_markers (n : node) :
  no_marker_directory n = true ->
  exists n',
    sweep_node n = Some n'
    /\ (forall q es', lookup q n' = Some (Dir es') ->
          (names es' <> [gitkeep] -> ~ In gitkeep (names es'))
          /\ exists es, lookup q n = Some (Dir es)
                        /\ (names es = [gitkeep] -> names es' = [gitkeep])
                        /\ (names es <> [gitkeep] -> ~ In gitkeep (names es')))
    /\ (forall q es, lookup q n = Some (Dir es) ->
          exists es', lookup q n' = Some (Dir es')).
Proof.
  intros H. destruct (sweep_node_total n H) as [n' Hn'].
  exists n'. split; [assumption|]. split.
  - intros q. exact (proj1 (sweep_lookup q n n' Hn')).
  - intros q. exact (proj2 (sweep_lookup q n n' Hn')).
Qed.

(** C7. With the repository directory in place below an absolute source
    directory, and no directory named [.gitkeep] standing next to other
    entries in it, the sweep completes and puts a swept tree in the place
    of the repository tree.  In the swept tree every directory whose
    listing is not exactly [[".gitkeep"]], before or after the sweep, lists
    no [.gitkeep], and every directory that held nothing but [.gitkeep]
    still lists exactly that name; its directories are those of the tree
    before the sweep. *)
Theorem sweep_leaves_markers_in_empty_directories_only
        (args : arguments) (sourcedir : str) (st : state)
        (p : list str) (es0 : list (str * node)) :
  absolute sourcedir = true ->
  resolve (fs st) (cwd st) (repodir args sourcedir) = Some p ->
  lookup p (fs st) = Some (Dir es0) ->
  no_marker_directory (Dir es0) = true ->
  exists n' root',
    sweep_node (Dir es0) = Some n'
    /\ put p n' (fs st) = Some root'
    /\ sweep args sourcedir st = Continue tt (with_fs root' (with_cwd p st))
    /\ lookup p root' = Some n'
    /\ (forall q es', lookup q n' = Some (Dir es') ->
          (names es' <> [gitkeep] -> ~ In gitkeep (names es'))
          /\ exists es, lookup q (Dir es0) = Some (Dir es)
                        /\ (names es = [gitkeep] -> names es' = [gitkeep])
                        /\ (names es <> [gitkeep] -> ~ In gitkeep (names es')))
    /\ (forall q es, lookup q (Dir es0) = Some (Dir es) ->
          exists es', lookup q n' = Some (Dir es')).
Proof.
  intros Habs Hres Hl Hok.
  destruct (sweep_node_markers (Dir es0) Hok) as (n' & Hsweep & H1 & H2).
  destruct (put_exists p n' (fs st)) as [root' Hput]; [congruence|].
  exists n', root'.
  split; [exact Hsweep|]. split; [exact Hput|]. split; [|split; [|split]].
  - unfold sweep.
    assert (Hchdir : os_chdir (repodir args sourcedir) st = Continue tt (with_cwd p st)).
    { unfold os_chdir, is_dir. now rewrite Hres, Hl. }
    rewrite (bind_step _ _ _ _ _ Hchdir). unfold sweep_gitkeep.
    cbn [fs cwd with_cwd].
    rewrite (resolve_absolute (fs st) p (cwd st) _ (repodir_absolute args sourcedir Habs)).
    now rewrite Hres, Hl, Hsweep, Hput.
  - exact (lookup_put_same _ _ _ _ Hput).
  - exact H1.
  - exact H2.
Qed.

(** ** Cleanup *)

Lemma match_here_literal (t s : str) :
  match_here (map (fun c => Item (Ascii.eqb c) One) t) s = starts_with t s.
Proof.
  revert s. induction t as [|c t IH]; intros s; simpl; [reflexivity|].
  destruct s as [|x s]; [reflexivity|]. now rewrite IH.
Qed.

(** The search of f"/{package}" is a search for the text. *)
Lemma re_search_cleanup_re (package s : str) :
  re_search (cleanup_re package) s = contains (slash :: package) s.
Proof.
  unfold re_search, cleanup_re. cbn [anchored items].
  induction s as [|x s IH]; cbn [match_anywhere contains].
  - now rewrite match_here_literal.
  - now rewrite match_here_literal, IH.
Qed.

Lemma cleanup_deletes (args : arguments) (repodir : str) (st : state)
      (p : list str) (es : list (str * node)) :
  resolve (fs st) (cwd st) repodir = Some p -> p <> [] ->
  lookup p (fs st) = Some (Dir es) ->
  occurs (slash :: package args) repodir ->
  exists root',
    remove p (fs st) = Some root' /\ lookup p root' = None
    /\ cleanup args repodir st = Continue tt (record (Removed p) (with_fs root' st)).
Proof.
  intros Hres Hp Hl Hocc.
  destruct (remove_exists p (fs st) Hp) as (root' & Hrm & Hgone); [congruence|].
  exists root'. repeat split; try assumption.
  unfold cleanup. rewrite (bind_step _ _ _ _ _ (os_path_exists_eq _ _)).
  unfold stat. rewrite Hres, Hl.
  rewrite re_search_cleanup_re. apply contains_spec in Hocc. rewrite Hocc.
  unfold shutil_rmtree, is_dir. now rewrite Hres, Hl, Hrm.
Qed.


(** ** The check after the clone *)

Lemma insert_sorted_perm (x : str) (l : list str) :
  Permutation (insert_sorted x l) (x :: l).
Proof.
  induction l as [|y l IH]; simpl; [reflexivity|].
  destruct (str_leb x y); [reflexivity|].
  rewrite IH. apply perm_swap.
Qed.

Lemma sorted_perm (l : list str) : Permutation (sorted l) l.
Proof.
  induction l as [|x l IH]; simpl; [reflexivity|].
  rewrite insert_sorted_perm. now constructor.
Qed.

(** Sorting gives a two-element list exactly for its two arrangements. *)
Lemma sorted_pair (a b : str) (l : list str) :
  sorted [a; b] = [a; b] -> sorted [b; a] = [a; b] ->
  strs_eqb (sorted l) [a; b] = true <-> Permutation l [a; b].
Proof.
  intros Hab Hba. rewrite strs_eqb_eq. split.
  - intros H. rewrite <- H. symmetry. apply sorted_perm.
  - intros H. apply Permutation_sym, Permutation_length_2_inv in H as [-> | ->]; assumption.
Qed.

Lemma singleton_perm (a : str) (l : list str) :
  strs_eqb l [a] = true <-> Permutation l [a].
Proof.
  rewrite strs_eqb_eq. split.
  - now intros ->.
  - intros H. now apply Permutation_sym, Permutation_length_1_inv in H.
Qed.

Lemma repo_not_empty_eq (args : arguments) (sourcedir : str) (st : state)
      (es : list (str * node)) :
  stat (fs st) (cwd st) (repodir args sourcedir) = Some (Dir es) ->
  repo_not_empty args sourcedir st
  = Continue (negb (strs_eqb (names es) [lit ".git"])
              && negb (strs_eqb (sorted (names es)) [lit ".git"; lit "README.md"])
              && negb (strs_eqb (sorted (names es)) [lit ".git"; lit "docs"])) st.
Proof.
  intros H. unfold repo_not_empty, bind, os_listdir. rewrite H.
  destruct (strs_eqb (names es) [lit ".git"]); [reflexivity|]. cbn [negb]. rewrite H.
  destruct (strs_eqb (sorted (names es)) [lit ".git"; lit "README.md"]); [reflexivity|].
  cbn [negb]. now rewrite H.
Qed.

Lemma repo_not_empty_spec (listing : list str) :
  negb (strs_eqb listing [lit ".git"])
  && negb (strs_eqb (sorted listing) [lit ".git"; lit "README.md"])
  && negb (strs_eqb (sorted listing) [lit ".git"; lit "docs"]) = false
  <-> freshly_cloned listing.
Proof.
  unfold freshly_cloned.
  rewrite <- singleton_perm.
  rewrite <- (sorted_pair (lit ".git") (lit "README.md")) by reflexivity.
  rewrite <- (sorted_pair (lit ".git") (lit "docs")) by reflexivity.
  destruct (strs_eqb listing [lit ".git"]),
           (strs_eqb (sorted listing) [lit ".git"; lit "README.md"]),
           (strs_eqb (sorted listing) [lit ".git"; lit "docs"]); simpl; intuition congruence.
Qed.

(** C6. Right after the clone, with the repository directory in place below
    an absolute source directory: the run goes on to the scaffold exactly
    when the top-level listing of the repository is [.git] alone, or [.git]
    with [README.md], or [.git] with [docs], in any order; with any other
    listing the run removes the repository directory and ends with the
    fatal error, having written no file and accumulated no call. *)
Theorem post_clone_check_lets_fresh_clones_through
        (args : arguments) (sourcedir : str) (template : str -> option str)
        (readme_time cmakelists_time command : str)
        (shell : str -> list str -> node -> Z * node)
        (st : state) (p : list str) (es : list (str * node)) :
  regex_plain (package args) = true ->
  absolute sourcedir = true ->
  resolve (fs st) (cwd st) (repodir args sourcedir) = Some p ->
  p <> [] ->
  lookup p (fs st) = Some (Dir es) ->
  (freshly_cloned (names es) ->
     post_clone_check args sourcedir st = Continue tt (with_cwd p st)
     /\ main args sourcedir template readme_time cmakelists_time command shell st
        = (scaffold args sourcedir template readme_time shell ;;
           write_cmakelists args cmakelists_time ;;
           sweep args sourcedir ;;
           commit args command shell) (with_cwd p st))
  /\ (~ freshly_cloned (names es) ->
      exists root',
        remove p (fs st) = Some root' /\ lookup p root' = None
        /\ post_clone_check args sourcedir st
           = Exited RepoNotEmpty (record (Removed p) (with_fs root' (with_cwd p st)))
        /\ main args sourcedir template readme_time cmakelists_time command shell st
           = Exited RepoNotEmpty (record (Removed p) (with_fs root' (with_cwd p st)))).
Proof.
  intros _ Habs Hres Hp Hl.
  assert (Hchdir : os_chdir (repodir args sourcedir) st = Continue tt (with_cwd p st)).
  { unfold os_chdir, is_dir. now rewrite Hres, Hl. }
  assert (Hres' : resolve (fs (with_cwd p st)) (cwd (with_cwd p st)) (repodir args sourcedir)
                  = Some p).
  { cbn [fs cwd with_cwd]. rewrite <- Hres.
    apply resolve_absolute, repodir_absolute, Habs. }
  assert (Hstat : stat (fs (with_cwd p st)) (cwd (with_cwd p st)) (repodir args sourcedir)
                  = Some (Dir es)).
  { unfold stat. rewrite Hres'. exact Hl. }
  assert (Hcheck : post_clone_check args sourcedir st
                   = (if negb (strs_eqb (names es) [lit ".git"])
                         && negb (strs_eqb (sorted (names es)) [lit ".git"; lit "README.md"])
                         && negb (strs_eqb (sorted (names es)) [lit ".git"; lit "docs"])
                      then cleanup args (repodir args sourcedir) ;; error RepoNotEmpty
                      else ret tt) (with_cwd p st)).
  { unfold post_clone_check. rewrite (bind_step _ _ _ _ _ Hchdir).
    now rewrite (bind_step _ _ _ _ _ (repo_not_empty_eq args sourcedir _ es Hstat)). }
  split.
  - intros Hfresh. apply repo_not_empty_spec in Hfresh. rewrite Hfresh in Hcheck.
    split; [exact Hcheck|].
    unfold main. now rewrite (bind_step _ _ _ _ _ Hcheck).
  - intros Hnot.
    destruct (negb (strs_eqb (names es) [lit ".git"])
              && negb (strs_eqb (sorted (names es)) [lit ".git"; lit "README.md"])
              && negb (strs_eqb (sorted (names es)) [lit ".git"; lit "docs"])) eqn:E.
    2: { exfalso. apply Hnot. now apply repo_not_empty_spec. }
    destruct (cleanup_deletes args (repodir args sourcedir) (with_cwd p st) p es Hres' Hp Hl
                (repodir_names_package args sourcedir)) as (root' & Hrm & Hgone & Hclean).
    exists root'. repeat split; try assumption.
    + rewrite Hcheck. now rewrite (bind_step _ _ _ _ _ Hclean).
    + unfold main. unfold bind at 1. rewrite Hcheck.
      now rewrite (bind_step _ _ _ _ _ Hclean).
Qed.

(** ** The loop over the module names *)

Lemma for_each_app {A} (l1 l2 : list A) (body : A -> M unit) (st : state) :
  for_each (l1 ++ l2) body st = (for_each l1 body ;; for_each l2 body) st.
Proof.
  revert st. induction l1 as [|x l1 IH]; intros st; cbn [for_each app].
  - reflexivity.
  - unfold bind. destruct (body x st) as [[] st0 | | |]; try reflexivity.
    now rewrite IH.
Qed.

(** What follows a fatal error is not run. *)
Lemma error_absorbs {A B} (m : M unit) (e : fatal) (k : A -> M B) (st : state) :
  bind (m ;; error e) k st = (m ;; error e) st.
Proof. unfold bind. now destruct (m st). Qed.

Lemma daq_module_rejected (args : arguments) (sourcedir : str)
      (template : str -> option str) (module : str) (st : state) :
  re_search module_name_re module = false ->
  daq_module args sourcedir template module st
  = (cleanup args (repodir args sourcedir) ;; error (ModuleNotPascalCase module)) st.
Proof.
  intros H. unfold daq_module. rewrite H. cbn [negb]. apply error_absorbs.
Qed.

(** C5. The check of a module name lets the name through exactly when it
    starts with an upper-case letter followed by a non-empty run of
    characters without underscore; a name it rejects makes the loop body
    call [cleanup] and then [error], which, with the repository directory
    in place, removes that directory and ends the run. *)
Theorem module_name_check
        (args : arguments) (sourcedir : str) (template : str -> option str)
        (module : str) :
  (re_search module_name_re module = true <->
   exists c run rest,
     module = c :: run ++ rest /\ char_between 65 90 c = true
     /\ run <> [] /\ ~ In underscore run)
  /\ (re_search module_name_re module = false ->
      forall st,
        daq_module args sourcedir template module st
        = (cleanup args (repodir args sourcedir) ;; error (ModuleNotPascalCase module)) st)
  /\ (re_search module_name_re module = false ->
      forall st p es,
        regex_plain (package args) = true ->
        resolve (fs st) (cwd st) (repodir args sourcedir) = Some p -> p <> [] ->
        lookup p (fs st) = Some (Dir es) ->
        exists root',
          remove p (fs st) = Some root' /\ lookup p root' = None
          /\ daq_module args sourcedir template module st
             = Exited (ModuleNotPascalCase module) (record (Removed p) (with_fs root' st))).
Proof.
  split; [|split].
  - rewrite module_name_re_second. split.
    + intros (c1 & c2 & rest & -> & Hc & Hne).
      exists c1, [c2], rest. repeat split; [assumption | discriminate |].
      intros [H | []]. congruence.
    + intros (c & run & rest & -> & Hc & Hrun & Hno).
      destruct run as [|c2 run]; [congruence|].
      exists c, c2, (run ++ rest). repeat split; [assumption|].
      intros ->. apply Hno. now left.
  - intros H st. now apply daq_module_rejected.
  - intros H st p es _ Hres Hp Hl.
    destruct (cleanup_deletes args (repodir args sourcedir) st p es Hres Hp Hl
                (repodir_names_package args sourcedir)) as (root' & Hrm & Hgone & Hclean).
    exists root'. repeat split; try assumption.
    rewrite daq_module_rejected by assumption.
    now rewrite (bind_step _ _ _ _ _ Hclean).
Qed.


(** ** The text of a generated module file *)

Lemma dest_filename_of_templates (args : arguments) (sourcedir module src_filename : str)
      (st : state) :
  In src_filename module_templates ->
  exists dest, dest_filename_of args sourcedir module src_filename st = Continue dest st.
Proof.
  unfold module_templates.
  intros [<- | [<- | [<- | [<- | []]]]]; eexists; reflexivity.
Qed.


(** C10. A later replacement also rewrites what an earlier one inserted.
    There is an accepted module name containing the token [package], and
    one containing the token [renameme], for which the name put in by the
    first replacement is no longer in the generated text: the fourth,
    respectively the fifth, replacement has rewritten it. *)
Theorem later_replacements_rewrite_the_inserted_module_name :
  (exists module package text,
      re_search module_name_re module = true
      /\ occurs (lit "package") module
      /\ text = lit "class RenameMe;"
      /\ occurs module (replace (lit "RenameMe") module text)
      /\ occurs module
           (apply_steps (firstn 3 (replacement_steps module package)) text)
      /\ ~ occurs module
           (apply_steps (firstn 4 (replacement_steps module package)) text)
      /\ ~ occurs module
           (substitute (Args false false (Some [module]) None None package) module text))
  /\ (exists module package text,
         re_search module_name_re module = true
         /\ occurs (lit "renameme") module
         /\ text = lit "class RenameMe;"
         /\ occurs module
              (apply_steps (firstn 4 (replacement_steps module package)) text)
         /\ ~ occurs module
              (substitute (Args false false (Some [module]) None None package) module text)).
Proof.
  split.
  - exists (lit "Mypackage"), (lit "dune"), (lit "class RenameMe;").
    repeat split;
      try (apply contains_spec; vm_compute; reflexivity);
      try (apply contains_false; vm_compute; reflexivity).
  - exists (lit "Xrenameme"), (lit "dune"), (lit "class RenameMe;").
    repeat split;
      try (apply contains_spec; vm_compute; reflexivity);
      try (apply contains_false; vm_compute; reflexivity).
Qed.

(** ** The calls accumulated by the scaffold *)

Lemma calls_app_nil_r (c : call_lists) : calls_app c no_calls = c.
Proof. destruct c. unfold calls_app. cbn. now rewrite !app_nil_r. Qed.

Lemma calls_app_nil_l (c : call_lists) : calls_app no_calls c = c.
Proof. now destruct c. Qed.

Lemma calls_app_assoc (a b c : call_lists) :
  calls_app (calls_app a b) c = calls_app a (calls_app b c).
Proof. unfold calls_app. cbn. now rewrite <- !app_assoc. Qed.

Lemma calls_app_calls (a1 a2 a3 a4 a5 a6 a7 b1 b2 b3 b4 b5 b6 b7 : list str) :
  calls_app (Calls a1 a2 a3 a4 a5 a6 a7) (Calls b1 b2 b3 b4 b5 b6 b7)
  = Calls (a1 ++ b1) (a2 ++ b2) (a3 ++ b3) (a4 ++ b4) (a5 ++ b5) (a6 ++ b6) (a7 ++ b7).
Proof. reflexivity. Qed.

Lemma adds_eq {A} (d d' : call_lists) (m : M A) : adds d' m -> d' = d -> adds d m.
Proof. now intros H <-. Qed.

Lemma adds_ret {A} (a : A) : adds no_calls (ret a).
Proof. intros st x st' [= _ <-]. now rewrite calls_app_nil_r. Qed.

Lemma adds_bind {A B} (d1 d2 : call_lists) (m : M A) (k : A -> M B) :
  adds d1 m -> (forall a, adds d2 (k a)) -> adds (calls_app d1 d2) (bind m k).
Proof.
  intros H1 H2 st b st' H. bind_inv H.
  rewrite (H2 _ _ _ _ H), (H1 _ _ _ H0). apply calls_app_assoc.
Qed.

(** A statement that never completes adds whatever one likes. *)
Lemma adds_error {A} (d : call_lists) (e : fatal) : adds d (@error A e).
Proof. intros st a st' H. discriminate. Qed.

Lemma adds_assert_false {A} (d : call_lists) : adds d (@assert_false A).
Proof. intros st a st' H. discriminate. Qed.

Lemma adds_raise {A} (d : call_lists) : adds d (@raise A).
Proof. intros st a st' H. discriminate. Qed.

Lemma adds_then_error {A B} (d : call_lists) (m : M A) (e : fatal) :
  adds d (m ;; @error B e).
Proof. intros st a st' H. bind_inv H. discriminate. Qed.

Ltac keeps_calls op :=
  intros st a st' H; rewrite calls_app_nil_r; unfold op in H;
  repeat match type of H with
         | context [match ?x with _ => _ end] => destruct x eqn:?
         | context [if ?x then _ else _] => destruct x eqn:?
         end;
  try discriminate; injection H as _ <-; reflexivity.

Lemma adds_os_path_exists (path : str) : adds no_calls (os_path_exists path).
Proof. intros st a st' [= _ <-]. now rewrite calls_app_nil_r. Qed.

Lemma adds_os_listdir (path : str) : adds no_calls (os_listdir path).
Proof. keeps_calls os_listdir. Qed.

Lemma adds_os_chdir (path : str) : adds no_calls (os_chdir path).
Proof. keeps_calls os_chdir. Qed.

Lemma adds_os_makedirs (path : str) : adds no_calls (os_makedirs path).
Proof. keeps_calls os_makedirs. Qed.

Lemma adds_write_file (path content : str) : adds no_calls (write_file path content).
Proof. keeps_calls write_file. Qed.

Lemma adds_shutil_rmtree (path : str) : adds no_calls (shutil_rmtree path).
Proof. keeps_calls shutil_rmtree. Qed.

Lemma adds_sweep_gitkeep (path : str) : adds no_calls (sweep_gitkeep path).
Proof. keeps_calls sweep_gitkeep. Qed.

Lemma adds_popen (shell : str -> list str -> node -> Z * node) (cmd : str) :
  adds no_calls (popen shell cmd).
Proof. keeps_calls popen. Qed.

Lemma adds_read_template (template : str -> option str) (name : str) :
  adds no_calls (read_template template name).
Proof.
  unfold read_template. destruct (template name); [apply adds_ret | apply adds_raise].
Qed.

Lemma adds_for_each {A} (d : A -> call_lists) (l : list A) (body : A -> M unit) :
  (forall x, adds (d x) (body x)) ->
  adds (fold_right (fun x acc => calls_app (d x) acc) no_calls l) (for_each l body).
Proof.
  intros H. induction l as [|x l IH]; cbn [for_each fold_right].
  - apply adds_ret.
  - apply adds_bind; [apply H | intros _; exact IH].
Qed.

Lemma adds_for_each_none {A} (l : list A) (body : A -> M unit) :
  (forall x, adds no_calls (body x)) -> adds no_calls (for_each l body).
Proof.
  intros H. eapply adds_eq; [apply (adds_for_each (fun _ => no_calls)), H|].
  induction l as [|x l IH]; [reflexivity|]. cbn [fold_right]. now rewrite IH.
Qed.

Lemma adds_shutil_copyfile (template : str -> option str) (name dest : str) :
  adds no_calls (shutil_copyfile template name dest).
Proof.
  unfold shutil_copyfile.
  eapply adds_eq;
    [apply adds_bind; [apply adds_read_template | intros; apply adds_write_file] | reflexivity].
Qed.

Lemma adds_if {A} (d : call_lists) (b : bool) (m1 m2 : M A) :
  adds d m1 -> adds d m2 -> adds d (if b then m1 else m2).
Proof. now destruct b. Qed.

Lemma adds_make_package_dir (dirname : str) : adds no_calls (make_package_dir dirname).
Proof.
  unfold make_package_dir.
  eapply adds_eq;
    [apply adds_bind;
     [apply adds_os_makedirs
     | intros; apply adds_bind;
       [apply adds_os_path_exists
       | intros b; apply adds_if; [apply adds_write_file | apply adds_ret] ] ]
    | reflexivity].
Qed.

Lemma adds_cleanup (args : arguments) (repodir : str) : adds no_calls (cleanup args repodir).
Proof.
  unfold cleanup.
  eapply adds_eq;
    [apply adds_bind;
     [apply adds_os_path_exists
     | intros b; apply adds_if;
       [apply adds_if; [apply adds_shutil_rmtree | apply adds_assert_false]
       | apply adds_assert_false] ]
    | reflexivity].
Qed.

Lemma adds_append_find_package_call (call : str) :
  adds (Calls [call] [] [] [] [] [] []) (append_find_package_call call).
Proof.
  intros st a st' [= _ <-]. unfold calls_app, calls_of. cbn. now rewrite !app_nil_r.
Qed.

Lemma adds_append_daq_codegen_call (call : str) :
  adds (Calls [] [call] [] [] [] [] []) (append_daq_codegen_call call).
Proof.
  intros st a st' [= _ <-]. unfold calls_app, calls_of. cbn. now rewrite !app_nil_r.
Qed.

Lemma adds_append_daq_add_library_call (call : str) :
  adds (Calls [] [] [call] [] [] [] []) (append_daq_add_library_call call).
Proof.
  intros st a st' [= _ <-]. unfold calls_app, calls_of. cbn. now rewrite !app_nil_r.
Qed.

Lemma adds_append_daq_add_python_bindings_call (call : str) :
  adds (Calls [] [] [] [call] [] [] []) (append_daq_add_python_bindings_call call).
Proof.
  intros st a st' [= _ <-]. unfold calls_app, calls_of. cbn. now rewrite !app_nil_r.
Qed.

Lemma adds_append_daq_add_plugin_call (call : str) :
  adds (Calls [] [] [] [] [call] [] []) (append_daq_add_plugin_call call).
Proof.
  intros st a st' [= _ <-]. unfold calls_app, calls_of. cbn. now rewrite !app_nil_r.
Qed.

Lemma adds_append_daq_add_application_call (call : str) :
  adds (Calls [] [] [] [] [] [call] []) (append_daq_add_application_call call).
Proof.
  intros st a st' [= _ <-]. unfold calls_app, calls_of. cbn. now rewrite !app_nil_r.
Qed.

Lemma adds_append_daq_add_unit_test_call (call : str) :
  adds (Calls [] [] [] [] [] [] [call]) (append_daq_add_unit_test_call call).
Proof.
  intros st a st' [= _ <-]. unfold calls_app, calls_of. cbn. now rewrite !app_nil_r.
Qed.

(** One statement of a chain. *)
Ltac adds_step :=
  match goal with
  | |- adds _ (bind _ (fun _ => error _)) => apply (adds_then_error no_calls)
  | |- adds ?d (bind _ _) =>
      tryif is_evar d
      then (apply adds_bind; [ | intros ])
      else (eapply adds_eq; [apply adds_bind; [ | intros ] | ])
  | |- adds _ (ret _) => apply adds_ret
  | |- adds _ (error _) => apply (adds_error no_calls)
  | |- adds _ assert_false => apply (adds_assert_false no_calls)
  | |- adds _ (if _ then _ else _) => apply adds_if
  | |- adds _ (os_path_exists _) => apply adds_os_path_exists
  | |- adds _ (os_listdir _) => apply adds_os_listdir
  | |- adds _ (os_chdir _) => apply adds_os_chdir
  | |- adds _ (os_makedirs _) => apply adds_os_makedirs
  | |- adds _ (write_file _ _) => apply adds_write_file
  | |- adds _ (shutil_rmtree _) => apply adds_shutil_rmtree
  | |- adds _ (sweep_gitkeep _) => apply adds_sweep_gitkeep
  | |- adds _ (popen _ _) => apply adds_popen
  | |- adds _ (read_template _ _) => apply adds_read_template
  | |- adds _ (shutil_copyfile _ _ _) => apply adds_shutil_copyfile
  | |- adds _ (make_package_dir _) => apply adds_make_package_dir
  | |- adds _ (cleanup _ _) => apply adds_cleanup
  | |- adds _ (append_find_package_call _) => apply adds_append_find_package_call
  | |- adds _ (append_daq_codegen_call _) => apply adds_append_daq_codegen_call
  | |- adds _ (append_daq_add_library_call _) => apply adds_append_daq_add_library_call
  | |- adds _ (append_daq_add_python_bindings_call _) =>
      apply adds_append_daq_add_python_bindings_call
  | |- adds _ (append_daq_add_plugin_call _) => apply adds_append_daq_add_plugin_call
  | |- adds _ (append_daq_add_application_call _) =>
      apply adds_append_daq_add_application_call
  | |- adds _ (append_daq_add_unit_test_call _) => apply adds_append_daq_add_unit_test_call
  end.

Ltac adds_steps := repeat adds_step; try reflexivity.

Lemma adds_post_clone_check (args : arguments) (sourcedir : str) :
  adds no_calls (post_clone_check args sourcedir).
Proof. unfold post_clone_check, repo_not_empty. adds_steps. Qed.

Lemma adds_main_library_block (args : arguments) (sourcedir : str) :
  adds (Calls [] []
          (if contains_main_library args
           then [lit "daq_add_library( LINK_LIBRARIES ) # Any source files and/or dependent libraries to link in not yet determined"]
           else [])
          [] [] [] [])
       (main_library_block args sourcedir).
Proof.
  unfold main_library_block. destruct (contains_main_library args); adds_steps.
Qed.

Lemma adds_python_bindings_block (args : arguments) (sourcedir : str)
      (template : str -> option str) :
  adds (Calls [] [] []
          (if contains_python_bindings args
           then [[nl] ++ lit "daq_add_python_bindings(*.cpp LINK_LIBRARIES ${PROJECT_NAME} ) # Any additional libraries to link in beyond the main library not yet determined" ++ [nl]]
           else [])
          [] [] [])
       (python_bindings_block args sourcedir template).
Proof.
  unfold python_bindings_block. destruct (contains_python_bindings args); [|adds_steps].
  eapply adds_eq.
  - apply adds_bind; [adds_step|]. intros. apply adds_bind; [adds_step|]. intros.
    apply adds_for_each_none. intros x. adds_step.
  - reflexivity.
Qed.

Lemma adds_instantiate (args : arguments) (sourcedir : str) (template : str -> option str)
      (module src_filename : str) :
  adds no_calls (instantiate args sourcedir template module src_filename).
Proof. unfold instantiate, dest_filename_of. adds_steps. Qed.

Lemma adds_daq_module (args : arguments) (sourcedir : str) (template : str -> option str)
      (module : str) :
  adds (Calls [] (codegen_calls module) [] [] [plugin_call module] [] [])
       (daq_module args sourcedir template module).
Proof.
  unfold daq_module.
  eapply adds_eq.
  - apply adds_bind; [adds_steps|]. intros. apply adds_bind; [adds_step|].
    intros. apply adds_bind; [adds_step|]. intros. apply adds_bind; [adds_step|].
    intros. apply adds_for_each_none. intros x. apply adds_instantiate.
  - reflexivity.
Qed.

Lemma given_false_elements (o : option (list str)) : given o = false -> elements o = [].
Proof. destruct o as [[|x l]|]; simpl; congruence. Qed.

Lemma module_calls_fold (l : list str) :
  fold_right
    (fun x acc => calls_app (Calls [] (codegen_calls x) [] [] [plugin_call x] [] []) acc)
    no_calls l
  = Calls [] (flat_map codegen_calls l) [] [] (map plugin_call l) [] [].
Proof.
  induction l as [|x l IH]; [reflexivity|]. cbn [fold_right]. rewrite IH. reflexivity.
Qed.

Lemma adds_daq_modules_block (args : arguments) (sourcedir : str)
      (template : str -> option str) :
  adds (Calls (if given (daq_modules args)
               then [lit "find_package(appfwk REQUIRED)"; lit "find_package(opmonlib REQUIRED)"]
               else [])
          (flat_map codegen_calls (elements (daq_modules args))) [] []
          (map plugin_call (elements (daq_modules args))) [] [])
       (daq_modules_block args sourcedir template).
Proof.
  unfold daq_modules_block. destruct (given (daq_modules args)) eqn:E.
  2: { rewrite (given_false_elements _ E). apply adds_ret. }
  eapply adds_eq.
  - apply adds_bind.
    + apply adds_for_each_none. intros x. destruct (template x); adds_steps.
    + intros. apply adds_bind.
      * cbn [for_each]. adds_steps.
      * intros. apply adds_bind; [adds_step|]. intros. apply adds_bind; [adds_step|].
        intros. apply adds_bind; [adds_step|]. intros.
        apply (adds_for_each
                 (fun x => Calls [] (codegen_calls x) [] [] [plugin_call x] [] [])).
        intros x. apply adds_daq_module.
  - rewrite module_calls_fold. reflexivity.
Qed.

Lemma application_calls_fold (keyword : str) (l : list str) :
  fold_right
    (fun x acc => calls_app (Calls [] [] [] [] [] [application_call keyword x] []) acc)
    no_calls l
  = Calls [] [] [] [] [] (map (application_call keyword) l) [].
Proof.
  induction l as [|x l IH]; [reflexivity|]. cbn [fold_right]. rewrite IH. reflexivity.
Qed.

Lemma adds_application (args : arguments) (sourcedir : str) (template : str -> option str)
      (subdir : str) (e : str -> fatal) (keyword app : str) :
  adds (Calls [] [] [] [] [] [application_call keyword app] [])
       (application args sourcedir template subdir e keyword app).
Proof. unfold application. adds_steps. Qed.

Lemma adds_user_apps_block (args : arguments) (sourcedir : str)
      (template : str -> option str) :
  adds (Calls [] [] [] [] [] (map (application_call []) (elements (user_apps args))) [])
       (user_apps_block args sourcedir template).
Proof.
  unfold user_apps_block. destruct (given (user_apps args)) eqn:E.
  2: { rewrite (given_false_elements _ E). apply adds_ret. }
  eapply adds_eq.
  - apply adds_bind; [adds_step|]. intros.
    apply (adds_for_each (fun x => Calls [] [] [] [] [] [application_call [] x] [])).
    intros x. apply adds_application.
  - rewrite application_calls_fold. reflexivity.
Qed.

Lemma adds_test_apps_block (args : arguments) (sourcedir : str)
      (template : str -> option str) :
  adds (Calls [] [] [] [] []
          (map (application_call (lit "TEST ")) (elements (test_apps args))) [])
       (test_apps_block args sourcedir template).
Proof.
  unfold test_apps_block. destruct (given (test_apps args)) eqn:E.
  2: { rewrite (given_false_elements _ E). apply adds_ret. }
  eapply adds_eq.
  - apply adds_bind; [adds_step|]. intros.
    apply (adds_for_each
             (fun x => Calls [] [] [] [] [] [application_call (lit "TEST ") x] [])).
    intros x. apply adds_application.
  - rewrite application_calls_fold. reflexivity.
Qed.

Lemma adds_unittest_block (args : arguments) (sourcedir : str)
      (template : str -> option str) :
  adds (Calls [lit "find_package(Boost COMPONENTS unit_test_framework REQUIRED)"]
          [] [] [] [] []
          [lit "daq_add_unit_test(Placeholder_test LINK_LIBRARIES)  # Any libraries to link in not yet determined"])
       (unittest_block args sourcedir template).
Proof. unfold unittest_block. adds_steps. Qed.

Lemma adds_docs_block (args : arguments) (sourcedir readme_time : str)
      (shell : str -> list str -> node -> Z * node) :
  adds no_calls (docs_block args sourcedir readme_time shell).
Proof. unfold docs_block. adds_steps. Qed.

Lemma adds_cmake_config_block (args : arguments) (sourcedir : str)
      (shell : str -> list str -> node -> Z * node) :
  adds no_calls (cmake_config_block args sourcedir shell).
Proof. unfold cmake_config_block. adds_steps. Qed.

Lemma adds_scaffold (args : arguments) (sourcedir : str) (template : str -> option str)
      (readme_time : str) (shell : str -> list str -> node -> Z * node) :
  adds (Calls
          ((if given (daq_modules args)
            then [lit "find_package(appfwk REQUIRED)"; lit "find_package(opmonlib REQUIRED)"]
            else [])
           ++ [lit "find_package(Boost COMPONENTS unit_test_framework REQUIRED)"])
          (flat_map codegen_calls (elements (daq_modules args)))
          (if contains_main_library args
           then [lit "daq_add_library( LINK_LIBRARIES ) # Any source files and/or dependent libraries to link in not yet determined"]
           else [])
          (if contains_python_bindings args
           then [[nl] ++ lit "daq_add_python_bindings(*.cpp LINK_LIBRARIES ${PROJECT_NAME} ) # Any additional libraries to link in beyond the main library not yet determined" ++ [nl]]
           else [])
          (map plugin_call (elements (daq_modules args)))
          (map (application_call []) (elements (user_apps args))
           ++ map (application_call (lit "TEST ")) (elements (test_apps args)))
          [lit "daq_add_unit_test(Placeholder_test LINK_LIBRARIES)  # Any libraries to link in not yet determined"])
       (scaffold args sourcedir template readme_time shell).
Proof.
  unfold scaffold. eapply adds_eq.
  - apply adds_bind; [apply adds_main_library_block|]. intros _.
    apply adds_bind; [apply adds_python_bindings_block|]. intros _.
    apply adds_bind; [apply adds_daq_modules_block|]. intros _.
    apply adds_bind; [apply adds_user_apps_block|]. intros _.
    apply adds_bind; [apply adds_test_apps_block|]. intros _.
    apply adds_bind; [apply adds_unittest_block|]. intros _.
    apply adds_bind; [apply adds_docs_block|]. intros _.
    apply adds_cmake_config_block.
  - rewrite !calls_app_nil_r, !calls_app_calls.
    cbn [app]. rewrite !app_nil_r. reflexivity.
Qed.

(** *** The command line *)

Lemma elements_append_arg (o : option (list str)) (x : str) :
  elements (append_arg o x) = elements o ++ [x].
Proof. now destruct o. Qed.

Lemma given_elements (o : option (list str)) :
  given o = match elements o with [] => false | _ :: _ => true end.
Proof. now destruct o as [[|x l]|]. Qed.

Lemma parse_flags_fields (argv : list flag) (a0 : arguments) :
  let a := fold_left parse_flag argv a0 in
  package a = package a0
  /\ contains_main_library a = contains_main_library a0 || has_main_library argv
  /\ contains_python_bindings a = contains_python_bindings a0 || has_python_bindings argv
  /\ elements (daq_modules a) = elements (daq_modules a0) ++ modules_of argv
  /\ elements (user_apps a) = elements (user_apps a0) ++ user_apps_of argv
  /\ elements (test_apps a) = elements (test_apps a0) ++ test_apps_of argv.
Proof.
  revert a0. induction argv as [|f argv IH]; intros a0; cbn [fold_left].
  - cbn. now rewrite !orb_false_r, !app_nil_r.
  - destruct (IH (parse_flag a0 f)) as (H1 & H2 & H3 & H4 & H5 & H6).
    cbv zeta. rewrite H1, H2, H3, H4, H5, H6. clear.
    destruct f; cbn [parse_flag package contains_main_library contains_python_bindings
                       daq_modules user_apps test_apps
                       has_main_library has_python_bindings existsb
                       modules_of user_apps_of test_apps_of flat_map app];
      rewrite ?elements_append_arg, <- ?app_assoc, ?orb_true_r, ?orb_false_l;
      repeat split; try reflexivity;
      try (now destruct (contains_main_library a0));
      try (now destruct (contains_python_bindings a0)).
Qed.

Lemma parse_args_fields (pkg : str) (argv : list flag) :
  package (parse_args pkg argv) = pkg
  /\ contains_main_library (parse_args pkg argv) = has_main_library argv
  /\ contains_python_bindings (parse_args pkg argv) = has_python_bindings argv
  /\ elements (daq_modules (parse_args pkg argv)) = modules_of argv
  /\ elements (user_apps (parse_args pkg argv)) = user_apps_of argv
  /\ elements (test_apps (parse_args pkg argv)) = test_apps_of argv.
Proof.
  exact (parse_flags_fields argv (Args false false None None None pkg)).
Qed.

Lemma scaffold_calls_of_flags (pkg : str) (argv : list flag) :
  let args := parse_args pkg argv in
  Calls
    ((if given (daq_modules args)
      then [lit "find_package(appfwk REQUIRED)"; lit "find_package(opmonlib REQUIRED)"]
      else [])
     ++ [lit "find_package(Boost COMPONENTS unit_test_framework REQUIRED)"])
    (flat_map codegen_calls (elements (daq_modules args)))
    (if contains_main_library args
     then [lit "daq_add_library( LINK_LIBRARIES ) # Any source files and/or dependent libraries to link in not yet determined"]
     else [])
    (if contains_python_bindings args
     then [[nl] ++ lit "daq_add_python_bindings(*.cpp LINK_LIBRARIES ${PROJECT_NAME} ) # Any additional libraries to link in beyond the main library not yet determined" ++ [nl]]
     else [])
    (map plugin_call (elements (daq_modules args)))
    (map (application_call []) (elements (user_apps args))
     ++ map (application_call (lit "TEST ")) (elements (test_apps args)))
    [lit "daq_add_unit_test(Placeholder_test LINK_LIBRARIES)  # Any libraries to link in not yet determined"]
  = expected_sections argv.
Proof.
  cbv zeta. destruct (parse_args_fields pkg argv) as (_ & H2 & H3 & H4 & H5 & H6).
  rewrite given_elements, H2, H3, H4, H5, H6. unfold expected_sections.
  now destruct (modules_of argv).
Qed.

Lemma calls_are_map (command : str) (f : str -> str) (l : list str) :
  (forall x, starts_with command (f x) = true) -> calls_are command (map f l) = true.
Proof.
  intros H. unfold calls_are. rewrite forallb_forall. intros y Hy.
  apply in_map_iff in Hy as (x & <- & _). now rewrite H.
Qed.

Lemma sections_of_flags_hold_their_calls (argv : list flag) :
  sections_hold_their_calls (expected_sections argv) = true.
Proof.
  unfold sections_hold_their_calls, expected_sections.
  cbn [lookups codegens libraries bindings plugins applications unit_tests].
  repeat match goal with
         | |- _ && calls_are _ _ = true => apply andb_true_iff; split
         end.
  - now destruct (modules_of argv).
  - unfold calls_are. rewrite forallb_forall. intros y Hy.
    apply in_flat_map in Hy as (m & _ & [<- | [<- | []]]);
      unfold codegen_calls; now rewrite starts_with_app.
  - now destruct (has_main_library argv).
  - now destruct (has_python_bindings argv).
  - apply calls_are_map. intros m. apply starts_with_app.
  - unfold calls_are. rewrite forallb_app. apply andb_true_iff.
    split; apply calls_are_map; intros a; apply starts_with_app.
  - reflexivity.
Qed.


(** ** Generating a module *)

(** A file stays what it is when a node is stored elsewhere. *)
Lemma lookup_file_put (q : list str) (v n n' : node) (d : list str) (c : str) :
  put q v n = Some n' -> is_dir q n = false -> q <> d ->
  lookup d n = Some (File c) -> lookup d n' = Some (File c).
Proof.
  unfold is_dir. revert n n' d. induction q as [|k q IH]; intros n n' d; cbn [put].
  - intros [= <-] Hq Hne Hd. destruct n as [x | es]; [|discriminate].
    destruct d; [congruence | discriminate].
  - destruct n as [x | es]; [discriminate|].
    destruct q as [|k2 q].
    + intros [= <-] Hq Hne Hd. destruct d as [|k' d]; [discriminate|].
      cbn [lookup] in *.
      destruct (list_eq_dec ascii_dec k k') as [<- | Hk].
      * destruct (assoc k es) as [[x | es']|]; try discriminate.
        destruct d; [congruence | discriminate].
      * now rewrite assoc_set_other.
    + destruct (assoc k es) as [ch|] eqn:Ek; [|discriminate].
      destruct (put (k2 :: q) v ch) as [ch'|] eqn:Ep; [|discriminate].
      intros [= <-] Hq Hne Hd. destruct d as [|k' d]; [discriminate|].
      cbn [lookup] in *.
      destruct (list_eq_dec ascii_dec k k') as [<- | Hk].
      * rewrite assoc_set_same. rewrite Ek in Hq, Hd.
        apply (IH ch ch' d Ep Hq); [congruence | exact Hd].
      * now rewrite assoc_set_other.
Qed.

(** Storing a file makes no directory. *)
Lemma is_dir_put_file_inv (p : list str) (c : str) (n n' : node) (q : list str) :
  put p (File c) n = Some n' -> is_dir q n' = true -> is_dir q n = true.
Proof.
  unfold is_dir. revert n n' q. induction p as [|k p IH]; intros n n' q; cbn [put].
  - intros [= <-]. destruct q; discriminate.
  - destruct n as [x | es]; [discriminate|].
    destruct p as [|k2 p].
    + intros [= <-] Hq. destruct q as [|k' q]; [reflexivity|].
      cbn [lookup] in *.
      destruct (list_eq_dec ascii_dec k k') as [<- | Hk].
      * rewrite assoc_set_same in Hq. destruct q; discriminate.
      * now rewrite assoc_set_other in Hq.
    + destruct (assoc k es) as [ch|] eqn:Ek; [|discriminate].
      destruct (put (k2 :: p) (File c) ch) as [ch'|] eqn:Ep; [|discriminate].
      intros [= <-] Hq. destruct q as [|k' q]; [reflexivity|].
      cbn [lookup] in *.
      destruct (list_eq_dec ascii_dec k k') as [<- | Hk].
      * rewrite assoc_set_same in Hq. rewrite Ek. exact (IH ch ch' q Ep Hq).
      * now rewrite assoc_set_other in Hq.
Qed.

(** Writing a file twice in a row, as the loop body does: first the copy
    of the template, then the text with the names put in. *)
Lemma write_twice (dest first second : str) (st : state) (p : list str) (name : str) :
  resolve (fs st) (cwd st) dest = Some (p ++ [name]) ->
  is_dir p (fs st) = true ->
  is_dir (p ++ [name]) (fs st) = false ->
  exists st',
    (write_file dest first ;; write_file dest second) st = Continue tt st'
    /\ cwd st' = cwd st
    /\ calls_of st' = calls_of st
    /\ history st' = history st ++ [Wrote (p ++ [name]); Wrote (p ++ [name])]
    /\ lookup (p ++ [name]) (fs st') = Some (File second)
    /\ (forall q, is_dir q (fs st') = is_dir q (fs st))
    /\ (forall q c, q <> p ++ [name] -> lookup q (fs st) = Some (File c) ->
                    lookup q (fs st') = Some (File c)).
Proof.
  intros Hres Hp Hfree.
  destruct (put_child p name (File first) (fs st) Hp) as [root' Hput].
  assert (Hw : write_file dest first st
               = Continue tt (record (Wrote (p ++ [name])) (with_fs root' st))).
  { unfold write_file. rewrite Hres. unfold is_dir in Hfree.
    destruct (lookup (p ++ [name]) (fs st)) as [[x | es]|]; try discriminate;
      now rewrite Hput. }
  destruct (write_file_again dest first second st _ Hw)
    as (p' & r1 & root'' & Hres' & Hput1 & _ & Hput' & Hagain).
  rewrite Hres in Hres'. injection Hres' as <-.
  rewrite Hput in Hput1. injection Hput1 as <-.
  eexists. split; [rewrite (bind_step _ _ _ _ _ Hw); exact Hagain|].
  cbn [fs cwd history record with_fs calls_of find_package_calls daq_codegen_calls
         daq_add_library_calls daq_add_python_bindings_calls daq_add_plugin_calls
         daq_add_application_calls daq_add_unit_test_calls].
  assert (Hfree' : is_dir (p ++ [name]) root' = false).
  { unfold is_dir. now rewrite (lookup_put_same _ _ _ _ Hput). }
  repeat split.
  - now rewrite <- app_assoc.
  - exact (lookup_put_same _ _ _ _ Hput').
  - intros q. destruct (is_dir q (fs st)) eqn:E.
    + apply (is_dir_put _ _ _ _ q Hput' Hfree'). now apply (is_dir_put _ _ _ _ q Hput Hfree).
    + destruct (is_dir q root'') eqn:E'; [|reflexivity].
      apply (is_dir_put_file_inv _ _ _ _ q Hput') in E'.
      apply (is_dir_put_file_inv _ _ _ _ q Hput) in E'. congruence.
  - intros q c Hq Hl.
    apply (lookup_file_put _ _ _ _ q c Hput' Hfree'); [congruence|].
    apply (lookup_file_put _ _ _ _ q c Hput Hfree); [congruence | exact Hl].
Qed.

Lemma walk_path_ext (root root' : node) (cur segs : list str) :
  (forall q, is_dir q root' = is_dir q root) ->
  walk_path root' cur segs = walk_path root cur segs.
Proof.
  intros H. revert cur. induction segs as [|s segs IH]; intros cur; simpl; [reflexivity|].
  rewrite H. destruct (is_dir cur root); [|reflexivity].
  destruct (str_eqb s [] || str_eqb s dot); [apply IH|].
  destruct (str_eqb s dotdot); apply IH.
Qed.

Lemma resolve_ext (root root' : node) (cwd : list str) (path : str) :
  (forall q, is_dir q root' = is_dir q root) ->
  resolve root' cwd path = resolve root cwd path.
Proof.
  intros H. unfold resolve. destruct path; [reflexivity|]. now apply walk_path_ext.
Qed.

Lemma instantiate_writes (args : arguments) (sourcedir : str)
      (template : str -> option str) (module : str) (j : job) (st : state) :
  template (job_src j) = Some (job_text j) ->
  (forall s, dest_filename_of args sourcedir module (job_src j) s = Continue (job_dest j) s) ->
  resolve (fs st) (cwd st) (job_dest j) = Some (job_location j) ->
  is_dir (job_dir j) (fs st) = true ->
  is_dir (job_location j) (fs st) = false ->
  exists st',
    instantiate args sourcedir template module (job_src j) st = Continue tt st'
    /\ cwd st' = cwd st
    /\ calls_of st' = calls_of st
    /\ history st' = history st ++ [Wrote (job_location j); Wrote (job_location j)]
    /\ lookup (job_location j) (fs st') = Some (File (substitute args module (job_text j)))
    /\ (forall q, is_dir q (fs st') = is_dir q (fs st))
    /\ (forall q c, q <> job_location j -> lookup q (fs st) = Some (File c) ->
                    lookup q (fs st') = Some (File c)).
Proof.
  intros Htpl Hdest Hres Hdir Hfree.
  destruct (write_twice (job_dest j) (job_text j) (substitute args module (job_text j))
              st (job_dir j) (job_name j) Hres Hdir Hfree) as (st' & Hrun & Hrest).
  exists st'. split; [|exact Hrest].
  rewrite <- Hrun. unfold instantiate.
  rewrite (bind_step _ _ _ _ _ (Hdest st)).
  unfold shutil_copyfile, read_template. rewrite Htpl.
  unfold bind, ret. now destruct (write_file (job_dest j) (job_text j) st).
Qed.

Lemma for_each_instantiate (args : arguments) (sourcedir : str)
      (template : str -> option str) (module : str) (jobs : list job) (st : state) :
  Forall (fun j =>
            template (job_src j) = Some (job_text j)
            /\ (forall s, dest_filename_of args sourcedir module (job_src j) s
                          = Continue (job_dest j) s)
            /\ resolve (fs st) (cwd st) (job_dest j) = Some (job_location j)
            /\ is_dir (job_dir j) (fs st) = true
            /\ is_dir (job_location j) (fs st) = false) jobs ->
  NoDup (map job_location jobs) ->
  exists st',
    for_each (map job_src jobs) (instantiate args sourcedir template module) st
    = Continue tt st'
    /\ cwd st' = cwd st
    /\ calls_of st' = calls_of st
    /\ history st'
       = history st ++ flat_map (fun j => [Wrote (job_location j); Wrote (job_location j)]) jobs
    /\ (forall j, In j jobs ->
          lookup (job_location j) (fs st') = Some (File (substitute args module (job_text j))))
    /\ (forall q, is_dir q (fs st') = is_dir q (fs st))
    /\ (forall q c, ~ In q (map job_location jobs) -> lookup q (fs st) = Some (File c) ->
                    lookup q (fs st') = Some (File c)).
Proof.
  revert st. induction jobs as [|j jobs IH]; intros st Hall Hnd.
  - exists st. cbn [map for_each flat_map]. rewrite app_nil_r.
    repeat split; try reflexivity. contradiction. trivial.
  - inversion Hall as [|? ? (Htpl & Hdest & Hres & Hdir & Hfree) Hrest]; subst.
    inversion Hnd as [|? ? Hnotin Hnd']; subst.
    destruct (instantiate_writes args sourcedir template module j st
                Htpl Hdest Hres Hdir Hfree)
      as (st1 & Hrun1 & Hcwd1 & Hcalls1 & Hhist1 & Hl1 & Hd1 & Hf1).
    destruct (IH st1) as (st' & Hrun & Hcwd & Hcalls & Hhist & Hl & Hd & Hf).
    { apply Forall_forall. intros j' Hj'.
      rewrite Forall_forall in Hrest.
      destruct (Hrest j' Hj') as (A1 & A2 & A3 & A4 & A5).
      rewrite Hcwd1, (resolve_ext (fs st) (fs st1) _ _ Hd1), !Hd1. auto. }
    { exact Hnd'. }
    exists st'. cbn [map for_each flat_map].
    rewrite (bind_step _ _ _ _ _ Hrun1).
    split; [exact Hrun|]. split; [congruence|]. split; [congruence|].
    split; [rewrite Hhist, Hhist1, <- app_assoc; reflexivity|].
    split; [|split].
    + intros j' [<- | Hj']; [|now apply Hl].
      apply (Hf _ _ Hnotin Hl1).
    + intros q. now rewrite Hd, Hd1.
    + intros q c Hq Hlq. apply Hf; [intros Hin; apply Hq; now right|].
      apply Hf1; [intros ->; apply Hq; now left | exact Hlq].
Qed.

(** When no placeholder can overlap an inserted name form, the text after
    the five replacements holds no placeholder, and holds the name form of
    every placeholder the template held. *)
Lemma substitute_clean (args : arguments) (module text : str) :
  names_clear_of_placeholders module (package args) = true ->
  (forall tok, In tok placeholders -> ~ occurs tok (substitute args module text))
  /\ (forall tok form,
        In (tok, form) (replacement_steps module (package args)) ->
        occurs tok text -> occurs form (substitute args module text)).
Proof.
  intros H.
  assert (OF : forall tok v,
             In tok placeholders -> In v (inserted_forms module (package args)) ->
             overlap_free tok v = true).
  { intros tok v Ht Hv. unfold names_clear_of_placeholders in H.
    rewrite forallb_forall in H. specialize (H v Hv).
    rewrite forallb_forall in H. exact (H tok Ht). }
  assert (P1 : In (lit "RenameMe") placeholders) by (cbn [placeholders In]; auto 10).
  assert (P2 : In (lit "PACKAGE") placeholders) by (cbn [placeholders In]; auto 10).
  assert (P3 : In (lit "RENAMEME") placeholders) by (cbn [placeholders In]; auto 10).
  assert (P4 : In (lit "package") placeholders) by (cbn [placeholders In]; auto 10).
  assert (P5 : In (lit "renameme") placeholders) by (cbn [placeholders In]; auto 10).
  assert (V1 : In module (inserted_forms module (package args)))
    by (cbn [inserted_forms replacement_steps map snd In]; auto 10).
  assert (V2 : In (upper (package args)) (inserted_forms module (package args)))
    by (cbn [inserted_forms replacement_steps map snd In]; auto 10).
  assert (V3 : In (upper module) (inserted_forms module (package args)))
    by (cbn [inserted_forms replacement_steps map snd In]; auto 10).
  assert (V4 : In (lower (package args)) (inserted_forms module (package args)))
    by (cbn [inserted_forms replacement_steps map snd In]; auto 10).
  assert (V5 : In (lower module) (inserted_forms module (package args)))
    by (cbn [inserted_forms replacement_steps map snd In]; auto 10).
  assert (N1 : lit "RenameMe" <> []) by discriminate.
  assert (N2 : lit "PACKAGE" <> []) by discriminate.
  assert (N3 : lit "RENAMEME" <> []) by discriminate.
  assert (N4 : lit "package" <> []) by discriminate.
  assert (N5 : lit "renameme" <> []) by discriminate.
  unfold substitute. cbv zeta.
  set (s1 := replace (lit "RenameMe") module text).
  set (s2 := replace (lit "PACKAGE") (upper (package args)) s1).
  set (s3 := replace (lit "RENAMEME") (upper module) s2).
  set (s4 := replace (lit "package") (lower (package args)) s3).
  split.
  - intros tok Htok Hocc. cbn [placeholders In] in Htok.
    destruct Htok as [<- | [<- | [<- | [<- | [<- | []]]]]].
    + apply (replace_occurs_inv _ _ N5 _ s4 (OF _ _ P1 V5)) in Hocc.
      apply (replace_occurs_inv _ _ N4 _ s3 (OF _ _ P1 V4)) in Hocc.
      apply (replace_occurs_inv _ _ N3 _ s2 (OF _ _ P1 V3)) in Hocc.
      apply (replace_occurs_inv _ _ N2 _ s1 (OF _ _ P1 V2)) in Hocc.
      exact (replace_removes _ _ N1 text (OF _ _ P1 V1) Hocc).
    + apply (replace_occurs_inv _ _ N5 _ s4 (OF _ _ P2 V5)) in Hocc.
      apply (replace_occurs_inv _ _ N4 _ s3 (OF _ _ P2 V4)) in Hocc.
      apply (replace_occurs_inv _ _ N3 _ s2 (OF _ _ P2 V3)) in Hocc.
      exact (replace_removes _ _ N2 s1 (OF _ _ P2 V2) Hocc).
    + apply (replace_occurs_inv _ _ N5 _ s4 (OF _ _ P3 V5)) in Hocc.
      apply (replace_occurs_inv _ _ N4 _ s3 (OF _ _ P3 V4)) in Hocc.
      exact (replace_removes _ _ N3 s2 (OF _ _ P3 V3) Hocc).
    + apply (replace_occurs_inv _ _ N5 _ s4 (OF _ _ P4 V5)) in Hocc.
      exact (replace_removes _ _ N4 s3 (OF _ _ P4 V4) Hocc).
    + exact (replace_removes _ _ N5 s4 (OF _ _ P5 V5) Hocc).
  - intros tok form Hin Hocc.
    cbn [replacement_steps In] in Hin.
    destruct Hin as [E | [E | [E | [E | [E | []]]]]]; injection E as <- <-.
    + apply (replace_preserves _ _ N5 _ s4 (OF _ _ P5 V1)).
      apply (replace_preserves _ _ N4 _ s3 (OF _ _ P4 V1)).
      apply (replace_preserves _ _ N3 _ s2 (OF _ _ P3 V1)).
      apply (replace_preserves _ _ N2 _ s1 (OF _ _ P2 V1)).
      now apply replace_inserts.
    + apply (replace_preserves _ _ N5 _ s4 (OF _ _ P5 V2)).
      apply (replace_preserves _ _ N4 _ s3 (OF _ _ P4 V2)).
      apply (replace_preserves _ _ N3 _ s2 (OF _ _ P3 V2)).
      apply replace_inserts; [assumption|].
      now apply (replace_preserves _ _ N1 _ text).
    + apply (replace_preserves _ _ N5 _ s4 (OF _ _ P5 V3)).
      apply (replace_preserves _ _ N4 _ s3 (OF _ _ P4 V3)).
      apply replace_inserts; [assumption|].
      apply (replace_preserves _ _ N2 _ s1); [reflexivity|].
      now apply (replace_preserves _ _ N1 _ text).
    + apply (replace_preserves _ _ N5 _ s4 (OF _ _ P5 V4)).
      apply replace_inserts; [assumption|].
      apply (replace_preserves _ _ N3 _ s2); [reflexivity|].
      apply (replace_preserves _ _ N2 _ s1); [reflexivity|].
      now apply (replace_preserves _ _ N1 _ text).
    + apply replace_inserts; [assumption|].
      apply (replace_preserves _ _ N4 _ s3); [reflexivity|].
      apply (replace_preserves _ _ N3 _ s2); [reflexivity|].
      apply (replace_preserves _ _ N2 _ s1); [reflexivity|].
      now apply (replace_preserves _ _ N1 _ text).
Qed.

(** *** The names of the generated files *)

Lemma header_name (module suffix : str) :
  replace (lit "RenameMe") module (lit "RenameMe" ++ suffix)
  = module ++ replace (lit "RenameMe") module suffix.
Proof. apply replace_match. discriminate. Qed.

Lemma schema_name (module suffix : str) :
  replace (lit "renameme") module (lit "renameme" ++ suffix)
  = module ++ replace (lit "renameme") module suffix.
Proof. apply replace_match. discriminate. Qed.

Lemma dest_filename_hpp (args : arguments) (sourcedir module : str) (st : state) :
  dest_filename_of args sourcedir module (lit "RenameMe.hpp") st
  = Continue ((repodir args sourcedir ++ lit "/plugins") ++ slash :: (module ++ lit ".hpp")) st.
Proof.
  unfold dest_filename_of.
  change (str_in (path_suffix (lit "RenameMe.hpp")) [lit ".hpp"; lit ".cpp"]) with true.
  cbv iota. change (lit "RenameMe.hpp") with (lit "RenameMe" ++ lit ".hpp").
  rewrite header_name.
  change (replace (lit "RenameMe") module (lit ".hpp")) with (lit ".hpp").
  change (lit "/plugins/") with (lit "/plugins" ++ [slash]).
  now rewrite <- !app_assoc.
Qed.

Lemma dest_filename_cpp (args : arguments) (sourcedir module : str) (st : state) :
  dest_filename_of args sourcedir module (lit "RenameMe.cpp") st
  = Continue ((repodir args sourcedir ++ lit "/plugins") ++ slash :: (module ++ lit ".cpp")) st.
Proof.
  unfold dest_filename_of.
  change (str_in (path_suffix (lit "RenameMe.cpp")) [lit ".hpp"; lit ".cpp"]) with true.
  cbv iota. change (lit "RenameMe.cpp") with (lit "RenameMe" ++ lit ".cpp").
  rewrite header_name.
  change (replace (lit "RenameMe") module (lit ".cpp")) with (lit ".cpp").
  change (lit "/plugins/") with (lit "/plugins" ++ [slash]).
  now rewrite <- !app_assoc.
Qed.

Lemma dest_filename_jsonnet (args : arguments) (sourcedir module : str) (st : state) :
  dest_filename_of args sourcedir module (lit "renameme.jsonnet") st
  = Continue ((repodir args sourcedir ++ lit "/schema/" ++ package args)
                ++ slash :: (lower module ++ lit ".jsonnet")) st.
Proof.
  unfold dest_filename_of.
  change (str_in (path_suffix (lit "renameme.jsonnet")) [lit ".hpp"; lit ".cpp"]) with false.
  change (str_in (path_suffix (lit "renameme.jsonnet")) [lit ".jsonnet"]) with true.
  cbv iota. change (lit "renameme.jsonnet") with (lit "renameme" ++ lit ".jsonnet").
  rewrite schema_name.
  change (replace (lit "renameme") (lower module) (lit ".jsonnet")) with (lit ".jsonnet").
  change (lit "/") with [slash].
  now rewrite <- !app_assoc.
Qed.

Lemma dest_filename_info_jsonnet (args : arguments) (sourcedir module : str) (st : state) :
  dest_filename_of args sourcedir module (lit "renamemeinfo.jsonnet") st
  = Continue ((repodir args sourcedir ++ lit "/schema/" ++ package args)
                ++ slash :: (lower module ++ lit "info.jsonnet")) st.
Proof.
  unfold dest_filename_of.
  change (str_in (path_suffix (lit "renamemeinfo.jsonnet")) [lit ".hpp"; lit ".cpp"])
    with false.
  change (str_in (path_suffix (lit "renamemeinfo.jsonnet")) [lit ".jsonnet"]) with true.
  cbv iota.
  change (lit "renamemeinfo.jsonnet") with (lit "renameme" ++ lit "info.jsonnet").
  rewrite schema_name.
  change (replace (lit "renameme") (lower module) (lit "info.jsonnet"))
    with (lit "info.jsonnet").
  change (lit "/") with [slash].
  now rewrite <- !app_assoc.
Qed.

Lemma lower_char_slash (c : ascii) :
  Ascii.eqb slash (lower_char c) = Ascii.eqb slash c.
Proof. destruct c as [[] [] [] [] [] [] [] []]; reflexivity. Qed.

Lemma lower_no_slash (s : str) :
  existsb (Ascii.eqb slash) (lower s) = existsb (Ascii.eqb slash) s.
Proof.
  induction s as [|c s IH]; [reflexivity|]. cbn [lower map existsb].
  rewrite lower_char_slash. f_equal. exact IH.
Qed.

(** A name with a slash-free stem and an extension is a plain name. *)
Lemma plain_name_with_extension (stem ext : str) :
  existsb (Ascii.eqb slash) stem = false ->
  existsb (Ascii.eqb slash) ext = false ->
  3 <= List.length ext ->
  plain_name (stem ++ ext) = true.
Proof.
  intros Hs He Hlen. unfold plain_name.
  assert (Hl : 3 <= List.length (stem ++ ext)) by (rewrite length_app; lia).
  rewrite existsb_app, Hs, He.
  assert (N : forall t : str, List.length t < 3 -> str_eqb (stem ++ ext) t = false).
  { intros t Ht. apply str_eqb_neq. intros E. rewrite E in Hl. lia. }
  rewrite (N []), (N dot), (N dotdot); [reflexivity | | |]; cbn; lia.
Qed.

Lemma last_char_differs (a b u v : str) (x y : ascii) :
  x <> y -> a ++ u ++ [x] <> b ++ v ++ [y].
Proof.
  intros Hxy E. rewrite !app_assoc in E. apply app_inj_tail in E as [_ E]. contradiction.
Qed.

Lemma module_destinations_distinct (plugins_dir schema_dir : list str) (module : str) :
  NoDup (module_destinations plugins_dir schema_dir module).
Proof.
  assert (Hpt : forall a b u v, a ++ [module ++ u ++ [("p")%char]]
                                <> b ++ [lower module ++ v ++ [("t")%char]]).
  { intros a b u v E. apply app_inj_tail in E as [_ E].
    revert E. apply last_char_differs. discriminate. }
  unfold module_destinations.
  repeat constructor; cbn [In]; intros H.
  - destruct H as [H | [H | [H | []]]].
    + apply app_inv_head in H. injection H as H. apply app_inv_head in H. discriminate.
    + exact (Hpt _ _ (lit ".hp") (lit ".jsonne") (eq_sym H)).
    + exact (Hpt _ _ (lit ".hp") (lit "info.jsonne") (eq_sym H)).
  - destruct H as [H | [H | []]].
    + exact (Hpt _ _ (lit ".cp") (lit ".jsonne") (eq_sym H)).
    + exact (Hpt _ _ (lit ".cp") (lit "info.jsonne") (eq_sym H)).
  - destruct H as [H | []].
    apply app_inv_head in H. injection H as H. apply app_inv_head in H. discriminate.
  - exact H.
Qed.

Lemma daq_module_accepted (args : arguments) (sourcedir : str)
      (template : str -> option str) (module : str) (st : state) :
  re_search module_name_re module = true ->
  daq_module args sourcedir template module st
  = for_each module_templates (instantiate args sourcedir template module)
      (State (fs st) (cwd st) (find_package_calls st)
         (daq_codegen_calls st ++ codegen_calls module)
         (daq_add_library_calls st) (daq_add_python_bindings_calls st)
         (daq_add_plugin_calls st ++ [plugin_call module])
         (daq_add_application_calls st) (daq_add_unit_test_calls st) (history st)).
Proof.
  intros H. unfold daq_module. rewrite H. cbn [negb].
  unfold bind, ret, append_daq_add_plugin_call, append_daq_codegen_call.
  cbn [fs cwd find_package_calls daq_codegen_calls daq_add_library_calls
         daq_add_python_bindings_calls daq_add_plugin_calls daq_add_application_calls
         daq_add_unit_test_calls history].
  unfold codegen_calls, plugin_call. now rewrite <- app_assoc.
Qed.


(** * The statements at concrete inputs *)








Lemma post_clone_check_lets_fresh_clones_through_witness :
  let args := Example.args_of Example.argv in
  let st := Example.start in
  regex_plain (package args) = true
  /\ absolute Example.sourcedir = true
  /\ freshly_cloned (names (Example.entries_at Example.repo st))
  /\ post_clone_check args Example.sourcedir st = Continue tt (with_cwd Example.repo st).
Proof.
  intros args st. split; [reflexivity|]. split; [reflexivity|].
  assert (Hfresh : freshly_cloned (names (Example.entries_at Example.repo st)))
    by (left; vm_compute; reflexivity).
  split; [exact Hfresh|].
  apply (proj1 (post_clone_check_lets_fresh_clones_through args Example.sourcedir
                  Example.template [] [] [] Example.shell st Example.repo
                  (Example.entries_at Example.repo st)
                  eq_refl eq_refl eq_refl ltac:(discriminate) eq_refl) Hfresh).
Defined.

Lemma sweep_leaves_markers_in_empty_directories_only_witness :
  let args := Example.args_of [DaqModule (lit "Foo")] in
  let st := Example.after_module in
  absolute Example.sourcedir = true
  /\ no_marker_directory (Dir (Example.entries_at Example.repo st)) = true
  /\ exists n' root',
      sweep_node (Dir (Example.entries_at Example.repo st)) = Some n'
      /\ put Example.repo n' (fs st) = Some root'
      /\ sweep args Example.sourcedir st = Continue tt (with_fs root' (with_cwd Example.repo st))
      /\ lookup Example.repo root' = Some n'
      /\ (forall q es', lookup q n' = Some (Dir es') ->
            (names es' <> [gitkeep] -> ~ In gitkeep (names es'))
            /\ exists es, lookup q (Dir (Example.entries_at Example.repo st)) = Some (Dir es)
                          /\ (names es = [gitkeep] -> names es' = [gitkeep])
                          /\ (names es <> [gitkeep] -> ~ In gitkeep (names es')))
      /\ (forall q es, lookup q (Dir (Example.entries_at Example.repo st)) = Some (Dir es) ->
            exists es', lookup q n' = Some (Dir es')).
Proof.
  intros args st. split; [reflexivity|]. split; [vm_compute; reflexivity|].
  apply (sweep_leaves_markers_in_empty_directories_only args Example.sourcedir st
           Example.repo (Example.entries_at Example.repo st)).
  - reflexivity.
  - vm_compute. reflexivity.
  - vm_compute. reflexivity.
  - vm_compute. reflexivity.
Defined.


Lemma make_package_dir_idempotent_witness :
  well_formed (fs Example.start) = true
  /\ make_package_dir (lit "/work/sourcecode/dune/src") Example.start
     = Continue tt Example.with_src
  /\ make_package_dir (lit "/work/sourcecode/dune/src") Example.with_src
     = Continue tt Example.with_src
  /\ exists p es,
      resolve (fs Example.with_src) (cwd Example.with_src) (lit "/work/sourcecode/dune/src")
      = Some p
      /\ lookup p (fs Example.with_src) = Some (Dir es)
      /\ count_occ (list_eq_dec ascii_dec) (names es) gitkeep = 1.
Proof.
  assert (Hwf : well_formed (fs Example.start) = true) by reflexivity.
  assert (Hrun : make_package_dir (lit "/work/sourcecode/dune/src") Example.start
                 = Continue tt Example.with_src) by (vm_compute; reflexivity).
  split; [exact Hwf|]. split; [exact Hrun|].
  exact (make_package_dir_idempotent (lit "/work/sourcecode/dune/src") Example.start
           Example.with_src Hwf Hrun).
Defined.

(** * Further properties of the script *)

(** ** Application names *)

Lemma uppercase_re_spec (s : str) :
  re_search uppercase_re s = true <->
  exists c, In c s /\ char_between 65 90 c = true.
Proof.
  unfold re_search, uppercase_re. cbn [anchored items].
  induction s as [|x s IH]; cbn [match_anywhere match_here].
  - split; [discriminate | intros (c & [] & _)].
  - rewrite orb_true_iff, andb_true_r, IH. split.
    + intros [H | (c & Hin & Hc)].
      * exists x. split; [now left | assumption].
      * exists c. split; [now right | assumption].
    + intros (c & [<- | Hin] & Hc); [now left | right; now exists c].
Qed.

Lemma lower_char_fixes_eqb (c : ascii) :
  Ascii.eqb (lower_char c) c = negb (char_between 65 90 c).
Proof. destruct c as [[] [] [] [] [] [] [] []]; reflexivity. Qed.

Lemma lower_char_fixes (c : ascii) :
  lower_char c = c <-> char_between 65 90 c = false.
Proof.
  rewrite <- Ascii.eqb_eq, lower_char_fixes_eqb. now destruct (char_between 65 90 c).
Qed.

Lemma lower_fixes (s : str) :
  lower s = s <-> forall c, In c s -> char_between 65 90 c = false.
Proof.
  induction s as [|x s IH]; cbn [lower map].
  - split; [intros _ c [] | reflexivity].
  - split.
    + intros H. injection H as Hx Hs. intros c [<- | Hin].
      * now apply lower_char_fixes.
      * now apply IH.
    + intros H. f_equal.
      * apply lower_char_fixes, H. now left.
      * apply IH. intros c Hc. apply H. now right.
Qed.


(** ** Writing one file *)

Lemma write_once (dest content : str) (st : state) (p : list str) (name : str) :
  resolve (fs st) (cwd st) dest = Some (p ++ [name]) ->
  is_dir p (fs st) = true ->
  is_dir (p ++ [name]) (fs st) = false ->
  exists root',
    put (p ++ [name]) (File content) (fs st) = Some root'
    /\ write_file dest content st = Continue tt (record (Wrote (p ++ [name])) (with_fs root' st))
    /\ lookup (p ++ [name]) root' = Some (File content)
    /\ (forall q, is_dir q root' = is_dir q (fs st))
    /\ (forall q c, q <> p ++ [name] -> lookup q (fs st) = Some (File c) ->
                    lookup q root' = Some (File c)).
Proof.
  intros Hres Hp Hfree.
  destruct (put_child p name (File content) (fs st) Hp) as [root' Hput].
  exists root'. split; [exact Hput|]. split; [|split; [|split]].
  - unfold write_file. rewrite Hres. unfold is_dir in Hfree.
    destruct (lookup (p ++ [name]) (fs st)) as [[x | es]|]; try discriminate;
      now rewrite Hput.
  - exact (lookup_put_same _ _ _ _ Hput).
  - intros q. destruct (is_dir q (fs st)) eqn:E.
    + now apply (is_dir_put _ _ _ _ q Hput Hfree).
    + destruct (is_dir q root') eqn:E'; [|reflexivity].
      apply (is_dir_put_file_inv _ _ _ _ q Hput) in E'. congruence.
  - intros q c Hq Hl. apply (lookup_file_put _ _ _ _ q c Hput Hfree); [congruence | exact Hl].
Qed.



(** ** Texts without placeholders *)

(** X3. A template text in which none of the five placeholders occurs
    comes out of the five replacements unchanged, whatever the module and
    package names are. *)
Theorem substitute_leaves_plain_text (args : arguments) (module text : str) :
  (forall tok, In tok placeholders -> ~ occurs tok text) ->
  substitute args module text = text.
Proof.
  intros H. unfold substitute. cbv zeta.
  assert (H1 : ~ occurs (lit "RenameMe") text) by (apply H; cbn [placeholders In]; auto 10).
  assert (H2 : ~ occurs (lit "PACKAGE") text) by (apply H; cbn [placeholders In]; auto 10).
  assert (H3 : ~ occurs (lit "RENAMEME") text) by (apply H; cbn [placeholders In]; auto 10).
  assert (H4 : ~ occurs (lit "package") text) by (apply H; cbn [placeholders In]; auto 10).
  assert (H5 : ~ occurs (lit "renameme") text) by (apply H; cbn [placeholders In]; auto 10).
  rewrite (replace_absent (lit "RenameMe") module) by (discriminate || assumption).
  rewrite (replace_absent (lit "PACKAGE") (upper (package args)))
    by (discriminate || assumption).
  rewrite (replace_absent (lit "RENAMEME") (upper module)) by (discriminate || assumption).
  rewrite (replace_absent (lit "package") (lower (package args)))
    by (discriminate || assumption).
  now rewrite (replace_absent (lit "renameme") (lower module))
    by (discriminate || assumption).
Qed.

Lemma substitute_leaves_plain_text_witness :
  (forall tok, In tok placeholders -> ~ occurs tok (lit "BOOST_AUTO_TEST_CASE"))
  /\ substitute (Example.args_of []) (lit "Foo") (lit "BOOST_AUTO_TEST_CASE")
     = lit "BOOST_AUTO_TEST_CASE".
Proof.
  assert (H : forall tok, In tok placeholders -> ~ occurs tok (lit "BOOST_AUTO_TEST_CASE")).
  { intros tok Hin. apply contains_false.
    cbn [placeholders In] in Hin.
    destruct Hin as [<- | [<- | [<- | [<- | [<- | []]]]]]; vm_compute; reflexivity. }
  split; [exact H|].
  exact (substitute_leaves_plain_text (Example.args_of []) (lit "Foo")
           (lit "BOOST_AUTO_TEST_CASE") H).
Defined.

(** ** The text of a section *)

Lemma section_lines_later (i : nat) (list_of_calls : list str)
      (section_of_webpage : option str) :
  section_lines (S i) list_of_calls section_of_webpage
  = flat_map (fun call => nl :: call) list_of_calls.
Proof.
  revert i. induction list_of_calls as [|call rest IH]; intros i; [reflexivity|].
  cbn [section_lines flat_map]. rewrite IH. now destruct section_of_webpage.
Qed.

(** X4. [print_cmakelists_section] writes nothing at all for an empty list
    of calls (no link, no divider).  For a non-empty list it writes the
    link to the documentation once, before the first call and only when a
    section of the web page is named, then every call on a line of its own,
    then the divider. *)
Theorem print_cmakelists_section_text
        (list_of_calls : list str) (section_of_webpage : option str) :
  print_cmakelists_section list_of_calls section_of_webpage
  = match list_of_calls with
    | [] => []
    | _ :: _ =>
        match section_of_webpage with
        | Some section =>
            [nl] ++ lit "# See https://dune-daq-sw.readthedocs.io/en/latest/packages/daq-cmake/#"
            ++ section ++ [nl]
        | None => []
        end
        ++ flat_map (fun call => nl :: call) list_of_calls
        ++ divider
    end.
Proof.
  unfold print_cmakelists_section.
  destruct list_of_calls as [|call rest]; [reflexivity|].
  cbn [section_lines List.length Nat.ltb Nat.leb flat_map].
  rewrite section_lines_later.
  destruct section_of_webpage; now rewrite <- ?app_assoc.
Qed.

(** ** The parsed command line *)

Lemma grown_append_arg (o : option (list str)) (x : str) (l : list str) :
  grown (append_arg o x) l = grown o (x :: l).
Proof.
  unfold grown. rewrite elements_append_arg. destruct l as [|y l].
  - now destruct o.
  - now rewrite <- app_assoc.
Qed.

Lemma parse_flags_closed_form (argv : list flag) (a0 : arguments) :
  fold_left parse_flag argv a0
  = Args (contains_main_library a0 || has_main_library argv)
         (contains_python_bindings a0 || has_python_bindings argv)
         (grown (daq_modules a0) (modules_of argv))
         (grown (user_apps a0) (user_apps_of argv))
         (grown (test_apps a0) (test_apps_of argv))
         (package a0).
Proof.
  revert a0. induction argv as [|f argv IH]; intros a0; cbn [fold_left].
  - destruct a0. cbn. now rewrite !orb_false_r.
  - rewrite IH. clear IH.
    destruct f;
      cbn [parse_flag package contains_main_library contains_python_bindings
             daq_modules user_apps test_apps
             has_main_library has_python_bindings existsb
             modules_of user_apps_of test_apps_of flat_map app];
      rewrite ?grown_append_arg, ?orb_true_r, ?orb_false_l; reflexivity.
Qed.

(** X5. The parsed command line in closed form: a switch is set when its
    flag occurs at least once, and each repeatable flag collects its names
    in the order they were typed, or stays unset when the flag never
    occurs.  Hence two command lines with the same switches and the same
    names per kind of flag, in whatever order the kinds are mixed, are
    parsed to the same arguments. *)
Theorem parse_args_closed_form (pkg : str) (argv : list flag) :
  parse_args pkg argv
  = Args (has_main_library argv) (has_python_bindings argv)
         (collected (modules_of argv)) (collected (user_apps_of argv))
         (collected (test_apps_of argv)) pkg
  /\ (forall argv',
        has_main_library argv' = has_main_library argv ->
        has_python_bindings argv' = has_python_bindings argv ->
        modules_of argv' = modules_of argv ->
        user_apps_of argv' = user_apps_of argv ->
        test_apps_of argv' = test_apps_of argv ->
        parse_args pkg argv' = parse_args pkg argv).
Proof.
  assert (H : forall l,
             parse_args pkg l
             = Args (has_main_library l) (has_python_bindings l)
                    (collected (modules_of l)) (collected (user_apps_of l))
                    (collected (test_apps_of l)) pkg).
  { intros l. unfold parse_args. rewrite parse_flags_closed_form.
    cbn [contains_main_library contains_python_bindings daq_modules user_apps test_apps
           package orb].
    f_equal; unfold grown, collected; now destruct (_ l). }
  split; [apply H|].
  intros argv' H1 H2 H3 H4 H5. now rewrite !H, H1, H2, H3, H4, H5.
Qed.

(** ** What a removal leaves *)

Lemma assoc_del_other (k k' : str) (es : list (str * node)) :
  k <> k' -> assoc k' (del_entry k es) = assoc k' es.
Proof.
  intros Hne. unfold del_entry. induction es as [|[k2 v2] es IH]; [reflexivity|].
  cbn [filter fst assoc]. destruct (str_eqb k k2) eqn:E; cbn [negb assoc].
  - apply str_eqb_eq in E. subst k2.
    destruct (str_eqb k' k) eqn:E'; [apply str_eqb_eq in E'; congruence | exact IH].
  - destruct (str_eqb k' k2); [reflexivity | exact IH].
Qed.

Lemma below_cons (k : str) (p q : list str) : below (k :: p) (k :: q) <-> below p q.
Proof.
  unfold below. split; intros [r H]; exists r.
  - now injection H.
  - now rewrite H.
Qed.

(** Outside the removed tree, the nodes are what they were, and the
    directories on the way to it are still directories. *)
Lemma remove_outside (p : list str) (n n' : node) (q : list str) :
  remove p n = Some n' -> ~ below p q ->
  is_dir q n' = is_dir q n
  /\ (forall c, lookup q n = Some (File c) -> lookup q n' = Some (File c)).
Proof.
  unfold is_dir. revert n n' q. induction p as [|k p IH]; intros n n' q; cbn [remove].
  - discriminate.
  - destruct n as [x | es]; [discriminate|].
    destruct (assoc k es) as [ch|] eqn:Ek; [|discriminate].
    destruct p as [|k2 p].
    + intros [= <-] Hq. destruct q as [|k' q].
      * split; [reflexivity | discriminate].
      * cbn [lookup].
        destruct (list_eq_dec ascii_dec k k') as [<- | Hk].
        -- exfalso. apply Hq. now exists q.
        -- rewrite assoc_del_other by assumption. auto.
    + destruct (remove (k2 :: p) ch) as [ch'|] eqn:Er; [|discriminate].
      intros [= <-] Hq. destruct q as [|k' q].
      * split; [reflexivity | discriminate].
      * cbn [lookup].
        destruct (list_eq_dec ascii_dec k k') as [<- | Hk].
        -- rewrite assoc_set_same, Ek. apply (IH ch ch' q Er).
           intros Hb. apply Hq. now apply below_cons.
        -- rewrite assoc_set_other by assumption. auto.
Qed.

Lemma shutil_rmtree_continue (path : str) (st st' : state) (u : unit) :
  shutil_rmtree path st = Continue u st' ->
  exists p root',
    resolve (fs st) (cwd st) path = Some p
    /\ remove p (fs st) = Some root'
    /\ lookup p root' = None
    /\ st' = record (Removed p) (with_fs root' st).
Proof.
  unfold shutil_rmtree.
  destruct (resolve (fs st) (cwd st) path) as [p|]; [|discriminate].
  destruct (is_dir p (fs st)) eqn:Ed; [|discriminate].
  destruct (remove p (fs st)) as [root'|] eqn:Er; [|discriminate].
  intros H. exists p, root'. split; [reflexivity|]. split; [exact Er|].
  split; [|now injection H].
  destruct p as [|k p]; [discriminate|].
  destruct (remove_exists (k :: p) (fs st)) as (n' & Hn' & Hgone).
  - discriminate.
  - unfold is_dir in Ed. destruct (lookup (k :: p) (fs st)); [discriminate | discriminate].
  - congruence.
Qed.

Lemma cleanup_continue (args : arguments) (repodir : str) (st st' : state) (u : unit) :
  cleanup args repodir st = Continue u st' ->
  exists p root',
    resolve (fs st) (cwd st) repodir = Some p
    /\ remove p (fs st) = Some root'
    /\ lookup p root' = None
    /\ st' = record (Removed p) (with_fs root' st).
Proof.
  unfold cleanup. rewrite (bind_step _ _ _ _ _ (os_path_exists_eq _ _)).
  destruct (stat (fs st) (cwd st) repodir); [|discriminate].
  destruct (re_search _ _); [|discriminate].
  apply shutil_rmtree_continue.
Qed.

(** X6. When [cleanup] completes, the tree at the path is gone with all
    that was below it, and nothing else has changed: every file outside
    that tree is still there with its content, every directory outside it
    is still a directory, and the working directory and the accumulated
    calls are as before. *)
Theorem cleanup_removes_only_its_tree
        (args : arguments) (repodir : str) (st st' : state) :
  cleanup args repodir st = Continue tt st' ->
  exists p,
    resolve (fs st) (cwd st) repodir = Some p
    /\ (forall q, below p q -> lookup q (fs st') = None)
    /\ (forall q c, ~ below p q -> lookup q (fs st) = Some (File c) ->
                    lookup q (fs st') = Some (File c))
    /\ (forall q, ~ below p q -> is_dir q (fs st') = is_dir q (fs st))
    /\ cwd st' = cwd st
    /\ calls_of st' = calls_of st.
Proof.
  intros H. apply cleanup_continue in H as (p & root' & Hres & Hrm & Hgone & ->).
  exists p. cbn [fs cwd record with_fs]. split; [exact Hres|].
  split; [|split; [|split; [|split; reflexivity]]].
  - intros q [r ->]. now rewrite lookup_app, Hgone.
  - intros q c Hq. exact (proj2 (remove_outside p (fs st) root' q Hrm Hq) c).
  - intros q Hq. exact (proj1 (remove_outside p (fs st) root' q Hrm Hq)).
Qed.

Lemma cleanup_removes_only_its_tree_witness :
  let args := Example.args_of [DaqModule (lit "Foo")] in
  exists st',
    cleanup args (repodir args Example.sourcedir) Example.after_module = Continue tt st'
    /\ exists p,
        resolve (fs Example.after_module) (cwd Example.after_module)
          (repodir args Example.sourcedir) = Some p
        /\ (forall q, below p q -> lookup q (fs st') = None)
        /\ (forall q c, ~ below p q -> lookup q (fs Example.after_module) = Some (File c) ->
                        lookup q (fs st') = Some (File c))
        /\ (forall q, ~ below p q -> is_dir q (fs st') = is_dir q (fs Example.after_module))
        /\ cwd st' = cwd Example.after_module
        /\ calls_of st' = calls_of Example.after_module.
Proof.
  intros args.
  assert (H : exists st',
             cleanup args (repodir args Example.sourcedir) Example.after_module
             = Continue tt st') by (eexists; vm_compute; reflexivity).
  destruct H as [st' H]. exists st'. split; [exact H|].
  exact (cleanup_removes_only_its_tree args (repodir args Example.sourcedir)
           Example.after_module st' H).
Defined.

(** ** What directory creation leaves *)

Lemma makedirs_from_files (root root' : node) (cur segs : list str) (q : list str) (c : str) :
  makedirs_from root cur segs = Some root' ->
  lookup q root = Some (File c) -> lookup q root' = Some (File c).
Proof.
  revert root cur. induction segs as [|s segs IH]; intros root cur; simpl.
  - destruct (is_dir cur root); [|discriminate]. now intros [= <-].
  - destruct (is_dir cur root); [|discriminate].
    destruct (str_eqb s [] || str_eqb s dot); [apply IH|].
    destruct (str_eqb s dotdot); [apply IH|].
    destruct (lookup (cur ++ [s]) root) eqn:El; [apply IH|].
    destruct (put (cur ++ [s]) (Dir []) root) as [root1|] eqn:Ep; [|discriminate].
    intros H Hq. apply (IH _ _ H).
    apply (lookup_file_put _ _ _ _ q c Ep); [unfold is_dir; now rewrite El | congruence | exact Hq].
Qed.

(** X7. When [make_package_dir] completes, the path names a directory that
    holds an entry [.gitkeep]; every file that existed before is still
    there with its content (an existing marker is not rewritten), every
    directory is still a directory, and the only file the call may have
    written is the marker of that directory. *)
Theorem make_package_dir_keeps_what_exists (dirname : str) (st st1 : state) :
  make_package_dir dirname st = Continue tt st1 ->
  exists p,
    resolve (fs st1) (cwd st1) dirname = Some p
    /\ is_dir p (fs st1) = true
    /\ lookup (p ++ [gitkeep]) (fs st1) <> None
    /\ (forall q c, lookup q (fs st) = Some (File c) -> lookup q (fs st1) = Some (File c))
    /\ (forall q, is_dir q (fs st) = true -> is_dir q (fs st1) = true)
    /\ (history st1 = history st \/ history st1 = history st ++ [Wrote (p ++ [gitkeep])])
    /\ cwd st1 = cwd st
    /\ calls_of st1 = calls_of st.
Proof.
  intros H. unfold make_package_dir in H.
  bind_inv H. destruct a.
  apply os_makedirs_continue in H0 as (Hne & root1 & Hmk & ->).
  rewrite (bind_step _ _ _ _ _ (os_path_exists_eq _ _)) in H.
  cbn [fs cwd with_fs] in H.
  assert (Hdirs := makedirs_from_dirs _ _ _ _ Hmk).
  destruct (dirs_along_walk _ _ _ Hdirs) as (p & Hwalk & Hp).
  assert (Hres : resolve root1 (cwd st) dirname = Some p).
  { unfold resolve. destruct dirname; [congruence | exact Hwalk]. }
  assert (Hkeep : resolve root1 (cwd st) (dirname ++ lit "/.gitkeep") = Some (p ++ [gitkeep]))
    by exact (resolve_child root1 (cwd st) dirname gitkeep p Hres Hp eq_refl).
  exists p. unfold stat in H. rewrite Hkeep in H.
  destruct (lookup (p ++ [gitkeep]) root1) as [x|] eqn:El; cbn [negb] in H.
  - injection H as <-. cbn [fs cwd with_fs history].
    split; [exact Hres|]. split; [exact Hp|]. split; [congruence|].
    split; [intros q c; apply (makedirs_from_files _ _ _ _ q c Hmk)|].
    split; [apply (makedirs_from_mono _ _ _ _ Hmk)|].
    split; [now left|]. split; reflexivity.
  - apply write_file_continue in H as (q & root2 & Hq & Hnd & Hput & ->).
    cbn [fs cwd with_fs] in Hq, Hnd, Hput. rewrite Hkeep in Hq. injection Hq as <-.
    cbn [fs cwd with_fs record history].
    assert (Hmono : forall q, is_dir q root1 = true -> is_dir q root2 = true)
      by (intros q; now apply (is_dir_put _ _ _ _ q Hput)).
    split; [exact (resolve_mono _ _ _ _ _ Hmono Hres)|].
    split; [now apply Hmono|].
    split; [rewrite (lookup_put_same _ _ _ _ Hput); discriminate|].
    split.
    { intros q c Hl. apply (lookup_file_put _ _ _ _ q c Hput Hnd).
      - intros <-. apply (makedirs_from_files _ _ _ _ _ c Hmk) in Hl. congruence.
      - now apply (makedirs_from_files _ _ _ _ q c Hmk). }
    split; [intros q Hd; apply Hmono, (makedirs_from_mono _ _ _ _ Hmk), Hd|].
    split; [now right|]. split; reflexivity.
Qed.

Lemma make_package_dir_keeps_what_exists_witness :
  exists st1,
    make_package_dir (lit "/work/sourcecode/dune/plugins") Example.after_module
    = Continue tt st1
    /\ exists p,
        resolve (fs st1) (cwd st1) (lit "/work/sourcecode/dune/plugins") = Some p
        /\ is_dir p (fs st1) = true
        /\ lookup (p ++ [gitkeep]) (fs st1) <> None
        /\ (forall q c, lookup q (fs Example.after_module) = Some (File c) ->
                        lookup q (fs st1) = Some (File c))
        /\ (forall q, is_dir q (fs Example.after_module) = true -> is_dir q (fs st1) = true)
        /\ (history st1 = history Example.after_module
            \/ history st1 = history Example.after_module ++ [Wrote (p ++ [gitkeep])])
        /\ cwd st1 = cwd Example.after_module
        /\ calls_of st1 = calls_of Example.after_module.
Proof.
  assert (H : exists st1,
             make_package_dir (lit "/work/sourcecode/dune/plugins") Example.after_module
             = Continue tt st1) by (eexists; vm_compute; reflexivity).
  destruct H as [st1 H]. exists st1. split; [exact H|].
  exact (make_package_dir_keeps_what_exists (lit "/work/sourcecode/dune/plugins")
           Example.after_module st1 H).
Defined.

(** ** What the sweep keeps *)

(** The node found at [q] after a node has been stored at [p]. *)
Lemma lookup_put_cases (p : list str) (v n n' : node) (q : list str) :
  put p v n = Some n' ->
  (exists r, q = p ++ r /\ lookup q n' = lookup r v)
  \/ (is_dir q n = true /\ is_dir q n' = true)
  \/ lookup q n' = lookup q n.
Proof.
  revert n n' q. induction p as [|k p IH]; intros n n' q; cbn [put].
  - intros [= <-]. left. now exists q.
  - destruct n as [c | es]; [discriminate|].
    destruct q as [|k' q].
    { intros H. right. left. split; [reflexivity|].
      destruct p; [now injection H as <-|].
      destruct (assoc k es); [|discriminate].
      destruct (put (s :: p) v n); [now injection H as <-|discriminate]. }
    destruct (list_eq_dec ascii_dec k k') as [<- | Hne].
    + destruct p as [|k2 p].
      * intros [= <-]. left. exists q. split; [reflexivity|].
        cbn [lookup]. now rewrite assoc_set_same.
      * destruct (assoc k es) as [c|] eqn:Ec; [|discriminate].
        destruct (put (k2 :: p) v c) as [c'|] eqn:Ep; [|discriminate].
        intros [= <-]. unfold is_dir. cbn [lookup]. rewrite assoc_set_same, Ec.
        destruct (IH c c' q Ep) as [(r & -> & Hr) | [Hd | He]].
        -- left. exists r. split; [reflexivity | exact Hr].
        -- right. left. exact Hd.
        -- right. right. exact He.
    + intros H. right. right.
      assert (E : forall x, assoc k' (set_entry k x es) = assoc k' es)
        by (intros x; now apply assoc_set_other).
      destruct p as [|k2 p].
      * injection H as <-. cbn [lookup]. now rewrite E.
      * destruct (assoc k es) as [c|]; [|discriminate].
        destruct (put (k2 :: p) v c) as [c'|]; [|discriminate].
        injection H as <-. cbn [lookup]. now rewrite E.
Qed.

(** The sweep of a tree takes away files named [.gitkeep] and nothing else. *)
Lemma sweep_node_keeps (q : list str) (n n' : node) :
  sweep_node n = Some n' ->
  is_dir q n' = is_dir q n
  /\ (forall c, lookup q n' = Some (File c) -> lookup q n = Some (File c))
  /\ (forall c, lookup q n = Some (File c) -> last q [] <> gitkeep ->
                lookup q n' = Some (File c)).
Proof.
  revert n n'. induction q as [|k q IH]; intros n n' H.
  - destruct n as [c | es].
    + injection H as <-. repeat split; auto.
    + apply sweep_node_dir in H as (es' & -> & _ & _).
      unfold is_dir. cbn [lookup]. repeat split; intros; discriminate.
  - destruct n as [c | es].
    + injection H as <-. repeat split; auto.
    + apply sweep_node_dir in H as (es' & -> & H & Hfile).
      unfold is_dir. cbn [lookup].
      apply sweep_entries_spec in H as (_ & Ha & Hw).
      rewrite (Ha k). destruct (unlinks_marker es && str_eqb k gitkeep) eqn:E.
      * apply andb_true_iff in E as [Eu Ek]. apply str_eqb_eq in Ek. subst k.
        specialize (Hfile Eu). unfold is_dir in Hfile. cbn [lookup] in Hfile.
        destruct (assoc gitkeep es) as [[c | d]|]; try discriminate.
        -- destruct q as [|k q]; cbn [lookup].
           ++ split; [reflexivity|]. split; [discriminate|].
              intros c0 _ Hl. now contradiction Hl.
           ++ repeat split; intros; discriminate.
        -- repeat split; intros; discriminate.
      * destruct (assoc k es) as [c|] eqn:Ec.
        -- destruct (sweep_node c) as [c'|] eqn:Es; [|exfalso; exact (Hw k c Ec E Es)].
           destruct (IH c c' Es) as (Hd & Hb & Hf).
           split; [exact Hd|]. split; [exact Hb|].
           intros c0 Hl Hlast. apply Hf; [exact Hl|].
           destruct q as [|k2 q]; [discriminate | exact Hlast].
        -- repeat split; intros; discriminate.
Qed.

Lemma last_app_nonempty (p r : list str) :
  r <> [] -> last (p ++ r) [] = last r [].
Proof.
  intros Hr. induction p as [|k p IH]; [reflexivity|].
  cbn [app]. rewrite <- IH. cbn [last].
  destruct (p ++ r) eqn:E; [|reflexivity].
  apply app_eq_nil in E as [_ E]. contradiction.
Qed.

(** The same, for a swept subtree put back in its place. *)
Lemma sweep_put_keeps (p : list str) (es : list (str * node)) (n' root root' : node)
      (q : list str) :
  lookup p root = Some (Dir es) ->
  sweep_node (Dir es) = Some n' ->
  put p n' root = Some root' ->
  is_dir q root' = is_dir q root
  /\ (forall c, lookup q root' = Some (File c) -> lookup q root = Some (File c))
  /\ (forall c, lookup q root = Some (File c) -> last q [] <> gitkeep ->
                lookup q root' = Some (File c)).
Proof.
  intros Hl Hs Hput.
  destruct (lookup_put_cases p n' root root' q Hput) as [(r & -> & Hr) | [[Hd Hd'] | He]].
  - destruct (sweep_node_keeps r (Dir es) n' Hs) as (H1 & H2 & H3).
    unfold is_dir in *. rewrite Hr, lookup_app, Hl.
    split; [exact H1|]. split; [exact H2|].
    intros c Hc Hlast. apply H3; [exact Hc|].
    destruct r as [|k r]; [discriminate|].
    rewrite last_app_nonempty in Hlast; [exact Hlast | discriminate].
  - unfold is_dir in *.
    destruct (lookup q root) as [[|]|]; try discriminate.
    destruct (lookup q root') as [[|]|]; try discriminate.
    repeat split; intros; discriminate.
  - unfold is_dir. rewrite He. repeat split; auto.
Qed.

Lemma sweep_continue (args : arguments) (sourcedir : str) (st st1 : state) :
  sweep args sourcedir st = Continue tt st1 ->
  exists p,
    resolve (fs st) (cwd st) (repodir args sourcedir) = Some p
    /\ is_dir p (fs st) = true
    /\ ((exists p2 es n' root',
           resolve (fs st) p (repodir args sourcedir) = Some p2
           /\ lookup p2 (fs st) = Some (Dir es)
           /\ sweep_node (Dir es) = Some n'
           /\ put p2 n' (fs st) = Some root'
           /\ st1 = with_fs root' (with_cwd p st))
        \/ st1 = with_cwd p st).
Proof.
  unfold sweep. intros H. bind_inv H. destruct a.
  unfold os_chdir in H0.
  destruct (resolve (fs st) (cwd st) (repodir args sourcedir)) as [p|] eqn:Er; [|discriminate].
  destruct (is_dir p (fs st)) eqn:Ed; [|discriminate].
  injection H0 as <-. unfold sweep_gitkeep in H. cbn [fs cwd with_cwd] in H.
  exists p. split; [reflexivity|]. split; [exact Ed|].
  destruct (resolve (fs st) p (repodir args sourcedir)) as [p2|] eqn:Er2;
    [|right; now injection H as <-].
  destruct (lookup p2 (fs st)) as [[c | es]|] eqn:El.
  - right. now injection H as <-.
  - left. destruct (sweep_node (Dir es)) as [n'|] eqn:Es; [|discriminate].
    destruct (put p2 n' (fs st)) as [root'|] eqn:Ep; [|discriminate].
    exists p2, es, n', root'. injection H as <-.
    split; [reflexivity|]. split; [exact El|]. split; [exact Es|].
    split; [exact Ep | reflexivity].
  - right. now injection H as <-.
Qed.

(** X8. A completed sweep creates no file and changes no content: every
    file found afterwards was there before with the same content, every
    file whose name is not [.gitkeep] is still there, the directories are
    the same, and neither the recorded calls nor the record of written
    files change. *)
Theorem sweep_removes_markers_only
        (args : arguments) (sourcedir : str) (st st1 : state) :
  sweep args sourcedir st = Continue tt st1 ->
  (forall q c, lookup q (fs st1) = Some (File c) -> lookup q (fs st) = Some (File c))
  /\ (forall q c, lookup q (fs st) = Some (File c) -> last q [] <> gitkeep ->
                  lookup q (fs st1) = Some (File c))
  /\ (forall q, is_dir q (fs st1) = is_dir q (fs st))
  /\ history st1 = history st
  /\ calls_of st1 = calls_of st.
Proof.
  intros H. apply sweep_continue in H as (p & _ & _ & H).
  destruct H as [(p2 & es & n' & root' & _ & Hl & Hs & Hput & ->) | ->].
  - cbn [fs with_fs with_cwd history].
    split; [intros q; exact (proj1 (proj2 (sweep_put_keeps p2 es n' _ _ q Hl Hs Hput)))|].
    split; [intros q; exact (proj2 (proj2 (sweep_put_keeps p2 es n' _ _ q Hl Hs Hput)))|].
    split; [intros q; exact (proj1 (sweep_put_keeps p2 es n' _ _ q Hl Hs Hput))|].
    split; reflexivity.
  - cbn [fs with_cwd history]. repeat split; auto.
Qed.

Lemma sweep_removes_markers_only_witness :
  exists st1,
    sweep (Example.args_of [DaqModule (lit "Foo")]) Example.sourcedir Example.after_module
    = Continue tt st1
    /\ (forall q c, lookup q (fs st1) = Some (File c) ->
                    lookup q (fs Example.after_module) = Some (File c))
    /\ (forall q c, lookup q (fs Example.after_module) = Some (File c) ->
                    last q [] <> gitkeep -> lookup q (fs st1) = Some (File c))
    /\ (forall q, is_dir q (fs st1) = is_dir q (fs Example.after_module))
    /\ history st1 = history Example.after_module
    /\ calls_of st1 = calls_of Example.after_module.
Proof.
  assert (H : exists st1,
             sweep (Example.args_of [DaqModule (lit "Foo")]) Example.sourcedir
               Example.after_module = Continue tt st1) by (eexists; vm_compute; reflexivity).
  destruct H as [st1 H]. exists st1. split; [exact H|].
  exact (sweep_removes_markers_only (Example.args_of [DaqModule (lit "Foo")])
           Example.sourcedir Example.after_module st1 H).
Defined.

(** ** A second sweep *)

Lemma unlinks_marker_swept (es es' : list (str * node)) :
  sweep_entries sweep_node (unlinks_marker es) es = Some es' ->
  unlinks_marker es' = false.
Proof.
  intros H. destruct (sweep_listing es es' H) as (Hnone & _ & _).
  unfold unlinks_marker.
  destruct (strs_eqb (names es') [gitkeep]) eqn:E; [reflexivity|].
  assert (Hne : names es' <> [gitkeep]).
  { intros Heq. apply strs_eqb_eq in Heq. congruence. }
  destruct (assoc gitkeep es') as [v|] eqn:Ea; [|reflexivity].
  exfalso. apply (Hnone Hne). apply assoc_in_names. now exists v.
Qed.

Lemma sweep_entries_fixed (u : bool) (es es' : list (str * node)) :
  Forall (fun e => forall c', sweep_node (snd e) = Some c' -> sweep_node c' = Some c') es ->
  sweep_entries sweep_node u es = Some es' ->
  sweep_entries sweep_node false es' = Some es'.
Proof.
  intros Hall. revert es'. induction Hall as [|[k c] es Hc Hall IH]; intros es'; cbn [sweep_entries].
  - now intros [= <-].
  - destruct (u && str_eqb k gitkeep); [apply IH|].
    destruct (sweep_node c) as [c'|] eqn:Ec; [|discriminate].
    destruct (sweep_entries sweep_node u es) as [l|]; [|discriminate].
    intros [= <-]. cbn [sweep_entries andb]. cbn [snd] in Hc.
    now rewrite (Hc c' Ec), (IH l eq_refl).
Qed.

Lemma sweep_node_fixed (n n' : node) :
  sweep_node n = Some n' -> sweep_node n' = Some n'.
Proof.
  revert n'. induction n as [c | es IH] using node_induction; intros n' H.
  - now injection H as <-.
  - apply sweep_node_dir in H as (es' & -> & H & _).
    cbn [sweep_node]. rewrite (unlinks_marker_swept es es' H).
    now rewrite (sweep_entries_fixed _ es es' IH H).
Qed.

Lemma set_entry_twice (k : str) (v v' : node) (es : list (str * node)) :
  set_entry k v (set_entry k v' es) = set_entry k v es.
Proof.
  induction es as [|[k2 v2] es IH]; cbn [set_entry].
  - now rewrite str_eqb_refl.
  - destruct (str_eqb k k2) eqn:E; cbn [set_entry].
    + now rewrite str_eqb_refl.
    + now rewrite E, IH.
Qed.

Lemma put_twice (p : list str) (v n n' : node) :
  put p v n = Some n' -> put p v n' = Some n'.
Proof.
  revert n n'. induction p as [|k p IH]; intros n n'; cbn [put].
  - now intros [= <-].
  - destruct n as [c | es]; [discriminate|].
    destruct p as [|k2 p].
    + intros [= <-]. now rewrite set_entry_twice.
    + destruct (assoc k es) as [c|]; [|discriminate].
      destruct (put (k2 :: p) v c) as [c'|] eqn:Ep; [|discriminate].
      intros [= <-]. rewrite assoc_set_same, (IH c c' Ep). now rewrite set_entry_twice.
Qed.

(** X9. The sweep is idempotent: a sweep that completes leaves a state in
    which a second sweep completes and changes nothing (after a sweep no
    directory holds a marker next to other entries). *)
Theorem sweep_again_changes_nothing
        (args : arguments) (sourcedir : str) (st st1 : state) :
  absolute sourcedir = true ->
  sweep args sourcedir st = Continue tt st1 ->
  sweep args sourcedir st1 = Continue tt st1.
Proof.
  intros Habs H. unfold sweep in H. bind_inv H. destruct a.
  unfold os_chdir in H0.
  destruct (resolve (fs st) (cwd st) (repodir args sourcedir)) as [p|] eqn:Er; [|discriminate].
  destruct (is_dir p (fs st)) eqn:Ed; [|discriminate].
  injection H0 as <-. unfold sweep_gitkeep in H. cbn [fs cwd with_cwd] in H.
  rewrite (resolve_absolute (fs st) p (cwd st) _ (repodir_absolute args sourcedir Habs)) in H.
  rewrite Er in H. unfold is_dir in Ed.
  destruct (lookup p (fs st)) as [[c | es]|] eqn:El; try discriminate.
  destruct (sweep_node (Dir es)) as [n'|] eqn:Es; [|discriminate].
  destruct (put p n' (fs st)) as [root'|] eqn:Ep; [|discriminate].
  injection H as <-.
  assert (Hdirs : forall q, is_dir q root' = is_dir q (fs st))
    by (intros q; exact (proj1 (sweep_put_keeps p es n' _ _ q El Es Ep))).
  assert (Hres : forall d, resolve root' d (repodir args sourcedir) = Some p).
  { intros d. rewrite (resolve_ext (fs st) root' d _ Hdirs).
    now rewrite (resolve_absolute (fs st) d (cwd st) _ (repodir_absolute args sourcedir Habs)). }
  assert (Hl : lookup p root' = Some n') by exact (lookup_put_same _ _ _ _ Ep).
  destruct (sweep_node_dir es n' Es) as (es' & -> & _ & _).
  assert (Hchdir : os_chdir (repodir args sourcedir) (with_fs root' (with_cwd p st))
                   = Continue tt (with_fs root' (with_cwd p st))).
  { unfold os_chdir, is_dir. cbn [fs cwd with_fs with_cwd]. now rewrite Hres, Hl. }
  unfold sweep. rewrite (bind_step _ _ _ _ _ Hchdir).
  unfold sweep_gitkeep. cbn [fs cwd with_fs with_cwd].
  rewrite Hres, Hl, (sweep_node_fixed (Dir es) (Dir es') Es), (put_twice _ _ _ _ Ep).
  reflexivity.
Qed.

Lemma sweep_again_changes_nothing_witness :
  exists st1,
    sweep (Example.args_of [DaqModule (lit "Foo")]) Example.sourcedir Example.after_module
    = Continue tt st1
    /\ sweep (Example.args_of [DaqModule (lit "Foo")]) Example.sourcedir st1 = Continue tt st1.
Proof.
  assert (H : exists st1,
             sweep (Example.args_of [DaqModule (lit "Foo")]) Example.sourcedir
               Example.after_module = Continue tt st1) by (eexists; vm_compute; reflexivity).
  destruct H as [st1 H]. exists st1. split; [exact H|].
  exact (sweep_again_changes_nothing (Example.args_of [DaqModule (lit "Foo")])
           Example.sourcedir Example.after_module st1 eq_refl H).
Defined.

(** ** Fatal errors and cleanup *)

Lemma never_exits_clean {A} (m : M A) : never_exits m -> exits_clean m.
Proof.
  intros H st. specialize (H st). unfold cleaned_up. now destruct (m st).
Qed.

Lemma never_exits_ret {A} (a : A) : never_exits (ret a).
Proof. intros st. exact I. Qed.

Lemma never_exits_bind {A B} (m : M A) (k : A -> M B) :
  never_exits m -> (forall a, never_exits (k a)) -> never_exits (bind m k).
Proof.
  intros Hm Hk st. unfold bind. specialize (Hm st).
  destruct (m st) as [a st1 | e st1 | st1 |]; auto. apply Hk.
Qed.

Lemma never_exits_for_each {A} (l : list A) (body : A -> M unit) :
  (forall x, never_exits (body x)) -> never_exits (for_each l body).
Proof.
  intros H. induction l as [|x l IH]; cbn [for_each].
  - apply never_exits_ret.
  - apply never_exits_bind; [apply H | intros _; exact IH].
Qed.

Lemma exits_clean_bind {A B} (m : M A) (k : A -> M B) :
  exits_clean m -> (forall a, exits_clean (k a)) -> exits_clean (bind m k).
Proof.
  intros Hm Hk st. unfold bind. specialize (Hm st).
  destruct (m st) as [a st1 | e st1 | st1 |]; auto. apply Hk.
Qed.

Lemma exits_clean_for_each {A} (l : list A) (body : A -> M unit) :
  (forall x, exits_clean (body x)) -> exits_clean (for_each l body).
Proof.
  intros H. induction l as [|x l IH]; cbn [for_each].
  - apply never_exits_clean, never_exits_ret.
  - apply exits_clean_bind; [apply H | intros _; exact IH].
Qed.

Ltac never_exits_prim :=
  let st := fresh "st" in
  intros st;
  repeat match goal with
         | |- context [match ?x with _ => _ end] =>
             lazymatch x with
             | context [match _ with _ => _ end] => fail
             | _ => destruct x
             end
         end; exact I.

Lemma never_exits_os_path_exists (path : str) : never_exits (os_path_exists path).
Proof. intros st. exact I. Qed.

Lemma never_exits_os_listdir (path : str) : never_exits (os_listdir path).
Proof. unfold os_listdir. never_exits_prim. Qed.

Lemma never_exits_os_chdir (path : str) : never_exits (os_chdir path).
Proof. unfold os_chdir. never_exits_prim. Qed.

Lemma never_exits_os_makedirs (path : str) : never_exits (os_makedirs path).
Proof. unfold os_makedirs. never_exits_prim. Qed.

Lemma never_exits_write_file (path content : str) : never_exits (write_file path content).
Proof. unfold write_file. never_exits_prim. Qed.

Lemma never_exits_shutil_rmtree (path : str) : never_exits (shutil_rmtree path).
Proof. unfold shutil_rmtree. never_exits_prim. Qed.

Lemma never_exits_sweep_gitkeep (path : str) : never_exits (sweep_gitkeep path).
Proof. unfold sweep_gitkeep. never_exits_prim. Qed.

Lemma never_exits_assert_false {A} : never_exits (@assert_false A).
Proof. intros st. exact I. Qed.

Lemma never_exits_raise {A} : never_exits (@raise A).
Proof. intros st. exact I. Qed.

Lemma never_exits_popen (shell : str -> list str -> node -> Z * node) (cmd : str) :
  never_exits (popen shell cmd).
Proof. intros st. unfold popen. now destruct (shell cmd (cwd st) (fs st)). Qed.

Lemma never_exits_read_template (template : str -> option str) (name : str) :
  never_exits (read_template template name).
Proof.
  unfold read_template. destruct (template name);
    [apply never_exits_ret | apply never_exits_raise].
Qed.

Lemma never_exits_shutil_copyfile (template : str -> option str) (name dest : str) :
  never_exits (shutil_copyfile template name dest).
Proof.
  apply never_exits_bind; [apply never_exits_read_template|].
  intros text. apply never_exits_write_file.
Qed.

Lemma never_exits_cleanup (args : arguments) (repodir : str) :
  never_exits (cleanup args repodir).
Proof.
  apply never_exits_bind; [apply never_exits_os_path_exists|].
  intros [|]; [|apply never_exits_assert_false].
  destruct (re_search (cleanup_re (package args)) repodir);
    [apply never_exits_shutil_rmtree | apply never_exits_assert_false].
Qed.

Lemma never_exits_make_package_dir (dirname : str) : never_exits (make_package_dir dirname).
Proof.
  apply never_exits_bind; [apply never_exits_os_makedirs|]. intros _.
  apply never_exits_bind; [apply never_exits_os_path_exists|].
  intros [|]; cbn [negb]; [apply never_exits_ret | apply never_exits_write_file].
Qed.

Lemma never_exits_repo_not_empty (args : arguments) (sourcedir : str) :
  never_exits (repo_not_empty args sourcedir).
Proof.
  apply never_exits_bind; [apply never_exits_os_listdir|]. intros l1.
  destruct (negb (strs_eqb l1 [lit ".git"])); [|apply never_exits_ret].
  apply never_exits_bind; [apply never_exits_os_listdir|]. intros l2.
  destruct (negb (strs_eqb (sorted l2) [lit ".git"; lit "README.md"])); [|apply never_exits_ret].
  apply never_exits_bind; [apply never_exits_os_listdir|]. intros l3.
  apply never_exits_ret.
Qed.

Lemma never_exits_dest_filename_of (args : arguments) (sourcedir module src : str) :
  never_exits (dest_filename_of args sourcedir module src).
Proof.
  unfold dest_filename_of.
  destruct (str_in (path_suffix src) [lit ".hpp"; lit ".cpp"]); [apply never_exits_ret|].
  destruct (str_in (path_suffix src) [lit ".jsonnet"]);
    [apply never_exits_ret | apply never_exits_assert_false].
Qed.

Lemma never_exits_instantiate (args : arguments) (sourcedir : str)
      (template : str -> option str) (module src : str) :
  never_exits (instantiate args sourcedir template module src).
Proof.
  apply never_exits_bind; [apply never_exits_dest_filename_of|]. intros dest.
  apply never_exits_bind; [apply never_exits_shutil_copyfile|]. intros _.
  apply never_exits_bind; [apply never_exits_read_template|]. intros text.
  apply never_exits_write_file.
Qed.

Lemma never_exits_sweep (args : arguments) (sourcedir : str) :
  never_exits (sweep args sourcedir).
Proof.
  apply never_exits_bind; [apply never_exits_os_chdir|]. intros _.
  apply never_exits_sweep_gitkeep.
Qed.

Lemma never_exits_write_cmakelists (args : arguments) (cmakelists_time : str) :
  never_exits (write_cmakelists args cmakelists_time).
Proof.
  intros st. unfold write_cmakelists. apply never_exits_write_file.
Qed.

(** The pattern of every error before the last stage: cleanup, then [error]. *)
Lemma exits_clean_cleanup_error {A} (args : arguments) (repodir : str) (e : fatal) :
  exits_clean (cleanup args repodir ;; @error A e).
Proof.
  intros st. unfold bind.
  assert (Hn := never_exits_cleanup args repodir st).
  destruct (cleanup args repodir st) as [[] st1 | e1 st1 | st1 |] eqn:E;
    [|contradiction | exact I | exact I].
  apply cleanup_continue in E as (p & root' & _ & _ & Hl & ->).
  unfold error, cleaned_up. right. exists (history st), p. split; [reflexivity | exact Hl].
Qed.

Lemma exits_clean_guard (c : bool) (args : arguments) (repodir : str) (e : fatal) :
  exits_clean (if c then cleanup args repodir ;; error e else ret tt).
Proof.
  destruct c; [apply exits_clean_cleanup_error | apply never_exits_clean, never_exits_ret].
Qed.

Ltac exits_step :=
  first
    [ apply exits_clean_guard
    | apply never_exits_clean;
      first [ apply never_exits_make_package_dir
            | apply never_exits_shutil_copyfile
            | apply never_exits_read_template
            | apply never_exits_write_file
            | apply never_exits_os_chdir
            | apply never_exits_os_path_exists
            | apply never_exits_popen
            | apply never_exits_ret
            | (intros ?; exact I) ] ].

Lemma exits_clean_post_clone_check (args : arguments) (sourcedir : str) :
  exits_clean (post_clone_check args sourcedir).
Proof.
  apply exits_clean_bind; [exits_step|]. intros _.
  apply exits_clean_bind; [apply never_exits_clean, never_exits_repo_not_empty|].
  intros bad. apply exits_clean_guard.
Qed.

Lemma exits_clean_daq_module (args : arguments) (sourcedir : str)
      (template : str -> option str) (module : str) :
  exits_clean (daq_module args sourcedir template module).
Proof.
  apply exits_clean_bind; [apply exits_clean_guard|]. intros _.
  apply exits_clean_bind; [exits_step|]. intros _.
  apply exits_clean_bind; [exits_step|]. intros _.
  apply exits_clean_bind; [exits_step|]. intros _.
  apply never_exits_clean, never_exits_for_each. intros src.
  apply never_exits_instantiate.
Qed.

Lemma exits_clean_application (args : arguments) (sourcedir : str)
      (template : str -> option str) (subdir : str) (e : str -> fatal) (keyword app : str) :
  exits_clean (application args sourcedir template subdir e keyword app).
Proof.
  apply exits_clean_bind; [apply exits_clean_guard|]. intros _.
  apply exits_clean_bind; [exits_step|]. intros text.
  apply exits_clean_bind; [exits_step|]. intros _.
  exits_step.
Qed.

Lemma exits_clean_scaffold (args : arguments) (sourcedir : str)
      (template : str -> option str) (readme_time : str)
      (shell : str -> list str -> node -> Z * node) :
  exits_clean (scaffold args sourcedir template readme_time shell).
Proof.
  unfold scaffold.
  apply exits_clean_bind; [|intros _].
  { unfold main_library_block. destruct (contains_main_library args); [|exits_step].
    do 2 (apply exits_clean_bind; [exits_step | intros _]). exits_step. }
  apply exits_clean_bind; [|intros _].
  { unfold python_bindings_block. destruct (contains_python_bindings args); [|exits_step].
    do 2 (apply exits_clean_bind; [exits_step | intros _]).
    apply exits_clean_for_each. intros src. exits_step. }
  apply exits_clean_bind; [|intros _].
  { unfold daq_modules_block. destruct (given (daq_modules args)); [|exits_step].
    apply exits_clean_bind; [|intros _].
    { apply exits_clean_for_each. intros f. destruct (template f); exits_step. }
    apply exits_clean_bind; [|intros _].
    { apply exits_clean_for_each. intros pkg. exits_step. }
    do 3 (apply exits_clean_bind; [exits_step | intros _]).
    apply exits_clean_for_each. intros module. apply exits_clean_daq_module. }
  apply exits_clean_bind; [|intros _].
  { unfold user_apps_block. destruct (given (user_apps args)); [|exits_step].
    apply exits_clean_bind; [exits_step | intros _].
    apply exits_clean_for_each. intros app. apply exits_clean_application. }
  apply exits_clean_bind; [|intros _].
  { unfold test_apps_block. destruct (given (test_apps args)); [|exits_step].
    apply exits_clean_bind; [exits_step | intros _].
    apply exits_clean_for_each. intros app. apply exits_clean_application. }
  apply exits_clean_bind; [|intros _].
  { unfold unittest_block.
    do 3 (apply exits_clean_bind; [exits_step | intros _]). exits_step. }
  apply exits_clean_bind; [|intros _].
  { unfold docs_block.
    apply exits_clean_bind; [exits_step | intros _].
    apply exits_clean_bind; [exits_step | intros present].
    destruct (negb present); [exits_step|].
    apply exits_clean_bind; [exits_step | intros _].
    apply exits_clean_bind; [exits_step | intros retval].
    apply exits_clean_guard. }
  unfold cmake_config_block.
  apply exits_clean_bind; [exits_step | intros _].
  apply exits_clean_bind; [exits_step | intros retval].
  apply exits_clean_guard.
Qed.

Lemma exits_clean_commit (args : arguments) (command : str)
      (shell : str -> list str -> node -> Z * node) :
  exits_clean (commit args command shell).
Proof.
  unfold commit.
  apply exits_clean_bind; [exits_step | intros retval].
  apply exits_clean_bind; [|intros _].
  { destruct (negb (retval =? 0)%Z); [|exits_step]. intros st. now left. }
  apply exits_clean_bind; [exits_step | intros retval2].
  destruct (negb (retval2 =? 0)%Z); [|exits_step]. intros st. now left.
Qed.

(** X10. Every fatal error of a run, except the two of the last stage
    ([git add] and [git commit]), is raised right after the cleanup has
    removed a tree: the last recorded action is a removal and nothing is
    left at the removed location. *)
Theorem fatal_errors_follow_cleanup
        (args : arguments) (sourcedir : str) (template : str -> option str)
        (readme_time cmakelists_time command : str)
        (shell : str -> list str -> node -> Z * node) (st : state) (e : fatal) (st' : state) :
  main args sourcedir template readme_time cmakelists_time command shell st = Exited e st' ->
  final_stage_error e = false ->
  exists earlier p,
    history st' = earlier ++ [Removed p] /\ lookup p (fs st') = None.
Proof.
  intros H He.
  assert (Hc : exits_clean
                 (main args sourcedir template readme_time cmakelists_time command shell)).
  { unfold main.
    apply exits_clean_bind; [apply exits_clean_post_clone_check | intros _].
    apply exits_clean_bind; [apply exits_clean_scaffold | intros _].
    apply exits_clean_bind;
      [apply never_exits_clean, never_exits_write_cmakelists | intros _].
    apply exits_clean_bind; [apply never_exits_clean, never_exits_sweep | intros _].
    apply exits_clean_commit. }
  specialize (Hc st). rewrite H in Hc. cbn [cleaned_up] in Hc.
  destruct Hc as [Hc | Hc]; [congruence | exact Hc].
Qed.

Lemma fatal_errors_follow_cleanup_witness :
  exists st',
    main (Example.args_of [DaqModule (lit "Good"); DaqModule (lit "bad_name")])
      Example.sourcedir Example.template (lit "2021-07-01") (lit "2021-07-01")
      (lit "create_dunedaq_package.py -d Good -d bad_name dune") Example.shell Example.start
    = Exited (ModuleNotPascalCase (lit "bad_name")) st'
    /\ exists earlier p,
        history st' = earlier ++ [Removed p] /\ lookup p (fs st') = None.
Proof.
  assert (H : exists st',
             main (Example.args_of [DaqModule (lit "Good"); DaqModule (lit "bad_name")])
               Example.sourcedir Example.template (lit "2021-07-01") (lit "2021-07-01")
               (lit "create_dunedaq_package.py -d Good -d bad_name dune") Example.shell
               Example.start
             = Exited (ModuleNotPascalCase (lit "bad_name")) st')
    by (eexists; vm_compute; reflexivity).
  destruct H as [st' H]. exists st'. split; [exact H|].
  exact (fatal_errors_follow_cleanup
           (Example.args_of [DaqModule (lit "Good"); DaqModule (lit "bad_name")])
           Example.sourcedir Example.template (lit "2021-07-01") (lit "2021-07-01")
           (lit "create_dunedaq_package.py -d Good -d bad_name dune") Example.shell
           Example.start (ModuleNotPascalCase (lit "bad_name")) st' H eq_refl).
Defined.

(** ** Missing templates *)

(** X11. With module names on the command line and one of the templates
    [RenameMe.hpp] and [RenameMe.cpp] missing, the modules block fails its
    assertion before anything else: the state is untouched (no call
    recorded, no directory made) and no cleanup is run. *)
Theorem missing_plugin_template_fails_the_assertion
        (args : arguments) (sourcedir : str) (template : str -> option str) (st : state) :
  given (daq_modules args) = true ->
  template (lit "RenameMe.hpp") = None \/ template (lit "RenameMe.cpp") = None ->
  daq_modules_block args sourcedir template st = AssertionFailed st.
Proof.
  intros Hg H. unfold daq_modules_block. rewrite Hg. cbn [for_each].
  unfold bind at 1. unfold bind at 1.
  destruct (template (lit "RenameMe.hpp")) as [hpp|].
  - destruct H as [H | H]; [discriminate|].
    unfold ret at 1. unfold bind at 1. now rewrite H.
  - reflexivity.
Qed.

Lemma missing_plugin_template_fails_the_assertion_witness :
  daq_modules_block (Example.args_of [DaqModule (lit "Foo")]) Example.sourcedir no_templates
    Example.start
  = AssertionFailed Example.start.
Proof.
  exact (missing_plugin_template_fails_the_assertion
           (Example.args_of [DaqModule (lit "Foo")]) Example.sourcedir no_templates
           Example.start eq_refl (or_introl eq_refl)).
Defined.

Ltac innermost_cases :=
  repeat match goal with
         | |- context [match ?x with _ => _ end] =>
             lazymatch x with
             | context [match _ with _ => _ end] => fail
             | _ => destruct x
             end
         end.

Lemma instantiate_completes_or_raises (args : arguments) (sourcedir : str)
      (template : str -> option str) (module src : str) :
  In src module_templates ->
  completes_or_raises (instantiate args sourcedir template module src).
Proof.
  intros Hin st. unfold instantiate.
  destruct (dest_filename_of_templates args sourcedir module src st Hin) as [dest Hd].
  rewrite (bind_step _ _ _ _ _ Hd).
  unfold shutil_copyfile, read_template.
  destruct (template src) as [text|]; [|exact I].
  unfold bind at 1. unfold bind at 1. unfold ret at 1.
  unfold write_file at 1.
  destruct (resolve (fs st) (cwd st) dest) as [p|]; [|exact I].
  destruct (lookup p (fs st)) as [[c | es]|]; try exact I;
    (destruct (put p (File text) (fs st)) as [root|]; [|exact I]);
    unfold bind, ret, write_file; innermost_cases; exact I.
Qed.

Lemma instantiate_missing (args : arguments) (sourcedir : str)
      (template : str -> option str) (module src : str) (st : state) :
  In src module_templates -> template src = None ->
  instantiate args sourcedir template module src st = Raised.
Proof.
  intros Hin Hnone. unfold instantiate.
  destruct (dest_filename_of_templates args sourcedir module src st Hin) as [dest Hd].
  rewrite (bind_step _ _ _ _ _ Hd).
  unfold shutil_copyfile, read_template. now rewrite Hnone.
Qed.

Lemma raised_later {A B} (m : M A) (k : A -> M B) (st : state) :
  completes_or_raises m -> (forall a st1, k a st1 = Raised) -> bind m k st = Raised.
Proof.
  intros Hm Hk. unfold bind. specialize (Hm st).
  destruct (m st) as [a st1 | e st1 | st1 |]; try contradiction; [apply Hk | reflexivity].
Qed.

Lemma raised_now {A B} (m : M A) (k : A -> M B) (st : state) :
  m st = Raised -> bind m k st = Raised.
Proof. intros H. unfold bind. now rewrite H. Qed.



(** ** The working directory of the scaffold *)

Lemma grows_ret {A} (a : A) : grows (ret a).
Proof. intros st b st' [= _ <-]. split; [reflexivity | auto]. Qed.

Lemma grows_bind {A B} (m : M A) (k : A -> M B) :
  grows m -> (forall a, grows (k a)) -> grows (bind m k).
Proof.
  intros Hm Hk st b st' H. bind_inv H.
  destruct (Hm _ _ _ H0) as [Hc Hd]. destruct (Hk _ _ _ _ H) as [Hc' Hd'].
  split; [congruence | intros q Hq; apply Hd', Hd, Hq].
Qed.

Lemma grows_for_each {A} (l : list A) (body : A -> M unit) :
  (forall x, grows (body x)) -> grows (for_each l body).
Proof.
  intros H. induction l as [|x l IH]; cbn [for_each].
  - apply grows_ret.
  - apply grows_bind; [apply H | intros _; exact IH].
Qed.

Lemma grows_then_error {A B} (m : M A) (e : fatal) : grows (m ;; @error B e).
Proof. intros st b st' H. bind_inv H. discriminate. Qed.

Lemma grows_guard (c : bool) (args : arguments) (repodir : str) (e : fatal) :
  grows (if c then cleanup args repodir ;; error e else ret tt).
Proof. destruct c; [apply grows_then_error | apply grows_ret]. Qed.

Lemma grows_os_path_exists (path : str) : grows (os_path_exists path).
Proof. intros st b st' [= _ <-]. split; [reflexivity | auto]. Qed.

Lemma grows_os_makedirs (path : str) : grows (os_makedirs path).
Proof.
  intros st [] st' H. apply os_makedirs_continue in H as (_ & root' & Hmk & ->).
  split; [reflexivity | exact (makedirs_from_mono _ _ _ _ Hmk)].
Qed.

Lemma grows_write_file (path content : str) : grows (write_file path content).
Proof.
  intros st [] st' H. apply write_file_continue in H as (p & root' & _ & Hnd & Hput & ->).
  split; [reflexivity|]. intros q. exact (is_dir_put _ _ _ _ q Hput Hnd).
Qed.

Lemma grows_read_template (template : str -> option str) (name : str) :
  grows (read_template template name).
Proof.
  unfold read_template. destruct (template name); [apply grows_ret|].
  intros st a st' H. discriminate.
Qed.

Lemma grows_shutil_copyfile (template : str -> option str) (name dest : str) :
  grows (shutil_copyfile template name dest).
Proof.
  apply grows_bind; [apply grows_read_template | intros text; apply grows_write_file].
Qed.

Lemma grows_make_package_dir (dirname : str) : grows (make_package_dir dirname).
Proof.
  apply grows_bind; [apply grows_os_makedirs | intros _].
  apply grows_bind; [apply grows_os_path_exists | intros present].
  destruct (negb present); [apply grows_write_file | apply grows_ret].
Qed.

Ltac grows_append := intros st b st' [= _ <-]; split; [reflexivity | auto].

Lemma grows_append_find_package_call (l : str) : grows (append_find_package_call l).
Proof. grows_append. Qed.

Lemma grows_append_daq_codegen_call (l : str) : grows (append_daq_codegen_call l).
Proof. grows_append. Qed.

Lemma grows_append_daq_add_library_call (l : str) : grows (append_daq_add_library_call l).
Proof. grows_append. Qed.

Lemma grows_append_daq_add_python_bindings_call (l : str) :
  grows (append_daq_add_python_bindings_call l).
Proof. grows_append. Qed.

Lemma grows_append_daq_add_plugin_call (l : str) : grows (append_daq_add_plugin_call l).
Proof. grows_append. Qed.

Lemma grows_append_daq_add_application_call (l : str) :
  grows (append_daq_add_application_call l).
Proof. grows_append. Qed.

Lemma grows_append_daq_add_unit_test_call (l : str) : grows (append_daq_add_unit_test_call l).
Proof. grows_append. Qed.

Ltac grows_step :=
  first
    [ apply grows_guard
    | apply grows_make_package_dir
    | apply grows_shutil_copyfile
    | apply grows_read_template
    | apply grows_write_file
    | apply grows_os_path_exists
    | apply grows_append_find_package_call
    | apply grows_append_daq_codegen_call
    | apply grows_append_daq_add_library_call
    | apply grows_append_daq_add_python_bindings_call
    | apply grows_append_daq_add_plugin_call
    | apply grows_append_daq_add_application_call
    | apply grows_append_daq_add_unit_test_call
    | apply grows_ret ].

Lemma grows_instantiate (args : arguments) (sourcedir : str)
      (template : str -> option str) (module src : str) :
  grows (instantiate args sourcedir template module src).
Proof.
  apply grows_bind; [|intros dest].
  { unfold dest_filename_of.
    destruct (str_in (path_suffix src) [lit ".hpp"; lit ".cpp"]); [apply grows_ret|].
    destruct (str_in (path_suffix src) [lit ".jsonnet"]); [apply grows_ret|].
    intros st a st' H. discriminate. }
  do 2 (apply grows_bind; [grows_step | intros ?]). grows_step.
Qed.

Lemma grows_daq_module (args : arguments) (sourcedir : str)
      (template : str -> option str) (module : str) :
  grows (daq_module args sourcedir template module).
Proof.
  do 4 (apply grows_bind; [grows_step | intros _]).
  apply grows_for_each. intros src. apply grows_instantiate.
Qed.

Lemma grows_application (args : arguments) (sourcedir : str)
      (template : str -> option str) (subdir : str) (e : str -> fatal) (keyword app : str) :
  grows (application args sourcedir template subdir e keyword app).
Proof.
  do 3 (apply grows_bind; [grows_step | intros ?]). grows_step.
Qed.

(** The blocks before the documentation grow the tree below a working
    directory they do not change. *)
Lemma grows_first_blocks (args : arguments) (sourcedir : str) (template : str -> option str) :
  grows (main_library_block args sourcedir ;;
         python_bindings_block args sourcedir template ;;
         daq_modules_block args sourcedir template ;;
         user_apps_block args sourcedir template ;;
         test_apps_block args sourcedir template ;;
         unittest_block args sourcedir template).
Proof.
  apply grows_bind; [|intros _].
  { unfold main_library_block. destruct (contains_main_library args); [|grows_step].
    do 2 (apply grows_bind; [grows_step | intros _]). grows_step. }
  apply grows_bind; [|intros _].
  { unfold python_bindings_block. destruct (contains_python_bindings args); [|grows_step].
    do 2 (apply grows_bind; [grows_step | intros _]).
    apply grows_for_each. intros src. grows_step. }
  apply grows_bind; [|intros _].
  { unfold daq_modules_block. destruct (given (daq_modules args)); [|grows_step].
    apply grows_bind; [|intros _].
    { apply grows_for_each. intros f. destruct (template f); [grows_step|].
      intros st a st' H. discriminate. }
    apply grows_bind; [|intros _].
    { apply grows_for_each. intros pkg. grows_step. }
    do 3 (apply grows_bind; [grows_step | intros _]).
    apply grows_for_each. intros module. apply grows_daq_module. }
  apply grows_bind; [|intros _].
  { unfold user_apps_block. destruct (given (user_apps args)); [|grows_step].
    apply grows_bind; [grows_step | intros _].
    apply grows_for_each. intros app. apply grows_application. }
  apply grows_bind; [|intros _].
  { unfold test_apps_block. destruct (given (test_apps args)); [|grows_step].
    apply grows_bind; [grows_step | intros _].
    apply grows_for_each. intros app. apply grows_application. }
  unfold unittest_block.
  do 3 (apply grows_bind; [grows_step | intros _]). grows_step.
Qed.

Lemma popen_cwd (shell : str -> list str -> node -> Z * node) (cmd : str)
      (st st' : state) (retval : Z) :
  popen shell cmd st = Continue retval st' -> cwd st' = cwd st.
Proof.
  unfold popen. destruct (shell cmd (cwd st) (fs st)) as [r root]. now intros [= _ <-].
Qed.

Lemma guard_continue (c : bool) (args : arguments) (repodir : str) (e : fatal)
      (st st' : state) (u : unit) :
  (if c then cleanup args repodir ;; error e else ret tt) st = Continue u st' -> st' = st.
Proof.
  destruct c; intros H; [bind_inv H; discriminate | now injection H as <-].
Qed.

Lemma docs_block_cwd (args : arguments) (sourcedir readme_time : str)
      (shell : str -> list str -> node -> Z * node) (st0 st st' : state) :
  absolute sourcedir = true ->
  resolve (fs st0) (cwd st0) (repodir args sourcedir) = Some (cwd st0) ->
  cwd st = cwd st0 ->
  (forall q, is_dir q (fs st0) = true -> is_dir q (fs st) = true) ->
  docs_block args sourcedir readme_time shell st = Continue tt st' ->
  cwd st' = cwd st0.
Proof.
  intros Habs Hrep Hcwd Hdirs H. unfold docs_block in H.
  apply bind_continue in H as ([] & s1 & Hmk & H).
  destruct (grows_make_package_dir _ _ _ _ Hmk) as [Hc1 Hd1].
  rewrite (bind_step _ _ _ _ _ (os_path_exists_eq _ _)) in H.
  destruct (negb _) in H.
  - destruct (grows_write_file _ _ _ _ _ H) as [Hc2 _]. congruence.
  - apply bind_continue in H as ([] & s2 & Hcd & H). unfold os_chdir in Hcd.
    assert (Hres : resolve (fs s1) (cwd s1) (repodir args sourcedir) = Some (cwd st0)).
    { rewrite Hc1, Hcwd. apply (resolve_mono (fs st0)); [|exact Hrep].
      intros q Hq. apply Hd1, Hdirs, Hq. }
    rewrite Hres in Hcd. destruct (is_dir (cwd st0) (fs s1)); [|discriminate].
    injection Hcd as <-.
    apply bind_continue in H as (retval & s3 & Hp & H).
    apply popen_cwd in Hp. apply guard_continue in H. subst st'. exact Hp.
Qed.

Lemma cmake_config_block_cwd (args : arguments) (sourcedir : str)
      (shell : str -> list str -> node -> Z * node) (st st' : state) :
  cmake_config_block args sourcedir shell st = Continue tt st' -> cwd st' = cwd st.
Proof.
  intros H. unfold cmake_config_block in H.
  apply bind_continue in H as ([] & s1 & Hmk & H).
  destruct (grows_make_package_dir _ _ _ _ Hmk) as [Hc1 _].
  apply bind_continue in H as (retval & s2 & Hp & H).
  apply popen_cwd in Hp. apply guard_continue in H. subst st'. congruence.
Qed.

Lemma scaffold_cwd (args : arguments) (sourcedir : str) (template : str -> option str)
      (readme_time : str) (shell : str -> list str -> node -> Z * node) (st st' : state) :
  absolute sourcedir = true ->
  resolve (fs st) (cwd st) (repodir args sourcedir) = Some (cwd st) ->
  scaffold args sourcedir template readme_time shell st = Continue tt st' ->
  cwd st' = cwd st.
Proof.
  intros Habs Hrep H. unfold scaffold in H.
  apply bind_continue in H as ([] & s1 & H1 & H).
  apply bind_continue in H as ([] & s2 & H2 & H).
  apply bind_continue in H as ([] & s3 & H3 & H).
  apply bind_continue in H as ([] & s4 & H4 & H).
  apply bind_continue in H as ([] & s5 & H5 & H).
  apply bind_continue in H as ([] & s6 & H6 & H).
  apply bind_continue in H as ([] & s7 & Hdocs & H).
  assert (Hfirst : (main_library_block args sourcedir ;;
                    python_bindings_block args sourcedir template ;;
                    daq_modules_block args sourcedir template ;;
                    user_apps_block args sourcedir template ;;
                    test_apps_block args sourcedir template ;;
                    unittest_block args sourcedir template) st = Continue tt s6).
  { rewrite (bind_step _ _ _ _ _ H1), (bind_step _ _ _ _ _ H2), (bind_step _ _ _ _ _ H3),
      (bind_step _ _ _ _ _ H4), (bind_step _ _ _ _ _ H5). exact H6. }
  destruct (grows_first_blocks args sourcedir template _ _ _ Hfirst) as [Hc Hd].
  apply (docs_block_cwd args sourcedir readme_time shell st s6 s7 Habs Hrep Hc Hd) in Hdocs.
  apply cmake_config_block_cwd in H. congruence.
Qed.

Lemma post_clone_check_continue (args : arguments) (sourcedir : str) (st st' : state) :
  post_clone_check args sourcedir st = Continue tt st' ->
  exists p,
    resolve (fs st) (cwd st) (repodir args sourcedir) = Some p
    /\ is_dir p (fs st) = true
    /\ st' = with_cwd p st.
Proof.
  intros H. unfold post_clone_check in H.
  apply bind_continue in H as ([] & s1 & Hcd & H). unfold os_chdir in Hcd.
  destruct (resolve (fs st) (cwd st) (repodir args sourcedir)) as [p|]; [|discriminate].
  destruct (is_dir p (fs st)) eqn:Ed; [|discriminate].
  injection Hcd as <-. exists p. split; [reflexivity|]. split; [exact Ed|].
  apply bind_continue in H as (bad & s2 & Hbad & H).
  apply guard_continue in H. subst st'.
  destruct (stat (fs (with_cwd p st)) (cwd (with_cwd p st)) (repodir args sourcedir))
    as [[c | es]|] eqn:Es.
  - unfold repo_not_empty, bind, os_listdir in Hbad. rewrite Es in Hbad. discriminate.
  - rewrite (repo_not_empty_eq args sourcedir _ es Es) in Hbad. now injection Hbad as _ <-.
  - unfold repo_not_empty, bind, os_listdir in Hbad. rewrite Es in Hbad. discriminate.
Qed.

Lemma resolve_relative_name (root : node) (cwd : list str) (name : str) (p : list str) :
  plain_name name = true -> absolute name = false ->
  resolve root cwd name = Some p -> p = cwd ++ [name].
Proof.
  intros Hname Hrel. destruct (plain_name_spec name Hname) as (H1 & H2 & H3).
  unfold resolve. destruct name as [|c name]; [discriminate|].
  unfold origin. unfold absolute in Hrel. rewrite Hrel.
  rewrite (split_on_plain slash (c :: name) H3). cbn [walk_path].
  destruct (is_dir cwd root); [|discriminate]. rewrite H1, H2. now intros [= <-].
Qed.

(** X13. The script writes [CMakeLists.txt] under a relative name; it lands
    at the top of the repository directory, because the working directory
    set on line 112 is still the same when the scaffold is done: the only
    later change of directory goes to the repository directory again, and
    until then the scaffold has only added to the tree. *)
Theorem cmakelists_lands_in_the_repository
        (args : arguments) (sourcedir : str) (template : str -> option str)
        (readme_time cmakelists_time command : str)
        (shell : str -> list str -> node -> Z * node) (st st_end : state) :
  absolute sourcedir = true ->
  main args sourcedir template readme_time cmakelists_time command shell st
  = Continue tt st_end ->
  exists p st1 st2,
    resolve (fs st) (cwd st) (repodir args sourcedir) = Some p
    /\ (post_clone_check args sourcedir ;;
        scaffold args sourcedir template readme_time shell) st = Continue tt st1
    /\ cwd st1 = p
    /\ write_cmakelists args cmakelists_time st1 = Continue tt st2
    /\ history st2 = history st1 ++ [Wrote (p ++ [lit "CMakeLists.txt"])]
    /\ lookup (p ++ [lit "CMakeLists.txt"]) (fs st2)
       = Some (File (cmakelists_text args cmakelists_time st1))
    /\ (sweep args sourcedir ;; commit args command shell) st2 = Continue tt st_end.
Proof.
  intros Habs H. unfold main in H.
  apply bind_continue in H as ([] & s0 & Hcheck & H).
  apply bind_continue in H as ([] & s1 & Hscaffold & H).
  apply bind_continue in H as ([] & s2 & Hwrite & H).
  destruct (post_clone_check_continue args sourcedir st s0 Hcheck) as (p & Hres & Hp & ->).
  assert (Hrep : resolve (fs (with_cwd p st)) (cwd (with_cwd p st)) (repodir args sourcedir)
                 = Some (cwd (with_cwd p st))).
  { cbn [fs cwd with_cwd].
    now rewrite (resolve_absolute (fs st) p (cwd st) _ (repodir_absolute args sourcedir Habs)). }
  assert (Hcwd := scaffold_cwd args sourcedir template readme_time shell _ _ Habs Hrep
                    Hscaffold).
  cbn [cwd with_cwd] in Hcwd.
  exists p, s1, s2. split; [exact Hres|].
  split; [now rewrite (bind_step _ _ _ _ _ Hcheck)|].
  split; [exact Hcwd|]. split; [exact Hwrite|].
  unfold write_cmakelists in Hwrite.
  apply write_file_continue in Hwrite as (q & root' & Hq & _ & Hput & ->).
  apply resolve_relative_name in Hq; [|reflexivity|reflexivity].
  rewrite Hcwd in Hq. subst q. cbn [fs history record with_fs].
  split; [reflexivity|]. split; [exact (lookup_put_same _ _ _ _ Hput) | exact H].
Qed.

Lemma cmakelists_lands_in_the_repository_witness :
  exists p st1 st2,
    resolve (fs Example.start) (cwd Example.start)
      (repodir (Example.args_of Example.argv) Example.sourcedir) = Some p
    /\ (post_clone_check (Example.args_of Example.argv) Example.sourcedir ;;
        scaffold (Example.args_of Example.argv) Example.sourcedir Example.template
          (lit "2021-06-01") Example.shell) Example.start = Continue tt st1
    /\ cwd st1 = p
    /\ write_cmakelists (Example.args_of Example.argv) (lit "2021-06-01") st1 = Continue tt st2
    /\ history st2 = history st1 ++ [Wrote (p ++ [lit "CMakeLists.txt"])]
    /\ lookup (p ++ [lit "CMakeLists.txt"]) (fs st2)
       = Some (File (cmakelists_text (Example.args_of Example.argv) (lit "2021-06-01") st1))
    /\ (sweep (Example.args_of Example.argv) Example.sourcedir ;;
        commit (Example.args_of Example.argv) (lit "create_dunedaq_package.py dune")
          Example.shell) st2 = Continue tt Example.finished.
Proof.
  assert (Hrun : main (Example.args_of Example.argv) Example.sourcedir Example.template
                   (lit "2021-06-01") (lit "2021-06-01")
                   (lit "create_dunedaq_package.py dune") Example.shell Example.start
                 = Continue tt Example.finished) by (vm_compute; reflexivity).
  exact (cmakelists_lands_in_the_repository (Example.args_of Example.argv) Example.sourcedir
           Example.template (lit "2021-06-01") (lit "2021-06-01")
           (lit "create_dunedaq_package.py dune") Example.shell Example.start
           Example.finished eq_refl Hrun).
Defined.

(** ** The python bindings *)

Lemma resolve_child_inv (root : node) (cwd : list str) (dir name : str) (q : list str) :
  dir <> [] -> plain_name name = true ->
  resolve root cwd (dir ++ slash :: name) = Some q ->
  exists p, resolve root cwd dir = Some p /\ is_dir p root = true /\ q = p ++ [name].
Proof.
  intros Hne Hname. apply plain_name_spec in Hname as (H1 & H2 & H3).
  unfold resolve. destruct dir as [|c dir]; [congruence|].
  change ((c :: dir) ++ slash :: name) with (c :: (dir ++ slash :: name)).
  cbv iota. change (origin cwd (c :: dir ++ slash :: name)) with (origin cwd (c :: dir)).
  change (c :: (dir ++ slash :: name)) with ((c :: dir) ++ slash :: name).
  rewrite split_on_app, walk_path_app, (split_on_plain slash name H3).
  destruct (walk_path root (origin cwd (c :: dir)) (split_on slash (c :: dir))) as [p|];
    [|discriminate].
  cbn [walk_path]. destruct (is_dir p root) eqn:Ed; [|discriminate].
  rewrite H1, H2. intros [= <-]. now exists p.
Qed.

(** What a copy into a directory leaves. *)
Lemma shutil_copyfile_into (template : str -> option str) (name dir : str)
      (st st' : state) :
  dir <> [] -> plain_name name = true ->
  shutil_copyfile template name (dir ++ slash :: name) st = Continue tt st' ->
  exists p text,
    resolve (fs st) (cwd st) dir = Some p
    /\ template name = Some text
    /\ lookup (p ++ [name]) (fs st') = Some (File text)
    /\ cwd st' = cwd st
    /\ (forall q, is_dir q (fs st') = is_dir q (fs st))
    /\ (forall q c, q <> p ++ [name] -> lookup q (fs st) = Some (File c) ->
                    lookup q (fs st') = Some (File c)).
Proof.
  intros Hne Hname H. unfold shutil_copyfile, read_template in H.
  destruct (template name) as [text|]; [|discriminate].
  rewrite (bind_step _ _ st st text eq_refl) in H.
  apply write_file_continue in H as (q & root' & Hq & Hnd & Hput & ->).
  destruct (resolve_child_inv _ _ _ _ _ Hne Hname Hq) as (p & Hp & Hd & ->).
  exists p, text. cbn [fs cwd record with_fs].
  split; [exact Hp|]. split; [reflexivity|].
  split; [exact (lookup_put_same _ _ _ _ Hput)|]. split; [reflexivity|].
  split.
  - intros q. destruct (is_dir q root') eqn:E.
    + symmetry. exact (is_dir_put_file_inv _ _ _ _ q Hput E).
    + destruct (is_dir q (fs st)) eqn:E'; [|reflexivity].
      rewrite (is_dir_put _ _ _ _ q Hput Hnd E') in E. discriminate.
  - intros q c Hq' Hl. apply (lookup_file_put _ _ _ _ q c Hput Hnd); [congruence | exact Hl].
Qed.

(** X14. When the python bindings block completes for a command line with
    [--python-bindings], the directory [pybindsrc] holds [module.cpp] and
    [renameme.cpp] with the very text of the templates: these two files are
    copied under their own names and no placeholder in them is replaced.
    One call of [daq_add_python_bindings] is recorded. *)
Theorem python_bindings_are_copied_verbatim
        (args : arguments) (sourcedir : str) (template : str -> option str)
        (st st' : state) :
  contains_python_bindings args = true ->
  python_bindings_block args sourcedir template st = Continue tt st' ->
  exists p module_text renameme_text,
    resolve (fs st') (cwd st') (repodir args sourcedir ++ lit "/pybindsrc") = Some p
    /\ template (lit "module.cpp") = Some module_text
    /\ template (lit "renameme.cpp") = Some renameme_text
    /\ lookup (p ++ [lit "module.cpp"]) (fs st') = Some (File module_text)
    /\ lookup (p ++ [lit "renameme.cpp"]) (fs st') = Some (File renameme_text)
    /\ exists call,
        calls_of st' = calls_app (calls_of st) (Calls [] [] [] [call] [] [] []).
Proof.
  intros Hflag H.
  assert (Hcalls := adds_python_bindings_block args sourcedir template _ _ _ H).
  rewrite Hflag in Hcalls.
  unfold python_bindings_block in H. rewrite Hflag in H.
  apply bind_continue in H as ([] & s1 & _ & H).
  apply bind_continue in H as ([] & s2 & _ & H).
  cbn [for_each] in H.
  apply bind_continue in H as ([] & s3 & Hmod & H).
  apply bind_continue in H as ([] & s4 & Hren & H).
  injection H as <-.
  assert (Hdir : repodir args sourcedir ++ lit "/pybindsrc" <> [])
    by (intros E; apply app_eq_nil in E as [_ E]; discriminate).
  replace (repodir args sourcedir ++ lit "/pybindsrc/" ++ lit "module.cpp")
    with ((repodir args sourcedir ++ lit "/pybindsrc") ++ slash :: lit "module.cpp")
    in Hmod by (now rewrite <- app_assoc).
  replace (repodir args sourcedir ++ lit "/pybindsrc/" ++ lit "renameme.cpp")
    with ((repodir args sourcedir ++ lit "/pybindsrc") ++ slash :: lit "renameme.cpp")
    in Hren by (now rewrite <- app_assoc).
  destruct (shutil_copyfile_into template (lit "module.cpp") _ s2 s3 Hdir eq_refl Hmod)
    as (p & t1 & Hp & Ht1 & Hl1 & Hc1 & Hd1 & _).
  destruct (shutil_copyfile_into template (lit "renameme.cpp") _ s3 s4 Hdir eq_refl Hren)
    as (p' & t2 & Hp' & Ht2 & Hl2 & Hc2 & Hd2 & Hf2).
  assert (Hsame : p' = p).
  { rewrite Hc1, (resolve_ext (fs s2) (fs s3) (cwd s2) _ Hd1) in Hp'. congruence. }
  subst p'. exists p, t1, t2.
  split.
  { rewrite Hc2, (resolve_ext (fs s3) (fs s4) (cwd s3) _ Hd2). exact Hp'. }
  split; [exact Ht1|]. split; [exact Ht2|].
  split.
  { apply Hf2; [|exact Hl1]. intros E. apply app_inv_head in E. discriminate. }
  split; [exact Hl2|].
  eexists. exact Hcalls.
Qed.

Lemma python_bindings_are_copied_verbatim_witness :
  exists st',
    python_bindings_block (Example.args_of [PythonBindings]) Example.sourcedir
      Example.template Example.start = Continue tt st'
    /\ exists p module_text renameme_text,
        resolve (fs st') (cwd st')
          (repodir (Example.args_of [PythonBindings]) Example.sourcedir ++ lit "/pybindsrc")
        = Some p
        /\ Example.template (lit "module.cpp") = Some module_text
        /\ Example.template (lit "renameme.cpp") = Some renameme_text
        /\ lookup (p ++ [lit "module.cpp"]) (fs st') = Some (File module_text)
        /\ lookup (p ++ [lit "renameme.cpp"]) (fs st') = Some (File renameme_text)
        /\ exists call,
            calls_of st'
            = calls_app (calls_of Example.start) (Calls [] [] [] [call] [] [] []).
Proof.
  assert (H : exists st',
             python_bindings_block (Example.args_of [PythonBindings]) Example.sourcedir
               Example.template Example.start = Continue tt st')
    by (eexists; vm_compute; reflexivity).
  destruct H as [st' H]. exists st'. split; [exact H|].
  exact (python_bindings_are_copied_verbatim (Example.args_of [PythonBindings])
           Example.sourcedir Example.template Example.start st' eq_refl H).
Defined.

(** ** Completed runs remove nothing *)

Lemma only_writes_ret {A} (a : A) : only_writes (ret a).
Proof. intros st b st' [= _ <-]. exists []. cbn [map]. now rewrite app_nil_r. Qed.

Lemma only_writes_bind {A B} (m : M A) (k : A -> M B) :
  only_writes m -> (forall a, only_writes (k a)) -> only_writes (bind m k).
Proof.
  intros Hm Hk st b st' H. apply bind_continue in H as (a & s1 & H1 & H).
  destruct (Hm _ _ _ H1) as [l1 E1]. destruct (Hk _ _ _ _ H) as [l2 E2].
  exists (l1 ++ l2). now rewrite E2, E1, map_app, app_assoc.
Qed.

Lemma only_writes_for_each {A} (l : list A) (body : A -> M unit) :
  (forall x, only_writes (body x)) -> only_writes (for_each l body).
Proof.
  intros H. induction l as [|x l IH]; cbn [for_each].
  - apply only_writes_ret.
  - apply only_writes_bind; [apply H | intros _; exact IH].
Qed.

Lemma only_writes_error {A} (e : fatal) : only_writes (@error A e).
Proof. intros st a st' H. discriminate. Qed.

Lemma only_writes_then_error {A B} (m : M A) (e : fatal) : only_writes (m ;; @error B e).
Proof. intros st b st' H. apply bind_continue in H as (a & s1 & _ & H). discriminate. Qed.

Lemma only_writes_guard (c : bool) (args : arguments) (repodir : str) (e : fatal) :
  only_writes (if c then cleanup args repodir ;; error e else ret tt).
Proof. destruct c; [apply only_writes_then_error | apply only_writes_ret]. Qed.

Ltac history_kept op :=
  let H := fresh "H" in
  intros ? ? ? H; unfold op in H;
  repeat match type of H with
         | context [match ?x with _ => _ end] => destruct x eqn:?
         | context [if ?x then _ else _] => destruct x eqn:?
         end;
  try discriminate; injection H as _ <-; exists []; cbn [map];
  now rewrite app_nil_r.

Lemma only_writes_os_path_exists (path : str) : only_writes (os_path_exists path).
Proof. history_kept os_path_exists. Qed.

Lemma only_writes_os_listdir (path : str) : only_writes (os_listdir path).
Proof. history_kept os_listdir. Qed.

Lemma only_writes_os_chdir (path : str) : only_writes (os_chdir path).
Proof. history_kept os_chdir. Qed.

Lemma only_writes_os_makedirs (path : str) : only_writes (os_makedirs path).
Proof. history_kept os_makedirs. Qed.

Lemma only_writes_sweep_gitkeep (path : str) : only_writes (sweep_gitkeep path).
Proof. history_kept sweep_gitkeep. Qed.

Lemma only_writes_popen (shell : str -> list str -> node -> Z * node) (cmd : str) :
  only_writes (popen shell cmd).
Proof. history_kept popen. Qed.

Lemma only_writes_append_find_package_call (l : str) :
  only_writes (append_find_package_call l).
Proof. history_kept append_find_package_call. Qed.

Lemma only_writes_append_daq_codegen_call (l : str) :
  only_writes (append_daq_codegen_call l).
Proof. history_kept append_daq_codegen_call. Qed.

Lemma only_writes_append_daq_add_library_call (l : str) :
  only_writes (append_daq_add_library_call l).
Proof. history_kept append_daq_add_library_call. Qed.

Lemma only_writes_append_daq_add_python_bindings_call (l : str) :
  only_writes (append_daq_add_python_bindings_call l).
Proof. history_kept append_daq_add_python_bindings_call. Qed.

Lemma only_writes_append_daq_add_plugin_call (l : str) :
  only_writes (append_daq_add_plugin_call l).
Proof. history_kept append_daq_add_plugin_call. Qed.

Lemma only_writes_append_daq_add_application_call (l : str) :
  only_writes (append_daq_add_application_call l).
Proof. history_kept append_daq_add_application_call. Qed.

Lemma only_writes_append_daq_add_unit_test_call (l : str) :
  only_writes (append_daq_add_unit_test_call l).
Proof. history_kept append_daq_add_unit_test_call. Qed.

Lemma only_writes_write_file (path content : str) : only_writes (write_file path content).
Proof.
  intros st [] st' H. apply write_file_continue in H as (p & root' & _ & _ & _ & ->).
  now exists [p].
Qed.

Lemma only_writes_read_template (template : str -> option str) (name : str) :
  only_writes (read_template template name).
Proof.
  unfold read_template. destruct (template name); [apply only_writes_ret|].
  intros st a st' H. discriminate.
Qed.

Lemma only_writes_shutil_copyfile (template : str -> option str) (name dest : str) :
  only_writes (shutil_copyfile template name dest).
Proof.
  apply only_writes_bind;
    [apply only_writes_read_template | intros text; apply only_writes_write_file].
Qed.

Lemma only_writes_make_package_dir (dirname : str) : only_writes (make_package_dir dirname).
Proof.
  apply only_writes_bind; [apply only_writes_os_makedirs | intros _].
  apply only_writes_bind; [apply only_writes_os_path_exists | intros present].
  destruct (negb present); [apply only_writes_write_file | apply only_writes_ret].
Qed.

Ltac writes_step :=
  first
    [ apply only_writes_guard
    | apply only_writes_make_package_dir
    | apply only_writes_shutil_copyfile
    | apply only_writes_read_template
    | apply only_writes_write_file
    | apply only_writes_os_path_exists
    | apply only_writes_os_listdir
    | apply only_writes_os_chdir
    | apply only_writes_popen
    | apply only_writes_sweep_gitkeep
    | apply only_writes_append_find_package_call
    | apply only_writes_append_daq_codegen_call
    | apply only_writes_append_daq_add_library_call
    | apply only_writes_append_daq_add_python_bindings_call
    | apply only_writes_append_daq_add_plugin_call
    | apply only_writes_append_daq_add_application_call
    | apply only_writes_append_daq_add_unit_test_call
    | apply only_writes_error
    | apply only_writes_ret ].

Lemma only_writes_post_clone_check (args : arguments) (sourcedir : str) :
  only_writes (post_clone_check args sourcedir).
Proof.
  apply only_writes_bind; [writes_step | intros _].
  apply only_writes_bind; [|intros bad; writes_step].
  apply only_writes_bind; [writes_step | intros l1].
  destruct (negb _); [|writes_step].
  apply only_writes_bind; [writes_step | intros l2].
  destruct (negb _); [|writes_step].
  apply only_writes_bind; [writes_step | intros l3]. writes_step.
Qed.

Lemma only_writes_instantiate (args : arguments) (sourcedir : str)
      (template : str -> option str) (module src : str) :
  only_writes (instantiate args sourcedir template module src).
Proof.
  apply only_writes_bind; [|intros dest].
  { unfold dest_filename_of.
    destruct (str_in (path_suffix src) [lit ".hpp"; lit ".cpp"]); [writes_step|].
    destruct (str_in (path_suffix src) [lit ".jsonnet"]); [writes_step|].
    intros st a st' H. discriminate. }
  do 2 (apply only_writes_bind; [writes_step | intros ?]). writes_step.
Qed.

Lemma only_writes_daq_module (args : arguments) (sourcedir : str)
      (template : str -> option str) (module : str) :
  only_writes (daq_module args sourcedir template module).
Proof.
  do 4 (apply only_writes_bind; [writes_step | intros _]).
  apply only_writes_for_each. intros src. apply only_writes_instantiate.
Qed.

Lemma only_writes_application (args : arguments) (sourcedir : str)
      (template : str -> option str) (subdir : str) (e : str -> fatal) (keyword app : str) :
  only_writes (application args sourcedir template subdir e keyword app).
Proof.
  do 3 (apply only_writes_bind; [writes_step | intros ?]). writes_step.
Qed.

Lemma only_writes_scaffold (args : arguments) (sourcedir : str)
      (template : str -> option str) (readme_time : str)
      (shell : str -> list str -> node -> Z * node) :
  only_writes (scaffold args sourcedir template readme_time shell).
Proof.
  unfold scaffold.
  apply only_writes_bind; [|intros _].
  { unfold main_library_block. destruct (contains_main_library args); [|writes_step].
    do 2 (apply only_writes_bind; [writes_step | intros _]). writes_step. }
  apply only_writes_bind; [|intros _].
  { unfold python_bindings_block. destruct (contains_python_bindings args); [|writes_step].
    do 2 (apply only_writes_bind; [writes_step | intros _]).
    apply only_writes_for_each. intros src. writes_step. }
  apply only_writes_bind; [|intros _].
  { unfold daq_modules_block. destruct (given (daq_modules args)); [|writes_step].
    apply only_writes_bind; [|intros _].
    { apply only_writes_for_each. intros f. destruct (template f); [writes_step|].
      intros st a st' H. discriminate. }
    apply only_writes_bind; [|intros _].
    { apply only_writes_for_each. intros pkg. writes_step. }
    do 3 (apply only_writes_bind; [writes_step | intros _]).
    apply only_writes_for_each. intros module. apply only_writes_daq_module. }
  apply only_writes_bind; [|intros _].
  { unfold user_apps_block. destruct (given (user_apps args)); [|writes_step].
    apply only_writes_bind; [writes_step | intros _].
    apply only_writes_for_each. intros app. apply only_writes_application. }
  apply only_writes_bind; [|intros _].
  { unfold test_apps_block. destruct (given (test_apps args)); [|writes_step].
    apply only_writes_bind; [writes_step | intros _].
    apply only_writes_for_each. intros app. apply only_writes_application. }
  apply only_writes_bind; [|intros _].
  { unfold unittest_block.
    do 3 (apply only_writes_bind; [writes_step | intros _]). writes_step. }
  apply only_writes_bind; [|intros _].
  { unfold docs_block.
    apply only_writes_bind; [writes_step | intros _].
    apply only_writes_bind; [writes_step | intros present].
    destruct (negb present); [writes_step|].
    apply only_writes_bind; [writes_step | intros _].
    apply only_writes_bind; [writes_step | intros retval]. writes_step. }
  unfold cmake_config_block.
  apply only_writes_bind; [writes_step | intros _].
  apply only_writes_bind; [writes_step | intros retval]. writes_step.
Qed.

Lemma only_writes_commit (args : arguments) (command : str)
      (shell : str -> list str -> node -> Z * node) :
  only_writes (commit args command shell).
Proof.
  unfold commit.
  apply only_writes_bind; [writes_step | intros retval].
  apply only_writes_bind; [destruct (negb _); writes_step | intros _].
  apply only_writes_bind; [writes_step | intros retval2].
  destruct (negb _); writes_step.
Qed.



(** ** The documentation directory *)

(** [make_package_dir] for a directory that does not exist yet, in an
    existing parent: the directory and its marker are made. *)
Lemma make_package_dir_fresh (parent name : str) (st : state) (p : list str) :
  resolve (fs st) (cwd st) parent = Some p ->
  is_dir p (fs st) = true ->
  plain_name name = true ->
  lookup (p ++ [name]) (fs st) = None ->
  exists root1 root2,
    put (p ++ [name]) (Dir []) (fs st) = Some root1
    /\ put ((p ++ [name]) ++ [gitkeep]) (File []) root1 = Some root2
    /\ make_package_dir (parent ++ slash :: name) st
       = Continue tt (record (Wrote ((p ++ [name]) ++ [gitkeep])) (with_fs root2 st)).
Proof.
  intros Hres Hp Hname Hnone.
  destruct (put_child p name (Dir []) (fs st) Hp) as [root1 Hput1].
  assert (Hl1 : lookup (p ++ [name]) root1 = Some (Dir []))
    by exact (lookup_put_same _ _ _ _ Hput1).
  assert (Hd1 : is_dir (p ++ [name]) root1 = true) by (unfold is_dir; now rewrite Hl1).
  assert (Hmono : forall q, is_dir q (fs st) = true -> is_dir q root1 = true).
  { intros q. apply (is_dir_put _ _ _ _ q Hput1). unfold is_dir. now rewrite Hnone. }
  destruct (put_child (p ++ [name]) gitkeep (File []) root1 Hd1) as [root2 Hput2].
  exists root1, root2. split; [exact Hput1|]. split; [exact Hput2|].
  assert (Hmk : makedirs_from (fs st) p [name] = Some root1).
  { destruct (plain_name_spec name Hname) as (H1 & H2 & _).
    cbn [makedirs_from]. now rewrite Hp, H1, H2, Hnone, Hput1, Hd1. }
  destruct parent as [|c parent]; [discriminate|].
  assert (Hmakedirs : os_makedirs ((c :: parent) ++ slash :: name) st
                      = Continue tt (with_fs root1 st)).
  { unfold os_makedirs.
    change ((c :: parent) ++ slash :: name) with (c :: (parent ++ slash :: name)).
    cbv iota. change (origin (cwd st) (c :: parent ++ slash :: name))
      with (origin (cwd st) (c :: parent)).
    change (c :: (parent ++ slash :: name)) with ((c :: parent) ++ slash :: name).
    destruct (plain_name_spec name Hname) as (_ & _ & H3).
    rewrite split_on_app, (split_on_plain slash name H3).
    unfold resolve in Hres.
    rewrite (makedirs_from_app _ _ _ [name] p (walk_dirs_along _ _ _ _ Hres Hp) Hres).
    now rewrite Hmk. }
  unfold make_package_dir. rewrite (bind_step _ _ _ _ _ Hmakedirs).
  rewrite (bind_step _ _ _ _ _ (os_path_exists_eq _ _)). cbn [fs cwd with_fs].
  assert (Hres1 : resolve root1 (cwd st) ((c :: parent) ++ slash :: name)
                  = Some (p ++ [name])).
  { apply resolve_child; [|now apply Hmono | assumption].
    exact (resolve_mono _ _ _ _ _ Hmono Hres). }
  assert (Hkeep : resolve root1 (cwd st) (((c :: parent) ++ slash :: name) ++ lit "/.gitkeep")
                  = Some ((p ++ [name]) ++ [gitkeep]))
    by exact (resolve_child root1 (cwd st) _ gitkeep _ Hres1 Hd1 eq_refl).
  unfold stat. rewrite Hkeep.
  assert (El : lookup ((p ++ [name]) ++ [gitkeep]) root1 = None)
    by (now rewrite lookup_app, Hl1).
  rewrite El. cbn [negb]. unfold write_file. cbn [fs cwd with_fs].
  now rewrite Hkeep, El, Hput2.
Qed.

(** A location that is neither at or below [p] nor a directory keeps what
    it holds when a node is stored at [p]. *)
Lemma lookup_put_other (p : list str) (v n n' : node) (q : list str) :
  put p v n = Some n' -> ~ below p q -> is_dir q n = false ->
  lookup q n' = lookup q n.
Proof.
  intros Hput Hb Hd.
  destruct (lookup_put_cases p v n n' q Hput) as [(r & -> & _) | [[Hd' _] | He]].
  - exfalso. apply Hb. now exists r.
  - congruence.
  - exact He.
Qed.

Lemma sibling_not_below (p : list str) (a b : str) (r : list str) :
  a <> b -> ~ below ((p ++ [a]) ++ r) (p ++ [b]).
Proof.
  intros Hne [x E]. rewrite <- !app_assoc in E. apply app_inv_head in E.
  cbn [app] in E. congruence.
Qed.

Lemma docs_block_without_readme (args : arguments) (sourcedir readme_time : str)
      (st : state) (p : list str) :
  resolve (fs st) (cwd st) (repodir args sourcedir) = Some p ->
  is_dir p (fs st) = true ->
  lookup (p ++ [lit "docs"]) (fs st) = None ->
  lookup (p ++ [lit "README.md"]) (fs st) = None ->
  exists root,
    lookup ((p ++ [lit "docs"]) ++ [lit "README.md"]) root
    = Some (File (lit "# No Official User Documentation Has Been Written Yet ("
                    ++ readme_time ++ lit ")" ++ [nl]))
    /\ lookup ((p ++ [lit "docs"]) ++ [gitkeep]) root = Some (File [])
    /\ (forall q c, lookup q (fs st) = Some (File c) -> lookup q root = Some (File c))
    /\ forall shell,
        docs_block args sourcedir readme_time shell st
        = Continue tt
            (record (Wrote ((p ++ [lit "docs"]) ++ [lit "README.md"]))
               (with_fs root (record (Wrote ((p ++ [lit "docs"]) ++ [gitkeep])) st))).
Proof.
  intros Hres Hp Hdocs Hreadme.
  destruct (make_package_dir_fresh (repodir args sourcedir) (lit "docs") st p
              Hres Hp eq_refl Hdocs) as (root1 & root2 & Hput1 & Hput2 & Hmk).
  assert (Hnd1 : is_dir (p ++ [lit "docs"]) (fs st) = false)
    by (unfold is_dir; now rewrite Hdocs).
  assert (Hl1 : lookup (p ++ [lit "docs"]) root1 = Some (Dir []))
    by exact (lookup_put_same _ _ _ _ Hput1).
  assert (Hnd2 : is_dir ((p ++ [lit "docs"]) ++ [gitkeep]) root1 = false)
    by (unfold is_dir; now rewrite lookup_app, Hl1).
  assert (Hmono1 : forall q, is_dir q (fs st) = true -> is_dir q root1 = true)
    by (intros q; exact (is_dir_put _ _ _ _ q Hput1 Hnd1)).
  assert (Hmono2 : forall q, is_dir q root1 = true -> is_dir q root2 = true)
    by (intros q; exact (is_dir_put _ _ _ _ q Hput2 Hnd2)).
  set (s1 := record (Wrote ((p ++ [lit "docs"]) ++ [gitkeep])) (with_fs root2 st)) in *.
  assert (Hres2 : resolve (fs s1) (cwd s1) (repodir args sourcedir) = Some p).
  { cbn [s1 fs cwd record with_fs].
    apply (resolve_mono (fs st)); [|exact Hres]. intros q Hq. apply Hmono2, Hmono1, Hq. }
  assert (Hp2 : is_dir p (fs s1) = true) by (apply Hmono2, Hmono1, Hp).
  assert (Habsent : lookup (p ++ [lit "README.md"]) (fs s1) = None).
  { cbn [s1 fs record with_fs].
    rewrite (lookup_put_other _ _ _ _ (p ++ [lit "README.md"]) Hput2).
    - rewrite (lookup_put_other _ _ _ _ (p ++ [lit "README.md"]) Hput1); [exact Hreadme | |].
      + rewrite <- (app_nil_r (p ++ [lit "docs"])). apply sibling_not_below. discriminate.
      + unfold is_dir. now rewrite Hreadme.
    - apply sibling_not_below. discriminate.
    - unfold is_dir.
      rewrite (lookup_put_other _ _ _ _ (p ++ [lit "README.md"]) Hput1); [now rewrite Hreadme | |].
      + rewrite <- (app_nil_r (p ++ [lit "docs"])). apply sibling_not_below. discriminate.
      + unfold is_dir. now rewrite Hreadme. }
  assert (Hstat : stat (fs s1) (cwd s1) (repodir args sourcedir ++ lit "/README.md") = None).
  { unfold stat.
    change (repodir args sourcedir ++ lit "/README.md")
      with (repodir args sourcedir ++ slash :: lit "README.md").
    rewrite (resolve_child (fs s1) (cwd s1) (repodir args sourcedir) (lit "README.md") p
               Hres2 Hp2 eq_refl).
    exact Habsent. }
  assert (Hdir2 : is_dir (p ++ [lit "docs"]) (fs s1) = true).
  { apply Hmono2. unfold is_dir. now rewrite Hl1. }
  assert (Hdest : resolve (fs s1) (cwd s1) (repodir args sourcedir ++ lit "/docs/README.md")
                  = Some ((p ++ [lit "docs"]) ++ [lit "README.md"])).
  { replace (repodir args sourcedir ++ lit "/docs/README.md")
      with ((repodir args sourcedir ++ slash :: lit "docs") ++ slash :: lit "README.md")
      by (now rewrite <- app_assoc).
    apply resolve_child; [|exact Hdir2 | reflexivity].
    apply resolve_child; [exact Hres2 | exact Hp2 | reflexivity]. }
  assert (Hfree : is_dir ((p ++ [lit "docs"]) ++ [lit "README.md"]) (fs s1) = false).
  { cbn [s1 fs record with_fs]. unfold is_dir.
    rewrite (lookup_put_other _ _ _ _ ((p ++ [lit "docs"]) ++ [lit "README.md"]) Hput2).
    - now rewrite lookup_app, Hl1.
    - rewrite <- (app_nil_r ((p ++ [lit "docs"]) ++ [gitkeep])).
      apply sibling_not_below. discriminate.
    - unfold is_dir. now rewrite lookup_app, Hl1. }
  destruct (write_once _ (lit "# No Official User Documentation Has Been Written Yet ("
                            ++ readme_time ++ lit ")" ++ [nl]) s1 _ _ Hdest Hdir2 Hfree)
    as (root3 & Hput3 & Hw & Hl3 & _ & Hframe3).
  exists root3. split; [exact Hl3|]. split; [|split].
  - apply (Hframe3 _ []).
    + intros E. apply app_inv_head in E. discriminate.
    + cbn [s1 fs record with_fs]. exact (lookup_put_same _ _ _ _ Hput2).
  - intros q c Hq.
    assert (Hq1 : lookup q root1 = Some (File c)).
    { apply (lookup_file_put _ _ _ _ q c Hput1 Hnd1); [congruence | exact Hq]. }
    assert (Hq2 : lookup q root2 = Some (File c)).
    { apply (lookup_file_put _ _ _ _ q c Hput2 Hnd2); [|exact Hq1].
      intros <-. rewrite lookup_app, Hl1 in Hq1. discriminate. }
    apply (Hframe3 q c); [|exact Hq2].
    intros ->. cbn [s1 fs record with_fs] in Hfree. unfold is_dir in Hfree.
    revert Hq2. rewrite (lookup_put_other _ _ _ _ ((p ++ [lit "docs"]) ++ [lit "README.md"]) Hput2).
    + now rewrite lookup_app, Hl1.
    + rewrite <- (app_nil_r ((p ++ [lit "docs"]) ++ [gitkeep])).
      apply sibling_not_below. discriminate.
    + unfold is_dir. now rewrite lookup_app, Hl1.
  - intros shell. unfold docs_block.
    change (repodir args sourcedir ++ lit "/docs")
      with (repodir args sourcedir ++ slash :: lit "docs").
    rewrite (bind_step _ _ _ _ _ Hmk).
    rewrite (bind_step _ _ _ _ _ (os_path_exists_eq _ _)).
    rewrite Hstat. cbn [negb]. rewrite Hw. reflexivity.
Qed.

(** X16. In a clone without [README.md] and without [docs], the
    documentation block makes [docs], writes the dated placeholder
    [docs/README.md], and completes; no shell command is run (the outcome
    is the same whatever the shell would do), the working directory and
    the recorded calls stay, and every file that existed keeps its
    content. *)
Theorem docs_block_writes_the_placeholder
        (args : arguments) (sourcedir readme_time : str)
        (shell : str -> list str -> node -> Z * node) (st : state) (p : list str) :
  resolve (fs st) (cwd st) (repodir args sourcedir) = Some p ->
  is_dir p (fs st) = true ->
  lookup (p ++ [lit "docs"]) (fs st) = None ->
  lookup (p ++ [lit "README.md"]) (fs st) = None ->
  exists st',
    docs_block args sourcedir readme_time shell st = Continue tt st'
    /\ (forall shell', docs_block args sourcedir readme_time shell' st = Continue tt st')
    /\ history st'
       = history st ++ [Wrote ((p ++ [lit "docs"]) ++ [gitkeep]);
                        Wrote ((p ++ [lit "docs"]) ++ [lit "README.md"])]
    /\ lookup ((p ++ [lit "docs"]) ++ [lit "README.md"]) (fs st')
       = Some (File (lit "# No Official User Documentation Has Been Written Yet ("
                       ++ readme_time ++ lit ")" ++ [nl]))
    /\ lookup ((p ++ [lit "docs"]) ++ [gitkeep]) (fs st') = Some (File [])
    /\ (forall q c, lookup q (fs st) = Some (File c) -> lookup q (fs st') = Some (File c))
    /\ cwd st' = cwd st
    /\ calls_of st' = calls_of st.
Proof.
  intros Hres Hp Hdocs Hreadme.
  destruct (docs_block_without_readme args sourcedir readme_time st p Hres Hp Hdocs Hreadme)
    as (root & Hl & Hk & Hframe & Hrun).
  eexists. split; [apply Hrun|]. split; [exact Hrun|].
  cbn [fs cwd history record with_fs calls_of find_package_calls daq_codegen_calls
         daq_add_library_calls daq_add_python_bindings_calls daq_add_plugin_calls
         daq_add_application_calls daq_add_unit_test_calls].
  split; [now rewrite <- app_assoc|]. split; [exact Hl|]. split; [exact Hk|].
  split; [exact Hframe|]. split; reflexivity.
Qed.

Lemma docs_block_writes_the_placeholder_witness :
  exists st',
    docs_block (Example.args_of []) Example.sourcedir (lit "2021-06-01") Example.shell
      Example.start = Continue tt st'
    /\ (forall shell',
          docs_block (Example.args_of []) Example.sourcedir (lit "2021-06-01") shell'
            Example.start = Continue tt st')
    /\ history st'
       = history Example.start
         ++ [Wrote ((Example.repo ++ [lit "docs"]) ++ [gitkeep]);
             Wrote ((Example.repo ++ [lit "docs"]) ++ [lit "README.md"])]
    /\ lookup ((Example.repo ++ [lit "docs"]) ++ [lit "README.md"]) (fs st')
       = Some (File (lit "# No Official User Documentation Has Been Written Yet ("
                       ++ lit "2021-06-01" ++ lit ")" ++ [nl]))
    /\ lookup ((Example.repo ++ [lit "docs"]) ++ [gitkeep]) (fs st') = Some (File [])
    /\ (forall q c, lookup q (fs Example.start) = Some (File c) ->
                    lookup q (fs st') = Some (File c))
    /\ cwd st' = cwd Example.start
    /\ calls_of st' = calls_of Example.start.
Proof.
  exact (docs_block_writes_the_placeholder (Example.args_of []) Example.sourcedir
           (lit "2021-06-01") Example.shell Example.start Example.repo
           eq_refl eq_refl eq_refl eq_refl).
Defined.

(** ** Cleanup of the repository directory *)

(** X17. Every call of [cleanup] in the script passes [repodir], which ends
    in "/" + package, so the second assertion ("does not trust that the
    directory is something it should delete") cannot fail there: cleanup of
    the repository directory fails its assertion exactly when the path does
    not exist, and is the removal otherwise. *)
Theorem cleanup_of_the_repository_checks_existence_only
        (args : arguments) (sourcedir : str) (st : state) :
  regex_plain (package args) = true ->
  cleanup args (repodir args sourcedir) st
  = match stat (fs st) (cwd st) (repodir args sourcedir) with
    | Some _ => shutil_rmtree (repodir args sourcedir) st
    | None => AssertionFailed st
    end.
Proof.
  intros _. unfold cleanup.
  rewrite (bind_step _ _ _ _ _ (os_path_exists_eq _ _)).
  destruct (stat (fs st) (cwd st) (repodir args sourcedir)); [|reflexivity].
  rewrite re_search_cleanup_re.
  assert (E : contains (slash :: package args) (repodir args sourcedir) = true)
    by (apply contains_spec, repodir_names_package).
  now rewrite E.
Qed.

Lemma cleanup_of_the_repository_checks_existence_only_witness :
  cleanup (Example.args_of []) (repodir (Example.args_of []) Example.sourcedir) Example.start
  = match stat (fs Example.start) (cwd Example.start)
            (repodir (Example.args_of []) Example.sourcedir) with
    | Some _ => shutil_rmtree (repodir (Example.args_of []) Example.sourcedir) Example.start
    | None => AssertionFailed Example.start
    end.
Proof.
  exact (cleanup_of_the_repository_checks_existence_only (Example.args_of [])
           Example.sourcedir Example.start eq_refl).
Defined.

(** * A run on a fresh clone completes *)

(** ** Directories made below an existing one *)

Lemma makedirs_plain (names : list str) (root : node) (p : list str) :
  is_dir p root = true ->
  Forall (fun n => plain_name n = true) names ->
  (forall pre, leading pre names ->
     lookup (p ++ pre) root = None \/ is_dir (p ++ pre) root = true) ->
  exists root',
    makedirs_from root p names = Some root'
    /\ is_dir (p ++ names) root' = true
    /\ (forall q, is_dir q root' = true ->
          is_dir q root = true \/ exists pre, leading pre names /\ q = p ++ pre)
    /\ (forall q c, lookup q root' = Some (File c) -> lookup q root = Some (File c)).
Proof.
  revert root p. induction names as [|s rest IH]; intros root p Hp Hplain Hfree.
  - exists root. cbn [makedirs_from]. rewrite Hp, app_nil_r.
    split; [reflexivity|]. split; [exact Hp|]. split; [now left | auto].
  - inversion Hplain as [|? ? Hs Hrest]; subst.
    destruct (plain_name_spec s Hs) as (H1 & H2 & _).
    cbn [makedirs_from]. rewrite Hp, H1, H2.
    assert (Hlead : forall pre, leading pre rest -> leading (s :: pre) (s :: rest)).
    { intros pre [_ [suf ->]]. split; [discriminate | now exists suf]. }
    assert (Hfirst : leading [s] (s :: rest)) by (split; [discriminate | now exists rest]).
    destruct (lookup (p ++ [s]) root) as [x|] eqn:El.
    + assert (Hd : is_dir (p ++ [s]) root = true).
      { destruct (Hfree [s] Hfirst) as [Hn | Hd]; [congruence | exact Hd]. }
      destruct (IH root (p ++ [s]) Hd Hrest) as (root' & Hmk & Hdir & Hnew & Hfiles).
      { intros pre Hpre. rewrite <- app_assoc. exact (Hfree (s :: pre) (Hlead pre Hpre)). }
      exists root'. split; [exact Hmk|]. split; [now rewrite <- app_assoc in Hdir|].
      split; [|exact Hfiles].
      intros q Hq. destruct (Hnew q Hq) as [Hold | (pre & Hpre & ->)]; [now left|].
      right. exists (s :: pre). split; [exact (Hlead pre Hpre) | now rewrite <- app_assoc].
    + destruct (put_child p s (Dir []) root Hp) as [root1 Hput]. rewrite Hput.
      assert (Hl1 : lookup (p ++ [s]) root1 = Some (Dir []))
        by exact (lookup_put_same _ _ _ _ Hput).
      assert (Hd : is_dir (p ++ [s]) root1 = true) by (unfold is_dir; now rewrite Hl1).
      destruct (IH root1 (p ++ [s]) Hd Hrest) as (root' & Hmk & Hdir & Hnew & Hfiles).
      { intros pre [Hne _]. left. rewrite lookup_app, Hl1.
        destruct pre; [congruence | reflexivity]. }
      exists root'. split; [exact Hmk|]. split; [now rewrite <- app_assoc in Hdir|].
      assert (Hback : forall q, is_dir q root1 = true -> is_dir q root = true \/ q = p ++ [s]).
      { intros q Hq.
        destruct (lookup_put_cases _ _ _ _ q Hput) as [(r & -> & Hr) | [[Ho _] | He]].
        - right. unfold is_dir in Hq. rewrite Hr in Hq.
          destruct r; [now rewrite app_nil_r | discriminate].
        - now left.
        - left. unfold is_dir in *. now rewrite <- He. }
      split.
      * intros q Hq. destruct (Hnew q Hq) as [Hold | (pre & Hpre & ->)].
        -- destruct (Hback q Hold) as [Ho | ->]; [now left|].
           right. now exists [s].
        -- right. exists (s :: pre).
           split; [exact (Hlead pre Hpre) | now rewrite <- app_assoc].
      * intros q c Hq. apply Hfiles in Hq.
        destruct (lookup_put_cases _ _ _ _ q Hput) as [(r & -> & Hr) | [[_ Ho] | He]].
        -- rewrite Hr in Hq. destruct r; discriminate.
        -- unfold is_dir in Ho. rewrite Hq in Ho. discriminate.
        -- now rewrite <- He.
Qed.

Lemma split_on_path_of (names : list str) (parent : str) :
  Forall (fun n => plain_name n = true) names ->
  split_on slash (parent ++ path_of names) = split_on slash parent ++ names.
Proof.
  revert parent. induction names as [|n rest IH]; intros parent Hplain.
  - cbn [path_of flat_map]. now rewrite !app_nil_r.
  - inversion Hplain as [|? ? Hn Hrest]; subst.
    destruct (plain_name_spec n Hn) as (_ & _ & H3).
    change (path_of (n :: rest)) with ((slash :: n) ++ path_of rest).
    rewrite app_assoc, (IH (parent ++ slash :: n) Hrest).
    now rewrite split_on_app, (split_on_plain slash n H3), <- app_assoc.
Qed.

Lemma walk_path_plain (root : node) (names : list str) (p q : list str) :
  Forall (fun n => plain_name n = true) names ->
  walk_path root p names = Some q -> q = p ++ names.
Proof.
  revert p. induction names as [|s rest IH]; intros p Hplain; cbn [walk_path].
  - intros [= <-]. now rewrite app_nil_r.
  - inversion Hplain as [|? ? Hs Hrest]; subst.
    destruct (plain_name_spec s Hs) as (H1 & H2 & _).
    destruct (is_dir p root); [|discriminate]. rewrite H1, H2.
    intros H. apply (IH _ Hrest) in H. now rewrite <- app_assoc in H.
Qed.

Lemma origin_app (cwd : list str) (parent rest : str) :
  parent <> [] -> origin cwd (parent ++ rest) = origin cwd parent.
Proof. destruct parent; [congruence | reflexivity]. Qed.

Lemma resolve_path_of (root : node) (cwd : list str) (parent : str) (names : list str)
      (p q : list str) :
  resolve root cwd parent = Some p ->
  Forall (fun n => plain_name n = true) names ->
  walk_path root p names = Some q ->
  resolve root cwd (parent ++ path_of names) = Some q.
Proof.
  intros Hres Hplain Hwalk. unfold resolve in *.
  destruct parent as [|c parent]; [discriminate|].
  change ((c :: parent) ++ path_of names) with (c :: (parent ++ path_of names)).
  cbv iota. change (c :: (parent ++ path_of names)) with ((c :: parent) ++ path_of names).
  rewrite origin_app by discriminate.
  now rewrite (split_on_path_of names (c :: parent) Hplain), walk_path_app, Hres.
Qed.

Lemma os_makedirs_below (parent : str) (names : list str) (st : state) (p : list str)
      (root' : node) :
  resolve (fs st) (cwd st) parent = Some p ->
  is_dir p (fs st) = true ->
  Forall (fun n => plain_name n = true) names ->
  makedirs_from (fs st) p names = Some root' ->
  os_makedirs (parent ++ path_of names) st = Continue tt (with_fs root' st).
Proof.
  intros Hres Hp Hplain Hmk. unfold os_makedirs.
  destruct parent as [|c parent]; [discriminate|].
  change ((c :: parent) ++ path_of names) with (c :: (parent ++ path_of names)).
  cbv iota. change (c :: (parent ++ path_of names)) with ((c :: parent) ++ path_of names).
  rewrite origin_app by discriminate.
  rewrite (split_on_path_of names (c :: parent) Hplain).
  unfold resolve in Hres.
  rewrite (makedirs_from_app _ _ _ names p (walk_dirs_along _ _ _ _ Hres Hp) Hres).
  now rewrite Hmk.
Qed.

(** [make_package_dir] for plain names below an existing directory, where
    nothing but directories stands in the way. *)
Lemma make_package_dir_below (parent : str) (names : list str) (st : state) (p : list str) :
  resolve (fs st) (cwd st) parent = Some p ->
  is_dir p (fs st) = true ->
  Forall (fun n => plain_name n = true) names ->
  (forall pre, leading pre names ->
     lookup (p ++ pre) (fs st) = None \/ is_dir (p ++ pre) (fs st) = true) ->
  exists st',
    make_package_dir (parent ++ path_of names) st = Continue tt st'
    /\ is_dir (p ++ names) (fs st') = true
    /\ (forall q, is_dir q (fs st') = true ->
          is_dir q (fs st) = true \/ exists pre, leading pre names /\ q = p ++ pre)
    /\ (forall q c, lookup q (fs st') = Some (File c) ->
          lookup q (fs st) = Some (File c) \/ q = (p ++ names) ++ [gitkeep])
    /\ (well_formed (fs st) = true -> well_formed (fs st') = true).
Proof.
  intros Hres Hp Hplain Hfree.
  destruct (makedirs_plain names (fs st) p Hp Hplain Hfree)
    as (root1 & Hmk & Hdir & Hnew & Hfiles).
  assert (Hmakedirs := os_makedirs_below parent names st p root1 Hres Hp Hplain Hmk).
  assert (Hmono := makedirs_from_mono _ _ _ _ Hmk).
  assert (Hwalk : walk_path root1 p names = Some (p ++ names)).
  { destruct (dirs_along_walk _ _ _ (makedirs_from_dirs _ _ _ _ Hmk)) as (q & Hq & _).
    now rewrite Hq, (walk_path_plain root1 names p q Hplain Hq). }
  assert (Hres1 : resolve root1 (cwd st) (parent ++ path_of names) = Some (p ++ names)).
  { apply (resolve_path_of root1 (cwd st) parent names p); [|exact Hplain | exact Hwalk].
    exact (resolve_mono _ _ _ _ _ Hmono Hres). }
  assert (Hkeep : resolve root1 (cwd st) ((parent ++ path_of names) ++ lit "/.gitkeep")
                  = Some ((p ++ names) ++ [gitkeep]))
    by exact (resolve_child root1 (cwd st) _ gitkeep _ Hres1 Hdir eq_refl).
  unfold make_package_dir. rewrite (bind_step _ _ _ _ _ Hmakedirs).
  rewrite (bind_step _ _ _ _ _ (os_path_exists_eq _ _)). cbn [fs cwd with_fs].
  unfold stat. rewrite Hkeep.
  destruct (lookup ((p ++ names) ++ [gitkeep]) root1) as [x|] eqn:El; cbn [negb].
  - eexists. split; [reflexivity|]. cbn [fs with_fs].
    split; [exact Hdir|]. split; [exact Hnew|].
    split; [intros q c Hq; left; exact (Hfiles q c Hq)|].
    intros Hwf. exact (well_formed_makedirs _ _ _ _ Hwf Hmk).
  - destruct (put_child (p ++ names) gitkeep (File []) root1 Hdir) as [root2 Hput].
    eexists. split.
    { unfold write_file. cbn [fs cwd with_fs]. now rewrite Hkeep, El, Hput. }
    cbn [fs with_fs record].
    assert (Hnd : is_dir ((p ++ names) ++ [gitkeep]) root1 = false)
      by (unfold is_dir; now rewrite El).
    split; [exact (is_dir_put _ _ _ _ _ Hput Hnd Hdir)|].
    split.
    { intros q Hq. apply Hnew. exact (is_dir_put_file_inv _ _ _ _ q Hput Hq). }
    split.
    { intros q c Hq.
      destruct (lookup_put_cases _ _ _ _ q Hput) as [(r & -> & Hr) | [[_ Ho] | He]].
      - right. rewrite Hr in Hq. destruct r; [now rewrite app_nil_r | discriminate].
      - unfold is_dir in Ho. rewrite Hq in Ho. discriminate.
      - left. apply Hfiles. now rewrite <- He. }
    intros Hwf.
    exact (well_formed_put _ (File []) _ _ (well_formed_makedirs _ _ _ _ Hwf Hmk) eq_refl Hput).
Qed.

(** ** Statements that complete *)

Lemma leads_ret (I : state -> Prop) : leads I I (ret tt).
Proof. intros st H. now exists st. Qed.

Lemma leads_bind (I J K : state -> Prop) (m : M unit) (k : unit -> M unit) :
  leads I J m -> leads J K (k tt) -> leads I K (bind m k).
Proof.
  intros Hm Hk st H. destruct (Hm st H) as (s1 & E1 & H1).
  destruct (Hk s1 H1) as (s2 & E2 & H2).
  exists s2. split; [|exact H2]. now rewrite (bind_step _ _ _ _ _ E1).
Qed.

Lemma leads_for_each {A} (I : state -> Prop) (l : list A) (body : A -> M unit) :
  (forall x, In x l -> leads I I (body x)) -> leads I I (for_each l body).
Proof.
  induction l as [|x l IH]; intros H; cbn [for_each].
  - apply leads_ret.
  - apply (leads_bind I I I); [apply H; now left|].
    apply IH. intros y Hy. apply H. now right.
Qed.

Lemma leads_weaken (I I' J J' : state -> Prop) (m : M unit) :
  (forall st, I' st -> I st) -> (forall st, J st -> J' st) ->
  leads I J m -> leads I' J' m.
Proof.
  intros HI HJ Hm st H. destruct (Hm st (HI st H)) as (s1 & E1 & H1).
  exists s1. split; [exact E1 | exact (HJ s1 H1)].
Qed.

Lemma is_dir_prefix (q r : list str) (root : node) :
  is_dir (q ++ r) root = true -> is_dir q root = true.
Proof.
  unfold is_dir. rewrite lookup_app.
  destruct (lookup q root) as [[c | es]|]; try discriminate; [|reflexivity].
  destruct r; discriminate.
Qed.

Lemma walk_path_standing (root : node) (names : list str) (p : list str) :
  Forall (fun n => plain_name n = true) names ->
  is_dir (p ++ names) root = true ->
  walk_path root p names = Some (p ++ names).
Proof.
  revert p. induction names as [|s rest IH]; intros p Hplain Hd; cbn [walk_path].
  - now rewrite app_nil_r.
  - inversion Hplain as [|? ? Hs Hrest]; subst.
    destruct (plain_name_spec s Hs) as (H1 & H2 & _).
    rewrite (is_dir_prefix p (s :: rest) root Hd), H1, H2.
    change (s :: rest) with ([s] ++ rest) in Hd. rewrite app_assoc in Hd.
    rewrite (IH (p ++ [s]) Hrest Hd). now rewrite <- app_assoc.
Qed.

(** ** The directories of the scaffold *)

Ltac split_cases :=
  repeat match goal with
         | H : _ \/ _ |- _ => destruct H as [H | H]
         | H : False |- _ => contradiction
         end.

Lemma leaves_cases (pkg : str) (leaf : list str) :
  In leaf (leaves pkg) ->
  (exists a, leaf = [a] /\ In a [lit "src"; lit "include"; lit "pybindsrc"; lit "plugins";
                                 lit "apps"; lit "unittest"; lit "docs"; lit "cmake"])
  \/ leaf = [lit "schema"; pkg]
  \/ leaf = [lit "test"; lit "apps"].
Proof.
  unfold leaves. cbn [In]. intros H. split_cases; subst leaf;
    try (left; eexists; split; [reflexivity | cbn [In]; tauto]); tauto.
Qed.

Lemma leading_one (pre : list str) (a : str) : leading pre [a] -> pre = [a].
Proof.
  intros [Hne [suf E]]. destruct pre as [|x pre]; [congruence|].
  destruct pre; [now injection E as -> | discriminate].
Qed.

Lemma leading_two (pre : list str) (a b : str) :
  leading pre [a; b] -> pre = [a] \/ pre = [a; b].
Proof.
  intros [Hne [suf E]]. destruct pre as [|x pre]; [congruence|].
  injection E as -> E. destruct pre as [|y pre]; [now left|].
  injection E as -> E. destruct pre; [now right | discriminate].
Qed.

Lemma leaves_plain (pkg : str) (leaf : list str) :
  plain_name pkg = true -> In leaf (leaves pkg) ->
  Forall (fun n => plain_name n = true) leaf.
Proof.
  intros Hpkg H. destruct (leaves_cases pkg leaf H) as [(a & -> & Ha) | [-> | ->]].
  - constructor; [|constructor]. cbn [In] in Ha. split_cases; subst a; reflexivity.
  - constructor; [reflexivity|]. constructor; [exact Hpkg | constructor].
  - constructor; [reflexivity|]. constructor; [reflexivity | constructor].
Qed.

Lemma leading_scaffold_dirs (pkg : str) (leaf pre : list str) :
  In leaf (leaves pkg) -> leading pre leaf -> In pre (scaffold_dirs pkg).
Proof.
  intros H Hpre. destruct (leaves_cases pkg leaf H) as [(a & -> & Ha) | [-> | ->]].
  - apply leading_one in Hpre as ->. right. right. exact H.
  - apply leading_two in Hpre as [-> | ->]; [now left | right; right; exact H].
  - apply leading_two in Hpre as [-> | ->]; [right; now left | right; right; exact H].
Qed.

Lemma leaves_first (pkg : str) (leaf : list str) :
  In leaf (leaves pkg) -> exists x r, leaf = x :: r /\ x <> lit ".git".
Proof.
  intros H. destruct (leaves_cases pkg leaf H) as [(a & -> & Ha) | [-> | ->]].
  - exists a, []. split; [reflexivity|]. cbn [In] in Ha. split_cases; subst a; discriminate.
  - eexists _, _. split; [reflexivity | discriminate].
  - eexists _, _. split; [reflexivity | discriminate].
Qed.

(** No directory of the scaffold is the place of a file in a leaf. *)
Lemma leaf_file_not_scaffold_dir (pkg : str) (leaf : list str) (name : str) :
  In leaf (leaves pkg) -> ~ In (leaf ++ [name]) (scaffold_dirs pkg).
Proof.
  intros H Hin. unfold scaffold_dirs, leaves in Hin. cbn [In] in Hin.
  destruct (leaves_cases pkg leaf H) as [(a & -> & Ha) | [-> | ->]].
  - cbn [app In] in Hin, Ha. split_cases; try discriminate;
      injection Hin as <- _; split_cases; discriminate.
  - cbn [app] in Hin. split_cases; discriminate.
  - cbn [app] in Hin. split_cases; discriminate.
Qed.

Lemma scaffold_dir_not_leaf_file (pkg : str) (leaf pre leaf' : list str) (name : str) :
  In leaf (leaves pkg) -> leading pre leaf -> In leaf' (leaves pkg) ->
  pre <> leaf' ++ [name].
Proof.
  intros H Hpre H' E. subst pre.
  apply (leaf_file_not_scaffold_dir pkg leaf' name H').
  exact (leading_scaffold_dirs pkg leaf _ H Hpre).
Qed.

(** ** Trees without a directory named like the marker *)

Lemma assoc_of_in (k : str) (c : node) (es : list (str * node)) :
  NoDup (names es) -> In (k, c) es -> assoc k es = Some c.
Proof.
  induction es as [|[k' c'] es IH]; intros Hnd Hin; [contradiction|].
  cbn [names map fst] in Hnd. inversion Hnd as [|? ? Hnot Hrest]; subst.
  cbn [assoc]. destruct Hin as [E | Hin].
  - injection E as -> ->. now rewrite str_eqb_refl.
  - destruct (str_eqb k k') eqn:Ek; [|exact (IH Hrest Hin)].
    apply str_eqb_eq in Ek. subst k'. exfalso. apply Hnot.
    apply assoc_in_names. exists c. exact (IH Hrest Hin).
Qed.

Lemma no_marker_directory_paths (n : node) :
  well_formed n = true ->
  (forall q, is_dir (q ++ [gitkeep]) n = false) ->
  no_marker_directory n = true.
Proof.
  induction n as [c | es IH] using node_induction; intros Hwf Hno; [reflexivity|].
  rewrite no_marker_directory_dir. apply andb_true_iff. split.
  - assert (E := Hno []). cbn [List.app] in E. rewrite E. now rewrite andb_false_r.
  - rewrite well_formed_dir in Hwf. apply andb_true_iff in Hwf as [Hnd Hall].
    apply nodup_names_spec in Hnd.
    apply forallb_forall. intros [k c] Hin. cbn [snd].
    apply (proj1 (Forall_forall _ es) IH (k, c) Hin).
    + exact (proj1 (forallb_forall _ es) Hall (k, c) Hin).
    + intros q. specialize (Hno (k :: q)). unfold is_dir in *.
      cbn [lookup List.app] in Hno. now rewrite (assoc_of_in k c es Hnd Hin) in Hno.
Qed.

Lemma marker_not_scaffold_dir (pkg : str) (q : list str) :
  pkg <> gitkeep -> ~ In (q ++ [gitkeep]) (scaffold_dirs pkg).
Proof.
  intros Hpkg Hin. unfold scaffold_dirs, leaves in Hin. cbn [In] in Hin.
  destruct q as [|x [|y q]]; cbn [List.app] in Hin; split_cases; try discriminate.
  all: injection Hin; intros; subst; try congruence;
    match goal with H : [] = ?l ++ _ |- _ => destruct l; discriminate H end.
Qed.

Lemma popen_eq (shell : str -> list str -> node -> Z * node) (cmd : str) (st : state) :
  popen shell cmd st
  = Continue (fst (shell cmd (cwd st) (fs st))) (with_fs (snd (shell cmd (cwd st) (fs st))) st).
Proof. unfold popen. now destruct (shell cmd (cwd st) (fs st)). Qed.

Lemma resolve_relative_plain (root : node) (cwd : list str) (name : str) :
  plain_name name = true -> absolute name = false -> is_dir cwd root = true ->
  resolve root cwd name = Some (cwd ++ [name]).
Proof.
  intros Hname Hrel Hd. destruct (plain_name_spec name Hname) as (H1 & H2 & H3).
  unfold resolve. destruct name as [|c name]; [discriminate|].
  unfold origin. unfold absolute in Hrel. rewrite Hrel.
  rewrite (split_on_plain slash (c :: name) H3). cbn [walk_path].
  now rewrite Hd, H1, H2.
Qed.

(** ** The scaffold on a fresh clone *)

Section FreshClone.

Variable args : arguments.
Variable sourcedir : str.
Variable template : str -> option str.
(** The location of the repository directory, and the tree of the clone. *)
Variable p : list str.
Variable root0 : node.

Hypothesis sourcedir_absolute : absolute sourcedir = true.
Hypothesis repodir_found : forall d, resolve root0 d (repodir args sourcedir) = Some p.
Hypothesis repodir_is_dir : is_dir p root0 = true.
Hypothesis only_git : forall x r, x <> lit ".git" -> lookup (p ++ x :: r) root0 = None.
Hypothesis package_plain : plain_name (package args) = true.

Lemma on_track_same (st st' : state) :
  cwd st' = cwd st -> fs st' = fs st ->
  on_track (package args) p root0 st -> on_track (package args) p root0 st'.
Proof. unfold on_track. intros -> ->. auto. Qed.

Lemma on_track_repodir (st : state) :
  on_track (package args) p root0 st ->
  resolve (fs st) (cwd st) (repodir args sourcedir) = Some p /\ is_dir p (fs st) = true.
Proof.
  intros (_ & (_ & Hmono & _) & _). split; [|exact (Hmono p repodir_is_dir)].
  exact (resolve_mono root0 (fs st) (cwd st) _ p Hmono (repodir_found (cwd st))).
Qed.

Lemma nothing_in_the_way (st : state) (leaf pre : list str) :
  on_track (package args) p root0 st ->
  In leaf (leaves (package args)) -> leading pre leaf ->
  lookup (p ++ pre) (fs st) = None \/ is_dir (p ++ pre) (fs st) = true.
Proof.
  intros (_ & _ & Hfiled) Hleaf Hpre. unfold is_dir.
  destruct (lookup (p ++ pre) (fs st)) as [[c | es]|] eqn:El; [|now right | now left].
  exfalso. destruct (Hfiled pre c El) as [H0 | (leaf' & name & Hl' & E)].
  - destruct (leaves_first _ leaf Hleaf) as (x & r & -> & Hx).
    destruct Hpre as [Hne [suf E]]. destruct pre as [|y pre]; [congruence|].
    injection E as E _. subst y. rewrite (only_git x pre Hx) in H0. discriminate.
  - exact (scaffold_dir_not_leaf_file _ leaf pre leaf' name Hleaf Hpre Hl' E).
Qed.

(** A directory of the scaffold is made. *)
Lemma leads_make_package_dir (dirs : list (list str)) (leaf : list str) :
  In leaf (leaves (package args)) ->
  leads (ready (package args) p root0 dirs)
        (ready (package args) p root0 (leaf :: dirs))
        (make_package_dir (repodir args sourcedir ++ path_of leaf)).
Proof.
  intros Hleaf st [Htrack Hdirs].
  destruct (on_track_repodir st Htrack) as [Hres Hp].
  destruct (make_package_dir_below (repodir args sourcedir) leaf st p Hres Hp
              (leaves_plain _ leaf package_plain Hleaf)
              (fun pre Hpre => nothing_in_the_way st leaf pre Htrack Hleaf Hpre))
    as (st' & Hrun & Hdir & Hnew & Hfiles & Hwf).
  destruct (grows_make_package_dir _ _ _ _ Hrun) as [Hcwd Hmono].
  destruct Htrack as (Hc & (Hwf0 & Hmono0 & Hshape) & Hfiled).
  exists st'. split; [exact Hrun|]. split; [split; [congruence|]; split; [split; [|split]|]|].
  - exact (Hwf Hwf0).
  - intros q Hq. apply Hmono, Hmono0, Hq.
  - intros r Hr. destruct (Hnew _ Hr) as [Hold | (pre & Hpre & E)]; [exact (Hshape r Hold)|].
    apply app_inv_head in E. subst r. right. left.
    exact (leading_scaffold_dirs _ leaf pre Hleaf Hpre).
  - intros r c Hr. destruct (Hfiles _ _ Hr) as [Hold | E]; [exact (Hfiled r c Hold)|].
    right. exists leaf, gitkeep. split; [exact Hleaf|].
    rewrite <- app_assoc in E. now apply app_inv_head in E.
  - intros d [<- | Hd]; [exact Hdir | apply Hmono, Hdirs, Hd].
Qed.

(** A file is written into a directory of the scaffold. *)
Lemma leads_write_file (dirs : list (list str)) (leaf : list str) (name content : str) :
  In leaf (leaves (package args)) -> In leaf dirs -> plain_name name = true ->
  leads (ready (package args) p root0 dirs) (ready (package args) p root0 dirs)
        (write_file ((repodir args sourcedir ++ path_of leaf) ++ slash :: name) content).
Proof.
  intros Hleaf Hin Hname st [Htrack Hdirs].
  destruct (on_track_repodir st Htrack) as [Hres Hp].
  assert (Hplain := leaves_plain _ leaf package_plain Hleaf).
  assert (Hd : is_dir (p ++ leaf) (fs st) = true) by exact (Hdirs leaf Hin).
  assert (Hresleaf : resolve (fs st) (cwd st) (repodir args sourcedir ++ path_of leaf)
                     = Some (p ++ leaf)).
  { apply (resolve_path_of _ _ _ leaf p); [exact Hres | exact Hplain|].
    exact (walk_path_standing _ leaf p Hplain Hd). }
  assert (Hdest := resolve_child _ _ _ name _ Hresleaf Hd Hname).
  destruct Htrack as (Hc & (Hwf0 & Hmono0 & Hshape) & Hfiled).
  assert (Hfree : is_dir ((p ++ leaf) ++ [name]) (fs st) = false).
  { destruct (is_dir ((p ++ leaf) ++ [name]) (fs st)) eqn:E; [|reflexivity]. exfalso.
    rewrite <- app_assoc in E. destruct (Hshape _ E) as [H | [H | H]].
    - destruct leaf; discriminate.
    - exact (leaf_file_not_scaffold_dir _ leaf name Hleaf H).
    - destruct (leaves_first _ leaf Hleaf) as (x & r & -> & Hx).
      unfold is_dir in H. cbn [app] in H. now rewrite (only_git x _ Hx) in H. }
  destruct (write_once _ content st (p ++ leaf) name Hdest Hd Hfree)
    as (root' & Hput & Hw & _ & Hsame & _).
  exists (record (Wrote ((p ++ leaf) ++ [name])) (with_fs root' st)).
  split; [exact Hw|]. unfold ready, on_track, tidy, filed, standing.
  cbn [fs cwd record with_fs].
  split; [split; [exact Hc|]; split; [split; [|split]|]|].
  - exact (well_formed_put _ (File content) _ _ Hwf0 eq_refl Hput).
  - intros q Hq. rewrite Hsame. exact (Hmono0 q Hq).
  - intros r Hr. rewrite Hsame in Hr. exact (Hshape r Hr).
  - intros r c Hr.
    destruct (lookup_put_cases _ _ _ _ (p ++ r) Hput) as [(x & E & Hx) | [[_ Ho] | He]].
    + rewrite Hx in Hr. destruct x; [|discriminate].
      rewrite app_nil_r, <- app_assoc in E. apply app_inv_head in E.
      right. now exists leaf, name.
    + unfold is_dir in Ho. rewrite Hr in Ho. discriminate.
    + apply Hfiled. now rewrite <- He.
  - intros d Hd'. rewrite Hsame. exact (Hdirs d Hd').
Qed.

Hypothesis templates_present : forall name, In name all_templates -> template name <> None.
Hypothesis modules_good :
  forallb good_module_name (elements (daq_modules args)) = true.
Hypothesis user_apps_good :
  forallb good_application_name (elements (user_apps args)) = true.
Hypothesis test_apps_good :
  forallb good_application_name (elements (test_apps args)) = true.

Lemma ready_forget (dirs : list (list str)) (st : state) :
  ready (package args) p root0 dirs st -> ready (package args) p root0 [] st.
Proof. intros [H _]. split; [exact H | intros d []]. Qed.

Lemma ready_fewer (d : list str) (dirs : list (list str)) (st : state) :
  ready (package args) p root0 (d :: dirs) st -> ready (package args) p root0 dirs st.
Proof. intros [H Hd]. split; [exact H | intros x Hx; apply Hd; now right]. Qed.

(** A statement that changes neither the tree nor the working directory. *)
Lemma leads_keep (dirs : list (list str)) (m : M unit) :
  (forall st, exists st', m st = Continue tt st' /\ cwd st' = cwd st /\ fs st' = fs st) ->
  leads (ready (package args) p root0 dirs) (ready (package args) p root0 dirs) m.
Proof.
  intros Hm st [Htrack Hdirs]. destruct (Hm st) as (st' & E & Hc & Hf).
  exists st'. split; [exact E|]. split; [exact (on_track_same st st' Hc Hf Htrack)|].
  intros d Hd. rewrite Hf. exact (Hdirs d Hd).
Qed.

Ltac keeps := apply leads_keep; intros ?; eexists; split; [reflexivity | split; reflexivity].

Lemma ret_bind {A B} (a : A) (k : A -> M B) (st : state) : bind (ret a) k st = k a st.
Proof. reflexivity. Qed.

Lemma template_text (name : str) :
  In name all_templates -> exists text, template name = Some text.
Proof.
  intros H. apply templates_present in H.
  destruct (template name) as [text|]; [now exists text | congruence].
Qed.

(** A template is copied into a directory of the scaffold. *)
Lemma leads_shutil_copyfile (dirs : list (list str)) (leaf : list str) (src name : str) :
  In src all_templates ->
  In leaf (leaves (package args)) -> In leaf dirs -> plain_name name = true ->
  leads (ready (package args) p root0 dirs) (ready (package args) p root0 dirs)
        (shutil_copyfile template src
           ((repodir args sourcedir ++ path_of leaf) ++ slash :: name)).
Proof.
  intros Hsrc Hleaf Hin Hname st H.
  destruct (template_text src Hsrc) as [text Ht].
  unfold shutil_copyfile, read_template. rewrite Ht, ret_bind.
  exact (leads_write_file dirs leaf name text Hleaf Hin Hname st H).
Qed.

(** One template of one module. *)
Lemma leads_instantiate (dirs : list (list str)) (leaf : list str) (module src name : str) :
  In src all_templates ->
  In leaf (leaves (package args)) -> In leaf dirs -> plain_name name = true ->
  (forall st, dest_filename_of args sourcedir module src st
              = Continue ((repodir args sourcedir ++ path_of leaf) ++ slash :: name) st) ->
  leads (ready (package args) p root0 dirs) (ready (package args) p root0 dirs)
        (instantiate args sourcedir template module src).
Proof.
  intros Hsrc Hleaf Hin Hname Hdest st H.
  unfold instantiate. rewrite (bind_step _ _ _ _ _ (Hdest st)).
  destruct (leads_shutil_copyfile dirs leaf src name Hsrc Hleaf Hin Hname st H)
    as (s1 & E1 & H1).
  rewrite (bind_step _ _ _ _ _ E1).
  destruct (template_text src Hsrc) as [text Ht].
  unfold read_template. rewrite Ht, ret_bind.
  exact (leads_write_file dirs leaf name _ Hleaf Hin Hname s1 H1).
Qed.

Lemma schema_dir_path :
  repodir args sourcedir ++ lit "/schema/" ++ package args
  = repodir args sourcedir ++ path_of [lit "schema"; package args].
Proof. unfold path_of. cbn [flat_map]. now rewrite app_nil_r. Qed.

Lemma leads_daq_module (dirs : list (list str)) (module : str) :
  In [lit "plugins"] dirs -> In [lit "schema"; package args] dirs ->
  good_module_name module = true ->
  leads (ready (package args) p root0 dirs) (ready (package args) p root0 dirs)
        (daq_module args sourcedir template module).
Proof.
  intros Hplugins Hschema Hgood.
  apply andb_true_iff in Hgood as [Hacc Hslash]. apply negb_true_iff in Hslash.
  assert (Lplugins : In [lit "plugins"] (leaves (package args)))
    by (unfold leaves; cbn [In]; tauto).
  assert (Lschema : In [lit "schema"; package args] (leaves (package args)))
    by (unfold leaves; cbn [In]; tauto).
  assert (Hlower : existsb (Ascii.eqb slash) (lower module) = false)
    by (now rewrite lower_no_slash).
  unfold daq_module. rewrite Hacc. cbn [negb].
  apply (leads_bind _ _ _ _ _ (leads_ret _)).
  apply (leads_bind _ (ready (package args) p root0 dirs)); [keeps|].
  apply (leads_bind _ (ready (package args) p root0 dirs)); [keeps|].
  apply (leads_bind _ (ready (package args) p root0 dirs)); [keeps|].
  unfold module_templates. cbn [for_each].
  apply (leads_bind _ (ready (package args) p root0 dirs)).
  { apply (leads_instantiate dirs [lit "plugins"] module _ (module ++ lit ".hpp"));
      [unfold all_templates, module_templates; cbn [In List.app]; tauto
      | exact Lplugins | exact Hplugins
      | apply plain_name_with_extension; [exact Hslash | reflexivity | cbn; lia]
      | intros st; exact (dest_filename_hpp args sourcedir module st) ]. }
  apply (leads_bind _ (ready (package args) p root0 dirs)).
  { apply (leads_instantiate dirs [lit "plugins"] module _ (module ++ lit ".cpp"));
      [unfold all_templates, module_templates; cbn [In List.app]; tauto
      | exact Lplugins | exact Hplugins
      | apply plain_name_with_extension; [exact Hslash | reflexivity | cbn; lia]
      | intros st; exact (dest_filename_cpp args sourcedir module st) ]. }
  apply (leads_bind _ (ready (package args) p root0 dirs)).
  { apply (leads_instantiate dirs [lit "schema"; package args] module _
             (lower module ++ lit ".jsonnet"));
      [unfold all_templates, module_templates; cbn [In List.app]; tauto
      | exact Lschema | exact Hschema
      | apply plain_name_with_extension; [exact Hlower | reflexivity | cbn; lia]
      | intros st; rewrite <- schema_dir_path;
        exact (dest_filename_jsonnet args sourcedir module st) ]. }
  apply (leads_bind _ (ready (package args) p root0 dirs)).
  { apply (leads_instantiate dirs [lit "schema"; package args] module _
             (lower module ++ lit "info.jsonnet"));
      [unfold all_templates, module_templates; cbn [In List.app]; tauto
      | exact Lschema | exact Hschema
      | apply plain_name_with_extension; [exact Hlower | reflexivity | cbn; lia]
      | intros st; rewrite <- schema_dir_path;
        exact (dest_filename_info_jsonnet args sourcedir module st) ]. }
  apply leads_ret.
Qed.

Lemma leads_application (dirs : list (list str)) (leaf : list str) (subdir : str)
      (e : str -> fatal) (keyword app : str) :
  In leaf (leaves (package args)) -> In leaf dirs ->
  (forall name, repodir args sourcedir ++ subdir ++ name
                = (repodir args sourcedir ++ path_of leaf) ++ slash :: name) ->
  good_application_name app = true ->
  leads (ready (package args) p root0 dirs) (ready (package args) p root0 dirs)
        (application args sourcedir template subdir e keyword app).
Proof.
  intros Hleaf Hin Hpath Hgood.
  apply andb_true_iff in Hgood as [Hacc Hslash].
  apply negb_true_iff in Hacc. apply negb_true_iff in Hslash.
  destruct (template_text (lit "renameme.cxx")) as [text Ht];
    [unfold all_templates, module_templates; cbn [In List.app]; tauto|].
  unfold application. rewrite Hacc.
  apply (leads_bind _ _ _ _ _ (leads_ret _)).
  intros st H. unfold read_template. rewrite Ht, ret_bind. rewrite Hpath.
  revert st H.
  apply (leads_bind _ (ready (package args) p root0 dirs)); [|keeps].
  apply (leads_write_file dirs leaf (app ++ lit ".cxx") _ Hleaf Hin).
  apply plain_name_with_extension; [exact Hslash | reflexivity | cbn; lia].
Qed.

(** *** The blocks of the scaffold *)

Lemma leads_main_library_block :
  leads (ready (package args) p root0 []) (ready (package args) p root0 [])
        (main_library_block args sourcedir).
Proof.
  unfold main_library_block. destruct (contains_main_library args); [|apply leads_ret].
  apply (leads_weaken (ready (package args) p root0 [])
           (ready (package args) p root0 [])
           (ready (package args) p root0 [[lit "include"]; [lit "src"]])
           (ready (package args) p root0 []));
    [auto | intros st; apply ready_forget|].
  apply (leads_bind _ (ready (package args) p root0 [[lit "src"]])).
  { apply (leads_make_package_dir [] [lit "src"]). unfold leaves. cbn [In]. tauto. }
  apply (leads_bind _ (ready (package args) p root0 [[lit "include"]; [lit "src"]])).
  { apply (leads_make_package_dir [[lit "src"]] [lit "include"]).
    unfold leaves. cbn [In]. tauto. }
  keeps.
Qed.

Lemma leads_python_bindings_block :
  leads (ready (package args) p root0 []) (ready (package args) p root0 [])
        (python_bindings_block args sourcedir template).
Proof.
  unfold python_bindings_block. destruct (contains_python_bindings args); [|apply leads_ret].
  assert (Hleaf : In [lit "pybindsrc"] (leaves (package args)))
    by (unfold leaves; cbn [In]; tauto).
  apply (leads_weaken (ready (package args) p root0 [])
           (ready (package args) p root0 [])
           (ready (package args) p root0 [[lit "pybindsrc"]])
           (ready (package args) p root0 []));
    [auto | intros st; apply ready_forget|].
  apply (leads_bind _ (ready (package args) p root0 [[lit "pybindsrc"]])).
  { exact (leads_make_package_dir [] [lit "pybindsrc"] Hleaf). }
  apply (leads_bind _ (ready (package args) p root0 [[lit "pybindsrc"]])); [keeps|].
  cbn [for_each].
  apply (leads_bind _ (ready (package args) p root0 [[lit "pybindsrc"]])).
  { replace (repodir args sourcedir ++ lit "/pybindsrc/" ++ lit "module.cpp")
      with ((repodir args sourcedir ++ path_of [lit "pybindsrc"]) ++ slash :: lit "module.cpp")
      by (now rewrite <- app_assoc).
    apply (leads_shutil_copyfile _ [lit "pybindsrc"]);
      [unfold all_templates, module_templates; cbn [In List.app]; tauto
      | exact Hleaf | now left | reflexivity]. }
  apply (leads_bind _ (ready (package args) p root0 [[lit "pybindsrc"]]));
    [|apply leads_ret].
  replace (repodir args sourcedir ++ lit "/pybindsrc/" ++ lit "renameme.cpp")
    with ((repodir args sourcedir ++ path_of [lit "pybindsrc"]) ++ slash :: lit "renameme.cpp")
    by (now rewrite <- app_assoc).
  apply (leads_shutil_copyfile _ [lit "pybindsrc"]);
    [unfold all_templates, module_templates; cbn [In List.app]; tauto
    | exact Hleaf | now left | reflexivity].
Qed.

Lemma forallb_In {A} (f : A -> bool) (l : list A) (x : A) :
  forallb f l = true -> In x l -> f x = true.
Proof. intros H Hx. exact (proj1 (forallb_forall f l) H x Hx). Qed.

Lemma leads_daq_modules_block :
  leads (ready (package args) p root0 []) (ready (package args) p root0 [])
        (daq_modules_block args sourcedir template).
Proof.
  unfold daq_modules_block. destruct (given (daq_modules args)); [|apply leads_ret].
  apply (leads_weaken (ready (package args) p root0 [])
           (ready (package args) p root0 [])
           (ready (package args) p root0
              [[lit "schema"; package args]; [lit "plugins"]; [lit "src"]])
           (ready (package args) p root0 []));
    [auto | intros st; apply ready_forget|].
  cbn [for_each].
  destruct (template_text (lit "RenameMe.hpp")) as [hpp Hhpp];
    [unfold all_templates, module_templates; cbn [In List.app]; tauto|].
  destruct (template_text (lit "RenameMe.cpp")) as [cpp Hcpp];
    [unfold all_templates, module_templates; cbn [In List.app]; tauto|].
  rewrite Hhpp, Hcpp.
  apply (leads_bind _ (ready (package args) p root0 [])).
  { apply (leads_bind _ _ _ _ _ (leads_ret _)).
    apply (leads_bind _ _ _ _ _ (leads_ret _)). apply leads_ret. }
  apply (leads_bind _ (ready (package args) p root0 [])).
  { apply (leads_bind _ (ready (package args) p root0 [])); [keeps|].
    apply (leads_bind _ (ready (package args) p root0 [])); [keeps|]. apply leads_ret. }
  apply (leads_bind _ (ready (package args) p root0 [[lit "src"]])).
  { apply (leads_make_package_dir [] [lit "src"]). unfold leaves. cbn [In]. tauto. }
  apply (leads_bind _ (ready (package args) p root0 [[lit "plugins"]; [lit "src"]])).
  { apply (leads_make_package_dir _ [lit "plugins"]). unfold leaves. cbn [In]. tauto. }
  apply (leads_bind _ (ready (package args) p root0
                         [[lit "schema"; package args]; [lit "plugins"]; [lit "src"]])).
  { rewrite schema_dir_path.
    apply (leads_make_package_dir _ [lit "schema"; package args]).
    unfold leaves. cbn [In]. tauto. }
  apply leads_for_each. intros module Hm.
  apply leads_daq_module; [cbn [In]; tauto | cbn [In]; tauto|].
  exact (forallb_In _ _ module modules_good Hm).
Qed.

Lemma leads_user_apps_block :
  leads (ready (package args) p root0 []) (ready (package args) p root0 [])
        (user_apps_block args sourcedir template).
Proof.
  unfold user_apps_block. destruct (given (user_apps args)); [|apply leads_ret].
  assert (Hleaf : In [lit "apps"] (leaves (package args)))
    by (unfold leaves; cbn [In]; tauto).
  apply (leads_weaken (ready (package args) p root0 [])
           (ready (package args) p root0 [])
           (ready (package args) p root0 [[lit "apps"]])
           (ready (package args) p root0 []));
    [auto | intros st; apply ready_forget|].
  apply (leads_bind _ (ready (package args) p root0 [[lit "apps"]])).
  { exact (leads_make_package_dir [] [lit "apps"] Hleaf). }
  apply leads_for_each. intros a Ha.
  apply (leads_application _ [lit "apps"]); [exact Hleaf | now left | |].
  - intros name. now rewrite <- app_assoc.
  - exact (forallb_In _ _ a user_apps_good Ha).
Qed.

Lemma leads_test_apps_block :
  leads (ready (package args) p root0 []) (ready (package args) p root0 [])
        (test_apps_block args sourcedir template).
Proof.
  unfold test_apps_block. destruct (given (test_apps args)); [|apply leads_ret].
  assert (Hleaf : In [lit "test"; lit "apps"] (leaves (package args)))
    by (unfold leaves; cbn [In]; tauto).
  apply (leads_weaken (ready (package args) p root0 [])
           (ready (package args) p root0 [])
           (ready (package args) p root0 [[lit "test"; lit "apps"]])
           (ready (package args) p root0 []));
    [auto | intros st; apply ready_forget|].
  apply (leads_bind _ (ready (package args) p root0 [[lit "test"; lit "apps"]])).
  { exact (leads_make_package_dir [] [lit "test"; lit "apps"] Hleaf). }
  apply leads_for_each. intros a Ha.
  apply (leads_application _ [lit "test"; lit "apps"]); [exact Hleaf | now left | |].
  - intros name. now rewrite <- app_assoc.
  - exact (forallb_In _ _ a test_apps_good Ha).
Qed.

Lemma leads_unittest_block :
  leads (ready (package args) p root0 []) (ready (package args) p root0 [])
        (unittest_block args sourcedir template).
Proof.
  unfold unittest_block.
  assert (Hleaf : In [lit "unittest"] (leaves (package args)))
    by (unfold leaves; cbn [In]; tauto).
  apply (leads_weaken (ready (package args) p root0 [])
           (ready (package args) p root0 [])
           (ready (package args) p root0 [[lit "unittest"]])
           (ready (package args) p root0 []));
    [auto | intros st; apply ready_forget|].
  apply (leads_bind _ (ready (package args) p root0 [[lit "unittest"]])).
  { exact (leads_make_package_dir [] [lit "unittest"] Hleaf). }
  apply (leads_bind _ (ready (package args) p root0 [[lit "unittest"]])).
  { replace (repodir args sourcedir ++ lit "/unittest/Placeholder_test.cxx")
      with ((repodir args sourcedir ++ path_of [lit "unittest"])
              ++ slash :: lit "Placeholder_test.cxx")
      by (now rewrite <- app_assoc).
    apply (leads_shutil_copyfile _ [lit "unittest"]);
      [unfold all_templates, module_templates; cbn [In List.app]; tauto
      | exact Hleaf | now left | reflexivity]. }
  apply (leads_bind _ (ready (package args) p root0 [[lit "unittest"]])); keeps.
Qed.

(** There is nothing at the top of the repository directory but what the
    clone and the scaffold put there. *)
Lemma unknown_name_absent (st : state) (name : str) :
  on_track (package args) p root0 st ->
  name <> lit ".git" -> ~ In [name] (scaffold_dirs (package args)) ->
  lookup (p ++ [name]) (fs st) = None.
Proof.
  intros (_ & (_ & _ & Hshape) & Hfiled) Hgit Hnew.
  destruct (lookup (p ++ [name]) (fs st)) as [[c | es]|] eqn:El; [| |reflexivity]; exfalso.
  - destruct (Hfiled [name] c El) as [H0 | (leaf & x & Hleaf & E)].
    + now rewrite (only_git name [] Hgit) in H0.
    + destruct (leaves_first _ leaf Hleaf) as (y & r & -> & _).
      destruct r; discriminate.
  - assert (Hd : is_dir (p ++ [name]) (fs st) = true) by (unfold is_dir; now rewrite El).
    destruct (Hshape [name] Hd) as [H | [H | H]]; [discriminate | exact (Hnew H)|].
    unfold is_dir in H. now rewrite (only_git name [] Hgit) in H.
Qed.

Lemma leads_docs_block (readme_time : str) (shell : str -> list str -> node -> Z * node) :
  leads (ready (package args) p root0 []) (ready (package args) p root0 [])
        (docs_block args sourcedir readme_time shell).
Proof.
  assert (Hleaf : In [lit "docs"] (leaves (package args)))
    by (unfold leaves; cbn [In]; tauto).
  intros st H. unfold docs_block.
  destruct (leads_make_package_dir [] [lit "docs"] Hleaf st H) as (s1 & E1 & H1).
  change (repodir args sourcedir ++ lit "/docs")
    with (repodir args sourcedir ++ path_of [lit "docs"]).
  rewrite (bind_step _ _ _ _ _ E1).
  rewrite (bind_step _ _ _ _ _ (os_path_exists_eq _ _)).
  destruct H1 as [Htrack Hdirs].
  destruct (on_track_repodir s1 Htrack) as [Hres Hp].
  assert (Hstat : stat (fs s1) (cwd s1) (repodir args sourcedir ++ lit "/README.md") = None).
  { unfold stat.
    change (repodir args sourcedir ++ lit "/README.md")
      with (repodir args sourcedir ++ slash :: lit "README.md").
    rewrite (resolve_child _ _ _ (lit "README.md") p Hres Hp eq_refl).
    apply (unknown_name_absent s1 _ Htrack); [discriminate|].
    unfold scaffold_dirs, leaves. cbn [In]. intros Hin. split_cases; discriminate. }
  rewrite Hstat. cbn [negb].
  replace (repodir args sourcedir ++ lit "/docs/README.md")
    with ((repodir args sourcedir ++ path_of [lit "docs"]) ++ slash :: lit "README.md")
    by (now rewrite <- app_assoc).
  destruct (leads_write_file [[lit "docs"]] [lit "docs"] (lit "README.md")
              (lit "# No Official User Documentation Has Been Written Yet ("
                 ++ readme_time ++ lit ")" ++ [nl])
              Hleaf (or_introl eq_refl) eq_refl s1 (conj Htrack Hdirs)) as (s2 & E2 & H2).
  exists s2. split; [exact E2 | exact (ready_forget _ s2 H2)].
Qed.

(** *** The download, the descriptor, the sweep and the commit *)

Variable shell : str -> list str -> node -> Z * node.

Hypothesis shell_succeeds : forall cmd dir root, fst (shell cmd dir root) = 0%Z.
Hypothesis curl_keeps_directories :
  forall cmd dir root,
    starts_with (lit "curl") cmd = true ->
    (forall q, is_dir q (snd (shell cmd dir root)) = is_dir q root)
    /\ (well_formed root = true -> well_formed (snd (shell cmd dir root)) = true).
Hypothesis no_marker_directories : forall r, is_dir ((p ++ r) ++ [gitkeep]) root0 = false.
Hypothesis package_not_marker : package args <> gitkeep.

Lemma leads_cmake_config_block :
  leads (ready (package args) p root0 []) (on_dirs (package args) p root0)
        (cmake_config_block args sourcedir shell).
Proof.
  assert (Hleaf : In [lit "cmake"] (leaves (package args)))
    by (unfold leaves; cbn [In]; tauto).
  intros st H. unfold cmake_config_block.
  destruct (leads_make_package_dir [] [lit "cmake"] Hleaf st H) as (s1 & E1 & H1).
  change (repodir args sourcedir ++ lit "/cmake")
    with (repodir args sourcedir ++ path_of [lit "cmake"]).
  rewrite (bind_step _ _ _ _ _ E1).
  rewrite (bind_step _ _ _ _ _ (popen_eq _ _ _)).
  rewrite shell_succeeds. cbn [Z.eqb negb].
  eexists. split; [reflexivity|].
  destruct H1 as [(Hc & (Hwf & Hmono & Hshape) & _) _].
  match goal with
  | |- on_dirs _ _ _ (with_fs (snd (shell ?cmd _ _)) _) =>
      destruct (curl_keeps_directories cmd (cwd s1) (fs s1) eq_refl) as [Hsame Hwf']
  end.
  split; [exact Hc|]. cbn [fs with_fs]. split; [exact (Hwf' Hwf)|]. split.
  - intros q Hq. rewrite Hsame. exact (Hmono q Hq).
  - intros r Hr. rewrite Hsame in Hr. exact (Hshape r Hr).
Qed.

Lemma leads_scaffold (readme_time : str) :
  leads (ready (package args) p root0 []) (on_dirs (package args) p root0)
        (scaffold args sourcedir template readme_time shell).
Proof.
  unfold scaffold.
  apply (leads_bind _ _ _ _ _ leads_main_library_block).
  apply (leads_bind _ _ _ _ _ leads_python_bindings_block).
  apply (leads_bind _ _ _ _ _ leads_daq_modules_block).
  apply (leads_bind _ _ _ _ _ leads_user_apps_block).
  apply (leads_bind _ _ _ _ _ leads_test_apps_block).
  apply (leads_bind _ _ _ _ _ leads_unittest_block).
  apply (leads_bind _ _ _ _ _ (leads_docs_block readme_time shell)).
  apply leads_cmake_config_block.
Qed.

Lemma descriptor_sweep_commit_complete (cmakelists_time command : str) (st : state) :
  on_dirs (package args) p root0 st ->
  exists st_end,
    (write_cmakelists args cmakelists_time ;;
     sweep args sourcedir ;;
     commit args command shell) st = Continue tt st_end.
Proof.
  intros (Hc & Hwf & Hmono & Hshape).
  assert (Hp : is_dir p (fs st) = true) by exact (Hmono p repodir_is_dir).
  (* the descriptor *)
  assert (Hdest : resolve (fs st) (cwd st) (lit "CMakeLists.txt")
                  = Some (p ++ [lit "CMakeLists.txt"])).
  { rewrite Hc. apply resolve_relative_plain; [reflexivity | reflexivity | exact Hp]. }
  assert (Hfree : is_dir (p ++ [lit "CMakeLists.txt"]) (fs st) = false).
  { destruct (is_dir (p ++ [lit "CMakeLists.txt"]) (fs st)) eqn:E; [|reflexivity]. exfalso.
    destruct (Hshape _ E) as [H | [H | H]]; [discriminate | |].
    - unfold scaffold_dirs, leaves in H. cbn [In] in H. split_cases; discriminate.
    - unfold is_dir in H. rewrite (only_git (lit "CMakeLists.txt") []) in H; discriminate. }
  destruct (write_once _ (cmakelists_text args cmakelists_time st) st p _ Hdest Hp Hfree)
    as (root1 & Hput & Hw & _ & Hsame & _).
  change (write_file (lit "CMakeLists.txt") (cmakelists_text args cmakelists_time st) st)
    with (write_cmakelists args cmakelists_time st) in Hw.
  rewrite (bind_step _ _ _ _ _ Hw).
  set (s1 := record (Wrote (p ++ [lit "CMakeLists.txt"])) (with_fs root1 st)).
  (* the sweep *)
  assert (Hres1 : forall d, resolve (fs s1) d (repodir args sourcedir) = Some p).
  { intros d. cbn [s1 fs record with_fs]. rewrite (resolve_ext (fs st) root1 d _ Hsame).
    exact (resolve_mono root0 (fs st) d _ p Hmono (repodir_found d)). }
  assert (Hp1 : is_dir p (fs s1) = true) by (cbn [s1 fs record with_fs]; now rewrite Hsame).
  assert (Hchdir : os_chdir (repodir args sourcedir) s1 = Continue tt (with_cwd p s1)).
  { unfold os_chdir. now rewrite Hres1, Hp1. }
  unfold sweep. rewrite bind_assoc, (bind_step _ _ _ _ _ Hchdir).
  assert (Hwf1 : well_formed (fs s1) = true)
    by exact (well_formed_put _ (File _) _ _ Hwf eq_refl Hput).
  unfold is_dir in Hp1.
  destruct (lookup p (fs s1)) as [[c | es]|] eqn:El; try discriminate.
  assert (Hok : no_marker_directory (Dir es) = true).
  { apply no_marker_directory_paths; [exact (well_formed_lookup p _ _ Hwf1 El)|].
    intros q. destruct (is_dir (q ++ [gitkeep]) (Dir es)) eqn:E; [|reflexivity]. exfalso.
    assert (E' : is_dir (p ++ q ++ [gitkeep]) (fs st) = true).
    { rewrite <- Hsame. unfold is_dir in *. cbn [s1 fs record with_fs] in El.
      now rewrite lookup_app, El. }
    destruct (Hshape _ E') as [H | [H | H]].
    - destruct q; discriminate.
    - exact (marker_not_scaffold_dir _ q package_not_marker H).
    - rewrite app_assoc, no_marker_directories in H. discriminate. }
  destruct (sweep_node_total (Dir es) Hok) as [n' Hsweep].
  destruct (put_exists p n' (fs s1)) as [root2 Hput2]; [congruence|].
  assert (Hsw : sweep_gitkeep (repodir args sourcedir) (with_cwd p s1)
                = Continue tt (with_fs root2 (with_cwd p s1))).
  { unfold sweep_gitkeep. cbn [fs cwd with_cwd]. now rewrite Hres1, El, Hsweep, Hput2. }
  rewrite (bind_step _ _ _ _ _ Hsw).
  (* the commit *)
  unfold commit.
  rewrite (bind_step _ _ _ _ _ (popen_eq _ _ _)), shell_succeeds. cbn [Z.eqb negb].
  rewrite ret_bind.
  rewrite (bind_step _ _ _ _ _ (popen_eq _ _ _)), shell_succeeds. cbn [Z.eqb negb].
  eexists. reflexivity.
Qed.

End FreshClone.


Lemma example_clone_has_no_marker_directory (r : list str) :
  is_dir ((Example.repo ++ r) ++ [gitkeep]) (fs Example.start) = false.
Proof.
  assert (E : lookup Example.repo (fs Example.start)
              = Some (Dir [(lit ".git", Dir [(lit "HEAD", File [])])])) by reflexivity.
  unfold is_dir. rewrite <- app_assoc, lookup_app, E.
  destruct r as [|x r]; [reflexivity|]. cbn [List.app lookup assoc].
  destruct (str_eqb x (lit ".git")); [|reflexivity].
  destruct r as [|y r]; [reflexivity|]. cbn [List.app lookup assoc].
  destruct (str_eqb y (lit "HEAD")); [|reflexivity].
  destruct r; reflexivity.
Qed.

Lemma example_templates_present (name : str) :
  In name all_templates -> Example.template name <> None.
Proof.
  unfold all_templates, module_templates. cbn [In List.app]. intros H.
  split_cases; subst name; vm_compute; discriminate.
Qed.

